(** * Cross-margin health engine of EntropyAccount

    A shallow embedding of the health computations of the [EntropyAccount]
    class: the health-component resolver ([getHealthComponents]), the weighted
    aggregators ([getHealthFromComponents], [getWeightedAssetsLiabsVals]) and
    the solvency queries built on them. *)

From stdpp Require Import base list.
From Stdlib Require Import ZArith Lia.

Local Open Scope Z_scope.

(** ** Exceptions

    JavaScript exceptions are made explicit: a computation either returns a
    value or throws. *)

Inductive Exn : Set :=
| DivisionByZero    (* division of a fixed-point value by zero *)
| UndefinedAccess.  (* a method call on [undefined], e.g. an array hole *)

Inductive result (A : Type) : Type :=
| Ok (a : A)
| Throw (e : Exn).

Arguments Ok {A} a.
Arguments Throw {A} e.

Definition bind {A B : Type} (m : result A) (k : A -> result B) : result B :=
  match m with
  | Ok a => k a
  | Throw e => Throw e
  end.

Notation "'do' x <- m ; k" := (bind m (fun x => k))
  (at level 10, x name, m at level 100, k at level 200).

(** Reading [arr[i]] and using the value: outside the array the read gives
    [undefined] and the following method call throws. *)
Definition getIdx {A : Type} (arr : list A) (i : nat) : result A :=
  match arr !! i with
  | Some x => Ok x
  | None => Throw UndefinedAccess
  end.

(** The loop [for (let i = 0; i < n; i++) body], threading the loop state. *)
Fixpoint forEach {S : Type} (body : nat -> S -> result S) (idx : list nat)
    (s : S) : result S :=
  match idx with
  | [] => Ok s
  | i :: rest => do s' <- body i s; forEach body rest s'
  end.

Definition forRange {S : Type} (n : nat) (body : nat -> S -> result S)
    (s : S) : result S :=
  forEach body (seq 0 n) s.

(** Sum of [f 0 .. f (n-1)], used to state what a loop accumulates. *)
Fixpoint sumTo (f : nat -> Z) (n : nat) : Z :=
  match n with
  | O => 0
  | S k => sumTo f k + f k
  end.

(** ** Fixed-point numbers *)

(** Direction in which multiplication and division drop the bits below the
    48th fractional bit. The specification leaves it open, so every result
    below is established for both. *)
Inductive Rounding : Set := TowardZero | TowardNegInf.
Existing Class Rounding.

(** The class [I80F48] of [./fixednum] is not part of the sources; the
    module below follows the specification's description of the type. *)
Module I80F48.

(** Modelled from the spec: the class [I80F48] is missing. A value is a
    signed number with 48 fractional bits, represented by its scaled
    integer. The scaled integer is not bounded here: the specification gives
    the widths (80 integer bits) but no overflow rule, and the failure of an
    operation whose result does not fit these widths is not modelled. A
    result [Ok x] below is the value the program returns unless one of its
    operations leaves that range; a [Throw] is a call that does not
    return. *)
Definition t : Type := Z.

Definition FRACTIONS : Z := 48.
Definition MULTIPLIER : Z := 2 ^ FRACTIONS.

(** Modelled from the spec: the integer division behind [mul] and [div],
    which drops the remainder in the direction [rm]. *)
Definition rdiv {rm : Rounding} (a b : Z) : Z :=
  match rm with
  | TowardZero => Z.quot a b
  | TowardNegInf => Z.div a b
  end.

Definition ZERO : t := 0.
Definition ONE : t := MULTIPLIER.

(** Modelled from the spec: conversion of an integer ([fromI64], [fromU64],
    and [fromNumber] at an integral argument). *)
Definition fromI64 (x : Z) : t := x * MULTIPLIER.
Definition fromNumber (x : Z) : t := x * MULTIPLIER.

(** Modelled from the spec: [fromNumber(Math.pow(10, k))]. For [k < 0] the
    power is not an integer and is rounded to 48 fractional bits. A power
    too large for the type is not a failure here. *)
Definition fromPow10 {rm : Rounding} (k : Z) : t :=
  if 0 <=? k then fromNumber (10 ^ k) else rdiv MULTIPLIER (10 ^ (- k)).

(** Modelled from the spec: addition, subtraction and negation are exact;
    the in-place variants ([iadd], [isub], [imul]) compute the same values. *)
Definition add (a b : t) : t := a + b.
Definition sub (a b : t) : t := a - b.
Definition neg (a : t) : t := - a.

(** Modelled from the spec: multiplication and division of the scaled
    integers, rounded in the direction [rm]; a zero divisor is a failure, a
    product or quotient outside the range of the type is not. *)
Definition mul {rm : Rounding} (a b : t) : t := rdiv (a * b) MULTIPLIER.

Definition div {rm : Rounding} (a b : t) : result t :=
  if b =? 0 then Throw DivisionByZero else Ok (rdiv (a * MULTIPLIER) b).

(** Modelled from the spec: comparisons and sign tests act on the scaled
    integer. *)

Definition gt (a b : t) : bool := b <? a.
Definition gte (a b : t) : bool := b <=? a.
Definition lt (a b : t) : bool := a <? b.
Definition lte (a b : t) : bool := a <=? b.
Definition eq (a b : t) : bool := a =? b.

Definition isPos (a : t) : bool := gt a ZERO.
Definition isNeg (a : t) : bool := a <? 0.
Definition isZero (a : t) : bool := eq a ZERO.

Definition abs (a : t) : t := if isNeg a then neg a else a.
Definition min (a b : t) : t := if lte a b then a else b.
Definition max (a b : t) : t := if gte a b then a else b.

(** Modelled from the spec: [floor] rounds toward minus infinity on the
    scaled representation. *)
Definition floor (a : t) : t := (a / MULTIPLIER) * MULTIPLIER.

End I80F48.

(** ** Data model *)

Inductive HealthType : Set := Init | Maint.

(** A public key, compared with [equals]; [zeroKey] marks an unused slot. *)
Definition PublicKey : Type := Z.
Definition zeroKey : PublicKey := 0.
Definition equals (a b : PublicKey) : bool := a =? b.

Record TokenInfo : Type := {
  decimals : Z
}.

Record SpotMarketInfo : Type := {
  spotMaintAssetWeight : I80F48.t;
  spotInitAssetWeight : I80F48.t;
  spotMaintLiabWeight : I80F48.t;
  spotInitLiabWeight : I80F48.t
}.

Record PerpMarketInfo : Type := {
  perpMarket : PublicKey;
  perpMaintAssetWeight : I80F48.t;
  perpInitAssetWeight : I80F48.t;
  perpMaintLiabWeight : I80F48.t;
  perpInitLiabWeight : I80F48.t;
  baseLotSize : Z;
  quoteLotSize : Z
}.

(** The arrays of the group, the cache and the account are decoded from
    fixed-size layouts, so every index used below is populated; they are
    total maps from the index. *)
Record EntropyGroup : Type := {
  numOracles : nat;
  tokens : nat -> TokenInfo;
  spotMarkets : nat -> SpotMarketInfo;
  perpMarkets : nat -> PerpMarketInfo
}.

Record RootBankCache : Type := {
  depositIndex : I80F48.t;
  borrowIndex : I80F48.t
}.

Record PriceCache : Type := {
  price : I80F48.t
}.

Record PerpMarketCache : Type := {
  longFunding : I80F48.t;
  shortFunding : I80F48.t
}.

Record EntropyCache : Type := {
  rootBankCache : nat -> RootBankCache;
  priceCache : nat -> PriceCache;
  perpMarketCache : nat -> PerpMarketCache
}.

(** Modelled from the spec: the serum [OpenOrders] account and
    [splitOpenOrders] of [./utils] are not part of the sources. An
    open-orders snapshot consists of the four amounts [splitOpenOrders]
    returns. *)
Record OpenOrders : Type := {
  quoteFree : I80F48.t;
  quoteLocked : I80F48.t;
  baseFree : I80F48.t;
  baseLocked : I80F48.t
}.

(** Modelled from the spec: [splitOpenOrders] returns the four amounts of
    the open-orders snapshot. *)
Definition splitOpenOrders (oo : OpenOrders)
    : I80F48.t * I80F48.t * I80F48.t * I80F48.t :=
  (quoteFree oo, quoteLocked oo, baseFree oo, baseLocked oo).

(** Modelled from the spec: the class [PerpAccount] is not part of the
    sources. A perp position has its settled lots, the pending taker lots,
    the resting order lots (all integers) and the funding-adjusted quote
    balance that [getQuotePosition] returns. *)
Record PerpAccount : Type := {
  basePosition : Z;
  takerBase : Z;
  takerQuote : Z;
  bidsQuantity : Z;
  asksQuantity : Z;
  fundingAdjustedQuotePosition : I80F48.t
}.

(** Modelled from the spec: [PerpAccount.getQuotePosition] returns the
    funding-adjusted quote balance of the position. *)
Definition getQuotePosition (pa : PerpAccount) (pmc : PerpMarketCache)
    : I80F48.t :=
  fundingAdjustedQuotePosition pa.

Record EntropyAccount : Type := {
  inMarginBasket : nat -> bool;
  deposits : nat -> I80F48.t;
  borrows : nat -> I80F48.t;
  spotOpenOrdersAccounts : nat -> option OpenOrders;
  perpAccounts : nat -> PerpAccount;
  beingLiquidated : bool
}.

Record Weights : Type := {
  spotAssetWeight : I80F48.t;
  spotLiabWeight : I80F48.t;
  perpAssetWeight : I80F48.t;
  perpLiabWeight : I80F48.t
}.

(** Modelled from the spec: [getWeights] of [./utils] is not part of the
    sources. It selects the Init or the Maint weights of market
    [marketIndex]; without a health type every weight is one, as in
    [getAssetsVal] and [getLiabsVal]. *)
Definition getWeights (g : EntropyGroup) (marketIndex : nat)
    (healthType : option HealthType) : Weights :=
  match healthType with
  | Some Maint =>
      {| spotAssetWeight := spotMaintAssetWeight (spotMarkets g marketIndex);
         spotLiabWeight := spotMaintLiabWeight (spotMarkets g marketIndex);
         perpAssetWeight := perpMaintAssetWeight (perpMarkets g marketIndex);
         perpLiabWeight := perpMaintLiabWeight (perpMarkets g marketIndex) |}
  | Some Init =>
      {| spotAssetWeight := spotInitAssetWeight (spotMarkets g marketIndex);
         spotLiabWeight := spotInitLiabWeight (spotMarkets g marketIndex);
         perpAssetWeight := perpInitAssetWeight (perpMarkets g marketIndex);
         perpLiabWeight := perpInitLiabWeight (perpMarkets g marketIndex) |}
  | None =>
      {| spotAssetWeight := I80F48.ONE; spotLiabWeight := I80F48.ONE;
         perpAssetWeight := I80F48.ONE; perpLiabWeight := I80F48.ONE |}
  end.

(** The result of [getHealthComponents]. *)
Record Components : Type := {
  spot : list I80F48.t;
  perps : list I80F48.t;
  quote : I80F48.t
}.

Section Engine.

Context {rm : Rounding}.

(** The index of the quote currency, [QUOTE_INDEX] of [./layout]; the
    layout is not part of the sources, so the index is a parameter. *)
Variable QUOTE_INDEX : nat.

(** *** getNet: deposits - borrows in native terms *)
Definition getNet (a : EntropyAccount) (bankCache : RootBankCache)
    (tokenIndex : nat) : I80F48.t :=
  I80F48.sub
    (I80F48.mul (deposits a tokenIndex) (depositIndex bankCache))
    (I80F48.mul (borrows a tokenIndex) (borrowIndex bankCache)).

(** *** getHealthComponents *)

(** The spot part of one iteration ("Evaluate spot first"). *)
Definition evalSpot (c : EntropyCache) (a : EntropyAccount) (i : nat)
    (st : Components) : result Components :=
  let bankCache := rootBankCache c i in
  let price := price (priceCache c i) in
  let baseNet := getNet a bankCache i in
  let openOrders := spotOpenOrdersAccounts a i in
  match inMarginBasket a i, openOrders with
  | true, Some oo =>
      let '(quoteFree, quoteLocked, baseFree, baseLocked) :=
        splitOpenOrders oo in
      do locked <- I80F48.div quoteLocked price;
      (* base total if all bids were executed *)
      let bidsBaseNet :=
        I80F48.add (I80F48.add (I80F48.add baseNet locked) baseFree)
          baseLocked in
      (* base total if all asks were executed *)
      let asksBaseNet := I80F48.add baseNet baseFree in
      (* bids case worse if it has a higher absolute position *)
      if I80F48.gt (I80F48.abs bidsBaseNet) (I80F48.abs asksBaseNet) then
        Ok {| spot := <[i := bidsBaseNet]> (spot st);
              perps := perps st;
              quote := I80F48.add (quote st) quoteFree |}
      else
        Ok {| spot := <[i := asksBaseNet]> (spot st);
              perps := perps st;
              quote :=
                I80F48.add
                  (I80F48.add
                     (I80F48.add (quote st) (I80F48.mul baseLocked price))
                     quoteFree)
                  quoteLocked |}
  | _, _ =>
      Ok {| spot := <[i := baseNet]> (spot st);
            perps := perps st;
            quote := quote st |}
  end.

(** The perp part of one iteration ("Evaluate perps"). *)
Definition evalPerps (g : EntropyGroup) (c : EntropyCache)
    (a : EntropyAccount) (i : nat) (st : Components) : Components :=
  let price := price (priceCache c i) in
  if negb (equals (perpMarket (perpMarkets g i)) zeroKey) then
    let perpMarketCache := perpMarketCache c i in
    let perpAccount := perpAccounts a i in
    let baseLotSize := baseLotSize (perpMarkets g i) in
    let quoteLotSize := quoteLotSize (perpMarkets g i) in
    let takerQuote :=
      I80F48.fromI64 (takerQuote perpAccount * quoteLotSize) in
    let basePos :=
      I80F48.fromI64
        ((basePosition perpAccount + takerBase perpAccount) * baseLotSize) in
    let bidsQuantity :=
      I80F48.fromI64 (bidsQuantity perpAccount * baseLotSize) in
    let asksQuantity :=
      I80F48.fromI64 (asksQuantity perpAccount * baseLotSize) in
    let bidsBaseNet := I80F48.add basePos bidsQuantity in
    let asksBaseNet := I80F48.sub basePos asksQuantity in
    if I80F48.gt (I80F48.abs bidsBaseNet) (I80F48.abs asksBaseNet) then
      let quotePos :=
        I80F48.sub
          (I80F48.add (getQuotePosition perpAccount perpMarketCache)
             takerQuote)
          (I80F48.mul bidsQuantity price) in
      {| spot := spot st;
         perps := <[i := bidsBaseNet]> (perps st);
         quote := I80F48.add (quote st) quotePos |}
    else
      let quotePos :=
        I80F48.add
          (I80F48.add (getQuotePosition perpAccount perpMarketCache)
             takerQuote)
          (I80F48.mul asksQuantity price) in
      {| spot := spot st;
         perps := <[i := asksBaseNet]> (perps st);
         quote := I80F48.add (quote st) quotePos |}
  else
    {| spot := spot st;
       perps := <[i := I80F48.ZERO]> (perps st);
       quote := quote st |}.

Definition healthComponentsBody (g : EntropyGroup) (c : EntropyCache)
    (a : EntropyAccount) (i : nat) (st : Components) : result Components :=
  do st' <- evalSpot c a i st;
  Ok (evalPerps g c a i st').

Definition initialComponents (g : EntropyGroup) (c : EntropyCache)
    (a : EntropyAccount) : Components :=
  {| spot := replicate (numOracles g) I80F48.ZERO;
     perps := replicate (numOracles g) I80F48.ZERO;
     quote := getNet a (rootBankCache c QUOTE_INDEX) QUOTE_INDEX |}.

Definition getHealthComponents (g : EntropyGroup) (c : EntropyCache)
    (a : EntropyAccount) : result Components :=
  forRange (numOracles g) (healthComponentsBody g c a)
    (initialComponents g c a).

(** *** getWeightedAssetsLiabsVals *)

Record AssetsLiabs : Type := {
  assets : I80F48.t;
  liabs : I80F48.t
}.

Definition weightedAssetsLiabsBody (g : EntropyGroup) (c : EntropyCache)
    (spot perps : list I80F48.t) (healthType : option HealthType)
    (i : nat) (al : AssetsLiabs) : result AssetsLiabs :=
  let w := getWeights g i healthType in
  let price := price (priceCache c i) in
  do s <- getIdx spot i;
  let al1 :=
    if I80F48.isPos s then
      {| assets :=
           I80F48.add (I80F48.mul (I80F48.mul s price) (spotAssetWeight w))
             (assets al);
         liabs := liabs al |}
    else
      {| assets := assets al;
         liabs :=
           I80F48.add
             (I80F48.mul (I80F48.mul (I80F48.neg s) price)
                (spotLiabWeight w))
             (liabs al) |} in
  do p <- getIdx perps i;
  if I80F48.isPos p then
    Ok {| assets :=
            I80F48.add (I80F48.mul (I80F48.mul p price) (perpAssetWeight w))
              (assets al1);
          liabs := liabs al1 |}
  else
    Ok {| assets := assets al1;
          liabs :=
            I80F48.add
              (I80F48.mul (I80F48.mul (I80F48.neg p) price)
                 (perpLiabWeight w))
              (liabs al1) |}.

Definition getWeightedAssetsLiabsVals (g : EntropyGroup) (c : EntropyCache)
    (spot perps : list I80F48.t) (quote : I80F48.t)
    (healthType : option HealthType) : result AssetsLiabs :=
  let al0 :=
    if I80F48.isPos quote then
      {| assets := I80F48.add I80F48.ZERO quote; liabs := I80F48.ZERO |}
    else
      {| assets := I80F48.ZERO;
         liabs := I80F48.add I80F48.ZERO (I80F48.neg quote) |} in
  forRange (numOracles g) (weightedAssetsLiabsBody g c spot perps healthType)
    al0.

(** *** getHealthFromComponents

    The accumulator [health] is the [quote] object itself, updated in
    place; the callers below do not read [quote] again. *)

Definition spotHealthOf (w : Weights) (price s : I80F48.t) : I80F48.t :=
  I80F48.mul (I80F48.mul s price)
    (if I80F48.isPos s then spotAssetWeight w else spotLiabWeight w).

Definition perpHealthOf (w : Weights) (price p : I80F48.t) : I80F48.t :=
  I80F48.mul (I80F48.mul p price)
    (if I80F48.isPos p then perpAssetWeight w else perpLiabWeight w).

Definition healthBody (g : EntropyGroup) (c : EntropyCache)
    (spot perps : list I80F48.t) (healthType : HealthType)
    (i : nat) (health : I80F48.t) : result I80F48.t :=
  let w := getWeights g i (Some healthType) in
  let price := price (priceCache c i) in
  do s <- getIdx spot i;
  let spotHealth := spotHealthOf w price s in
  do p <- getIdx perps i;
  let perpHealth := perpHealthOf w price p in
  Ok (I80F48.add (I80F48.add health spotHealth) perpHealth).

Definition getHealthFromComponents (g : EntropyGroup) (c : EntropyCache)
    (spot perps : list I80F48.t) (quote : I80F48.t)
    (healthType : HealthType) : result I80F48.t :=
  forRange (numOracles g) (healthBody g c spot perps healthType) quote.

(** *** getHealth *)
Definition getHealth (g : EntropyGroup) (c : EntropyCache)
    (a : EntropyAccount) (healthType : HealthType) : result I80F48.t :=
  do r <- getHealthComponents g c a;
  getHealthFromComponents g c (spot r) (perps r) (quote r) healthType.

(** *** getHealthRatio *)
Definition getHealthRatio (g : EntropyGroup) (c : EntropyCache)
    (a : EntropyAccount) (healthType : HealthType) : result I80F48.t :=
  do r <- getHealthComponents g c a;
  do al <- getWeightedAssetsLiabsVals g c (spot r) (perps r) (quote r)
             (Some healthType);
  if I80F48.gt (liabs al) I80F48.ZERO then
    do q <- I80F48.div (assets al) (liabs al);
    Ok (I80F48.mul (I80F48.sub q I80F48.ONE) (I80F48.fromNumber 100))
  else
    Ok (I80F48.fromNumber 100).

(** *** isLiquidatable

    [&&] and [||] evaluate their right operand only when needed. *)
Definition isLiquidatable (g : EntropyGroup) (c : EntropyCache)
    (a : EntropyAccount) : result bool :=
  do left <-
    (if beingLiquidated a then
       do h <- getHealth g c a Init; Ok (I80F48.isNeg h)
     else Ok false);
  if left then Ok true
  else do h <- getHealth g c a Maint; Ok (I80F48.isNeg h).

(** *** getLiquidationPrice *)

Record LiqTerms : Type := {
  partialHealth : I80F48.t;
  weightedAsset : I80F48.t
}.

Definition liquidationBody (g : EntropyGroup) (c : EntropyCache)
    (spot perps : list I80F48.t) (oracleIndex : nat)
    (i : nat) (lt : LiqTerms) : result LiqTerms :=
  let w := getWeights g i (Some Maint) in
  if Nat.eqb i oracleIndex then
    do s <- getIdx spot i;
    let weightedSpot :=
      I80F48.mul s
        (if I80F48.isPos s then spotAssetWeight w else spotLiabWeight w) in
    do p <- getIdx perps i;
    let weightedPerps :=
      I80F48.mul p
        (if I80F48.isPos p then perpAssetWeight w else perpLiabWeight w) in
    Ok {| partialHealth := partialHealth lt;
          weightedAsset :=
            I80F48.neg (I80F48.add weightedSpot weightedPerps) |}
  else
    let price := price (priceCache c i) in
    do s <- getIdx spot i;
    let spotHealth := spotHealthOf w price s in
    do p <- getIdx perps i;
    let perpHealth := perpHealthOf w price p in
    Ok {| partialHealth :=
            I80F48.add (I80F48.add (partialHealth lt) spotHealth)
              perpHealth;
          weightedAsset := weightedAsset lt |}.

Definition liquidationTerms (g : EntropyGroup) (c : EntropyCache)
    (r : Components) (oracleIndex : nat) : result LiqTerms :=
  forRange (numOracles g)
    (liquidationBody g c (spot r) (perps r) oracleIndex)
    {| partialHealth := quote r; weightedAsset := I80F48.ZERO |}.

(** The factor that adjusts for decimals in the price. *)
Definition priceDecimalsAdj (g : EntropyGroup) (oracleIndex : nat)
    : I80F48.t :=
  I80F48.fromPow10
    (decimals (tokens g oracleIndex) - decimals (tokens g QUOTE_INDEX)).

(** [None] is the [undefined] result. *)
Definition getLiquidationPrice (g : EntropyGroup) (c : EntropyCache)
    (a : EntropyAccount) (oracleIndex : nat) : result (option I80F48.t) :=
  do r <- getHealthComponents g c a;
  do lt <- liquidationTerms g c r oracleIndex;
  if I80F48.isZero (weightedAsset lt) then Ok None
  else
    do liqPrice <- I80F48.div (partialHealth lt) (weightedAsset lt);
    if I80F48.isNeg liqPrice then Ok None
    else Ok (Some (I80F48.mul liqPrice (priceDecimalsAdj g oracleIndex))).

(** *** getMarketMarginAvailable *)

Inductive MarketType : Set := SpotMarket | PerpMarket.

Definition getMarketMarginAvailable (g : EntropyGroup) (c : EntropyCache)
    (a : EntropyAccount) (marketIndex : nat) (marketType : MarketType)
    : result I80F48.t :=
  do health <- getHealth g c a Init;
  if I80F48.lte health I80F48.ZERO then Ok I80F48.ZERO
  else
    let w := getWeights g marketIndex (Some Init) in
    let weight :=
      match marketType with
      | SpotMarket => spotAssetWeight w
      | PerpMarket => perpAssetWeight w
      end in
    if I80F48.gte weight I80F48.ONE then
      (* This is actually an error state and should not happen *)
      Ok health
    else I80F48.div health (I80F48.sub I80F48.ONE weight).

(** *** getAvailableBalance *)
Definition getAvailableBalance (g : EntropyGroup) (c : EntropyCache)
    (a : EntropyAccount) (tokenIndex : nat) : result I80F48.t :=
  do health <- getHealth g c a Init;
  let net := getNet a (rootBankCache c tokenIndex) tokenIndex in
  if Nat.eqb tokenIndex QUOTE_INDEX then
    Ok (I80F48.max (I80F48.min health net) I80F48.ZERO)
  else
    let w := getWeights g tokenIndex (Some Init) in
    do byWeight <- I80F48.div health (spotAssetWeight w);
    do byPrice <- I80F48.div byWeight (price (priceCache c tokenIndex));
    Ok (I80F48.max (I80F48.min net byPrice) I80F48.ZERO).

(** *** getMaxWithBorrowForToken *)

Definition getNativeDeposit (a : EntropyAccount) (rootBank : RootBankCache)
    (tokenIndex : nat) : I80F48.t :=
  I80F48.mul (depositIndex rootBank) (deposits a tokenIndex).

(** [EntropyGroup.getPrice], the UI price of a token, is not part of the
    sources; it is an argument here. *)
Definition getMaxWithBorrowForToken
    (getPrice : EntropyGroup -> nat -> EntropyCache -> I80F48.t)
    (g : EntropyGroup) (c : EntropyCache) (a : EntropyAccount)
    (tokenIndex : nat) : result I80F48.t :=
  do health <- getHealth g c a Init;
  let oldInitHealth := I80F48.floor health in
  let tokenDeposits :=
    I80F48.floor (getNativeDeposit a (rootBankCache c tokenIndex) tokenIndex)
  in
  let '(liabWeight, assetWeight, nativePrice) :=
    if Nat.eqb tokenIndex QUOTE_INDEX then
      (I80F48.ONE, I80F48.ONE, I80F48.ONE)
    else
      (spotInitLiabWeight (spotMarkets g tokenIndex),
       spotInitAssetWeight (spotMarkets g tokenIndex),
       price (priceCache c tokenIndex)) in
  let newInitHealth :=
    I80F48.floor
      (I80F48.sub oldInitHealth
         (I80F48.mul (I80F48.mul tokenDeposits nativePrice) assetWeight)) in
  let price := getPrice g tokenIndex c in
  let healthDecimals :=
    I80F48.fromPow10 (decimals (tokens g QUOTE_INDEX)) in
  do scaled <- I80F48.div newInitHealth healthDecimals;
  I80F48.div scaled (I80F48.mul price liabWeight).

(** *** getMaxLeverageForMarket, the computation of [max]

    The UI values the method starts from ([uiInitHealth], [uiDepositVal],
    [uiBorrowVal]) come from conversions that are not part of the sources;
    they are arguments here. *)

Inductive Side : Set := Buy | Sell.

Definition maxLeverageMax (side : Side)
    (uiInitHealth uiDepositVal uiBorrowVal : I80F48.t)
    (initLiabWeight initAssetWeight : I80F48.t) : result I80F48.t :=
  match side with
  | Buy =>
      let uiHealthAtZero :=
        I80F48.add uiInitHealth
          (I80F48.mul uiBorrowVal (I80F48.sub initLiabWeight I80F48.ONE)) in
      do x <- I80F48.div uiHealthAtZero
                (I80F48.sub I80F48.ONE initAssetWeight);
      Ok (I80F48.add x uiBorrowVal)
  | Sell =>
      let uiHealthAtZero :=
        I80F48.add uiInitHealth
          (I80F48.mul uiDepositVal (I80F48.sub I80F48.ONE initAssetWeight))
      in
      do x <- I80F48.div uiHealthAtZero
                (I80F48.sub initLiabWeight I80F48.ONE);
      Ok (I80F48.add x uiDepositVal)
  end.

End Engine.


(** * Specification

    ** Arrays and loops *)

(** The array built by assigning [f i] to slot [i] for [i < k], over an
    array of [n] zeros. *)
Definition filled (f : nat -> I80F48.t) (k n : nat) : list I80F48.t :=
  (f <$> seq 0 k) ++ replicate (n - k) I80F48.ZERO.


(** ** Notions used in the statements *)

(** The entry [l[i]], zero outside the array. *)
Definition nthZ (l : list I80F48.t) (i : nat) : I80F48.t :=
  default I80F48.ZERO (l !! i).

(** The all-zero snapshot: no balance, nothing in the open-orders accounts
    that exist, no perp position. *)
Definition zeroOpenOrders : OpenOrders :=
  {| quoteFree := I80F48.ZERO; quoteLocked := I80F48.ZERO;
     baseFree := I80F48.ZERO; baseLocked := I80F48.ZERO |}.

Definition zeroPerpAccount : PerpAccount :=
  {| basePosition := 0; takerBase := 0; takerQuote := 0; bidsQuantity := 0;
     asksQuantity := 0; fundingAdjustedQuotePosition := I80F48.ZERO |}.

Definition allZero (a : EntropyAccount) : Prop :=
  (forall i, deposits a i = I80F48.ZERO /\ borrows a i = I80F48.ZERO)
  /\ (forall i oo, spotOpenOrdersAccounts a i = Some oo -> oo = zeroOpenOrders)
  /\ (forall i, perpAccounts a i = zeroPerpAccount).

(** The account with the borrow balance of token [i] replaced by [b] and
    everything else as it is. *)
Definition withBorrow (a : EntropyAccount) (i : nat) (b : I80F48.t)
    : EntropyAccount :=
  {| inMarginBasket := inMarginBasket a;
     deposits := deposits a;
     borrows := fun j => if Nat.eqb j i then b else borrows a j;
     spotOpenOrdersAccounts := spotOpenOrdersAccounts a;
     perpAccounts := perpAccounts a;
     beingLiquidated := beingLiquidated a |}.

(** Prices and the risk weights of a health type are not negative. *)
Definition nonnegMarkets (g : EntropyGroup) (c : EntropyCache)
    (healthType : HealthType) : Prop :=
  forall i, (i < numOracles g)%nat ->
    0 <= price (priceCache c i)
    /\ 0 <= spotAssetWeight (getWeights g i (Some healthType))
    /\ 0 <= spotLiabWeight (getWeights g i (Some healthType))
    /\ 0 <= perpAssetWeight (getWeights g i (Some healthType))
    /\ 0 <= perpLiabWeight (getWeights g i (Some healthType)).

Section Outcomes.

Context {rm : Rounding}.

(** What one iteration of the resolver does for market [i], read off a run
    of the iteration on an array of zeros: the value stored in slot [i] and
    the amount added to [quote]. *)
Definition probe (i : nat) : Components :=
  {| spot := replicate (S i) I80F48.ZERO;
     perps := replicate (S i) I80F48.ZERO;
     quote := I80F48.ZERO |}.

Definition spotValue (c : EntropyCache) (a : EntropyAccount) (i : nat)
    : I80F48.t :=
  match evalSpot c a i (probe i) with
  | Ok st => nthZ (spot st) i
  | Throw _ => I80F48.ZERO
  end.

Definition spotQuoteDelta (c : EntropyCache) (a : EntropyAccount) (i : nat)
    : I80F48.t :=
  match evalSpot c a i (probe i) with
  | Ok st => quote st
  | Throw _ => I80F48.ZERO
  end.

Definition perpValue (g : EntropyGroup) (c : EntropyCache)
    (a : EntropyAccount) (i : nat) : I80F48.t :=
  nthZ (perps (evalPerps g c a i (probe i))) i.

Definition perpQuoteDelta (g : EntropyGroup) (c : EntropyCache)
    (a : EntropyAccount) (i : nat) : I80F48.t :=
  quote (evalPerps g c a i (probe i)).

(** The resolver divides by the price of every market that is in the margin
    basket and has an open-orders account. *)
Definition resolverDefined (g : EntropyGroup) (c : EntropyCache)
    (a : EntropyAccount) : Prop :=
  forall i oo, (i < numOracles g)%nat -> inMarginBasket a i = true ->
    spotOpenOrdersAccounts a i = Some oo -> price (priceCache c i) <> 0.

(** The term market [i] adds to the health. *)
Definition marketHealth (g : EntropyGroup) (c : EntropyCache)
    (healthType : HealthType) (spot perps : list I80F48.t) (i : nat)
    : I80F48.t :=
  spotHealthOf (getWeights g i (Some healthType)) (price (priceCache c i))
    (nthZ spot i)
  + perpHealthOf (getWeights g i (Some healthType)) (price (priceCache c i))
      (nthZ perps i).

(** The terms market [i] adds to the weighted assets and liabilities. *)
Definition assetTerm (g : EntropyGroup) (c : EntropyCache)
    (healthType : option HealthType) (spot perps : list I80F48.t) (i : nat)
    : I80F48.t :=
  let w := getWeights g i healthType in
  let price := price (priceCache c i) in
  (if I80F48.isPos (nthZ spot i)
   then I80F48.mul (I80F48.mul (nthZ spot i) price) (spotAssetWeight w)
   else 0)
  + (if I80F48.isPos (nthZ perps i)
     then I80F48.mul (I80F48.mul (nthZ perps i) price) (perpAssetWeight w)
     else 0).

Definition liabTerm (g : EntropyGroup) (c : EntropyCache)
    (healthType : option HealthType) (spot perps : list I80F48.t) (i : nat)
    : I80F48.t :=
  let w := getWeights g i healthType in
  let price := price (priceCache c i) in
  (if I80F48.isPos (nthZ spot i) then 0
   else I80F48.mul (I80F48.mul (I80F48.neg (nthZ spot i)) price)
          (spotLiabWeight w))
  + (if I80F48.isPos (nthZ perps i) then 0
     else I80F48.mul (I80F48.mul (I80F48.neg (nthZ perps i)) price)
            (perpLiabWeight w)).

(** The exposure to the target market of [getLiquidationPrice], weighted
    with the Maint weights and negated. *)
Definition weightedExposure (g : EntropyGroup) (spot perps : list I80F48.t)
    (oracleIndex : nat) : I80F48.t :=
  let w := getWeights g oracleIndex (Some Maint) in
  let s := nthZ spot oracleIndex in
  let p := nthZ perps oracleIndex in
  I80F48.neg
    (I80F48.add
       (I80F48.mul s
          (if I80F48.isPos s then spotAssetWeight w else spotLiabWeight w))
       (I80F48.mul p
          (if I80F48.isPos p then perpAssetWeight w else perpLiabWeight w))).

Variable QUOTE_INDEX : nat.

(** The state of the resolver after [k] iterations. *)
Definition resolvedUpTo (g : EntropyGroup) (c : EntropyCache)
    (a : EntropyAccount) (k : nat) : Components :=
  {| spot := filled (spotValue c a) k (numOracles g);
     perps := filled (perpValue g c a) k (numOracles g);
     quote :=
       quote (initialComponents QUOTE_INDEX g c a)
       + sumTo (fun i => spotQuoteDelta c a i + perpQuoteDelta g c a i) k |}.

(** The components the resolver returns when it returns. *)
Definition resolved (g : EntropyGroup) (c : EntropyCache)
    (a : EntropyAccount) : Components :=
  resolvedUpTo g c a (numOracles g).

End Outcomes.

(** ** Example snapshots

    The quote currency has index 15 in the examples. *)

(** A statement that holds in either rounding direction. *)
Definition bothRoundings (P : Rounding -> Prop) : Prop :=
  P TowardZero /\ P TowardNegInf.

(** The fixed-point value closest to 0.9: [0.9 * 2^48] is
    253327479039590.4, so 0.9 itself is not representable. *)
Definition w09 : I80F48.t := 253327479039590.

Definition noPerpMarket : PerpMarketInfo :=
  {| perpMarket := zeroKey;
     perpMaintAssetWeight := I80F48.ONE; perpInitAssetWeight := I80F48.ONE;
     perpMaintLiabWeight := I80F48.ONE; perpInitLiabWeight := I80F48.ONE;
     baseLotSize := 1; quoteLotSize := 1 |}.

Definition unitBank : RootBankCache :=
  {| depositIndex := I80F48.ONE; borrowIndex := I80F48.ONE |}.

Definition noFunding : PerpMarketCache :=
  {| longFunding := I80F48.ZERO; shortFunding := I80F48.ZERO |}.

(** One spot market whose asset weights are [w], liab weights one, no perp
    market. *)
Definition singleMarket (w : I80F48.t) : EntropyGroup :=
  {| numOracles := 1;
     tokens := fun _ => {| decimals := 6 |};
     spotMarkets := fun _ =>
       {| spotMaintAssetWeight := w; spotInitAssetWeight := w;
          spotMaintLiabWeight := I80F48.ONE;
          spotInitLiabWeight := I80F48.ONE |};
     perpMarkets := fun _ => noPerpMarket |}.

Definition cacheWithPrice (p : I80F48.t) : EntropyCache :=
  {| rootBankCache := fun _ => unitBank;
     priceCache := fun _ => {| price := p |};
     perpMarketCache := fun _ => noFunding |}.

Definition priceTenCache : EntropyCache :=
  cacheWithPrice (I80F48.fromNumber 10).

(** Quote deposit 1000; market 0 in the margin basket with 500 quote locked
    in resting bids. *)
Definition restingBidsAccount : EntropyAccount :=
  {| inMarginBasket := fun i => Nat.eqb i 0;
     deposits := fun i =>
       if Nat.eqb i 15 then I80F48.fromNumber 1000 else I80F48.ZERO;
     borrows := fun _ => I80F48.ZERO;
     spotOpenOrdersAccounts := fun i =>
       if Nat.eqb i 0 then
         Some {| quoteFree := I80F48.ZERO;
                 quoteLocked := I80F48.fromNumber 500;
                 baseFree := I80F48.ZERO; baseLocked := I80F48.ZERO |}
       else None;
     perpAccounts := fun _ => zeroPerpAccount;
     beingLiquidated := false |}.

(** The same market with an oracle price of zero. *)
Definition zeroPriceCache : EntropyCache := cacheWithPrice I80F48.ZERO.

(** An account with nothing in it and an empty open-orders account in the
    margin basket. *)
Definition zeroAccount : EntropyAccount :=
  {| inMarginBasket := fun i => Nat.eqb i 0;
     deposits := fun _ => I80F48.ZERO;
     borrows := fun _ => I80F48.ZERO;
     spotOpenOrdersAccounts := fun i =>
       if Nat.eqb i 0 then Some zeroOpenOrders else None;
     perpAccounts := fun _ => zeroPerpAccount;
     beingLiquidated := false |}.

(** A deposit of 10 of token 0 and nothing else; with price 2. *)
Definition priceTwoCache : EntropyCache := cacheWithPrice (I80F48.fromNumber 2).

Definition depositAccount : EntropyAccount :=
  {| inMarginBasket := fun _ => false;
     deposits := fun i =>
       if Nat.eqb i 0 then I80F48.fromNumber 10 else I80F48.ZERO;
     borrows := fun _ => I80F48.ZERO;
     spotOpenOrdersAccounts := fun _ => None;
     perpAccounts := fun _ => zeroPerpAccount;
     beingLiquidated := false |}.

(** One spot market with asset weights 0.75 and liab weights 1.25, at price
    0.25; the account has a quote deposit of 1000 and a borrow of token 0 of
    100 plus [extra] units of the last fractional bit. *)
Definition riskyMarket : EntropyGroup :=
  {| numOracles := 1;
     tokens := fun _ => {| decimals := 6 |};
     spotMarkets := fun _ =>
       {| spotMaintAssetWeight := 3 * 2 ^ 46; spotInitAssetWeight := 3 * 2 ^ 46;
          spotMaintLiabWeight := 5 * 2 ^ 46;
          spotInitLiabWeight := 5 * 2 ^ 46 |};
     perpMarkets := fun _ => noPerpMarket |}.

Definition quarterPriceCache : EntropyCache := cacheWithPrice (2 ^ 46).

Definition borrowAccount (extra : Z) : EntropyAccount :=
  {| inMarginBasket := fun _ => false;
     deposits := fun i =>
       if Nat.eqb i 15 then I80F48.fromNumber 1000 else I80F48.ZERO;
     borrows := fun i =>
       if Nat.eqb i 0 then I80F48.fromNumber 100 + extra else I80F48.ZERO;
     spotOpenOrdersAccounts := fun _ => None;
     perpAccounts := fun _ => zeroPerpAccount;
     beingLiquidated := false |}.

(** A deposit of 10 of token 0 at price 1 and a quote borrow of 5. *)
Definition unitPriceCache : EntropyCache := cacheWithPrice I80F48.ONE.

Definition leveragedAccount : EntropyAccount :=
  {| inMarginBasket := fun _ => false;
     deposits := fun i =>
       if Nat.eqb i 0 then I80F48.fromNumber 10 else I80F48.ZERO;
     borrows := fun i =>
       if Nat.eqb i 15 then I80F48.fromNumber 5 else I80F48.ZERO;
     spotOpenOrdersAccounts := fun _ => None;
     perpAccounts := fun _ => zeroPerpAccount;
     beingLiquidated := false |}.

(** Two markets: market 0 is a spot market with resting orders, market 1
    has a perp market with a short position and resting orders on both
    sides, and a borrow of token 1. *)
Definition demo_group : EntropyGroup :=
  {| numOracles := 2;
     tokens := fun i => {| decimals := if Nat.eqb i 15 then 6 else 9 |};
     spotMarkets := fun _ =>
       {| spotMaintAssetWeight := 7 * 2 ^ 45; spotInitAssetWeight := 3 * 2 ^ 46;
          spotMaintLiabWeight := 9 * 2 ^ 45;
          spotInitLiabWeight := 5 * 2 ^ 46 |};
     perpMarkets := fun i =>
       if Nat.eqb i 1 then
         {| perpMarket := 7;
            perpMaintAssetWeight := 7 * 2 ^ 45;
            perpInitAssetWeight := 3 * 2 ^ 46;
            perpMaintLiabWeight := 9 * 2 ^ 45;
            perpInitLiabWeight := 5 * 2 ^ 46;
            baseLotSize := 10; quoteLotSize := 100 |}
       else noPerpMarket |}.

Definition demo_cache : EntropyCache :=
  {| rootBankCache := fun _ => unitBank;
     priceCache := fun i =>
       {| price := if Nat.eqb i 0 then I80F48.fromNumber 10
                   else I80F48.fromNumber 4 |};
     perpMarketCache := fun _ => noFunding |}.

Definition demo_account : EntropyAccount :=
  {| inMarginBasket := fun i => Nat.eqb i 0;
     deposits := fun i =>
       if Nat.eqb i 15 then I80F48.fromNumber 1000 else I80F48.ZERO;
     borrows := fun i =>
       if Nat.eqb i 1 then I80F48.fromNumber 20 else I80F48.ZERO;
     spotOpenOrdersAccounts := fun i =>
       if Nat.eqb i 0 then
         Some {| quoteFree := I80F48.fromNumber 30;
                 quoteLocked := I80F48.fromNumber 500;
                 baseFree := I80F48.fromNumber 2;
                 baseLocked := I80F48.fromNumber 5 |}
       else None;
     perpAccounts := fun i =>
       if Nat.eqb i 1 then
         {| basePosition := -3; takerBase := 1; takerQuote := 2;
            bidsQuantity := 2; asksQuantity := 1;
            fundingAdjustedQuotePosition := I80F48.fromNumber 50 |}
       else zeroPerpAccount;
     beingLiquidated := true |}.

(** One spot market with asset weights 0.5 and liab weights 1.25 at price
    1 ([unitPriceCache]); the account has 100 quote locked in resting bids
    and borrows [borrowed] of token 0. *)
Definition asymmetricMarket : EntropyGroup :=
  {| numOracles := 1;
     tokens := fun _ => {| decimals := 6 |};
     spotMarkets := fun _ =>
       {| spotMaintAssetWeight := 2 ^ 47; spotInitAssetWeight := 2 ^ 47;
          spotMaintLiabWeight := 5 * 2 ^ 46;
          spotInitLiabWeight := 5 * 2 ^ 46 |};
     perpMarkets := fun _ => noPerpMarket |}.

Definition bidsAndBorrowAccount (borrowed : Z) : EntropyAccount :=
  {| inMarginBasket := fun i => Nat.eqb i 0;
     deposits := fun _ => I80F48.ZERO;
     borrows := fun i =>
       if Nat.eqb i 0 then I80F48.fromNumber borrowed else I80F48.ZERO;
     spotOpenOrdersAccounts := fun i =>
       if Nat.eqb i 0 then
         Some {| quoteFree := I80F48.ZERO;
                 quoteLocked := I80F48.fromNumber 100;
                 baseFree := I80F48.ZERO; baseLocked := I80F48.ZERO |}
       else None;
     perpAccounts := fun _ => zeroPerpAccount;
     beingLiquidated := false |}.

(** * Further methods of EntropyAccount *)

(** ** The account name *)

(** A JavaScript string, as its sequence of UTF-16 code units. *)
Definition JSString : Type := list N.

(** [String.fromCharCode(...codes)]: every number is taken modulo 2^16. *)
Definition fromCharCode (codes : list N) : JSString :=
  (fun n => (n mod 65536)%N) <$> codes.

(** [s.replace(new RegExp(String.fromCharCode(0), 'g'), '')]: every NUL
    code unit is removed. *)
Definition removeNul (s : JSString) : JSString :=
  filter (fun u => u <> 0%N) s.

(** The getter [name]; [info] is [None] when the field is not set. *)
Definition name (info : option (list N)) : JSString :=
  match info with
  | Some codes => removeNul (fromCharCode codes)
  | None => []
  end.

(** ** Margin basket and open orders *)

(** [hasAnySpotOrders], on the array [inMarginBasket]. *)
Definition hasAnySpotOrders (inMarginBasket : list bool) : bool :=
  existsb (fun b => b) inMarginBasket.

(** [getOpenOrdersKeysInBasket]: the open orders keys in the basket, the
    keys not in the basket replaced with the zero key. *)
Definition getOpenOrdersKeysInBasket (a : EntropyAccount)
    (spotOpenOrders : list PublicKey) : list PublicKey :=
  imap (fun i pk => if inMarginBasket a i then pk else zeroKey) spotOpenOrders.

(** The second half of [loadOpenOrders], after the accounts were fetched.
    [accounts] is what [getMultipleAccounts] returned, each entry a public
    key with its account data; [fromAccountInfo] is the decoder of the
    serum library, which may throw. *)
Definition assignOpenOrders {Info : Type}
    (fromAccountInfo : PublicKey -> Info -> result OpenOrders)
    (accounts : list (PublicKey * Info)) (openOrderPk : PublicKey)
    : result (option OpenOrders) :=
  if equals openOrderPk zeroKey then Ok None
  else
    match List.find (fun acc => equals (fst acc) openOrderPk) accounts with
    | Some account =>
        do oo <- fromAccountInfo openOrderPk (snd account); Ok (Some oo)
    | None => Ok None
    end.

(** [array.map(f)] for an [f] that may throw. *)
Fixpoint mapResult {A B : Type} (f : A -> result B) (l : list A)
    : result (list B) :=
  match l with
  | [] => Ok []
  | x :: rest =>
      do y <- f x; do ys <- mapResult f rest; Ok (y :: ys)
  end.

Definition loadOpenOrders {Info : Type}
    (fromAccountInfo : PublicKey -> Info -> result OpenOrders)
    (accounts : list (PublicKey * Info)) (spotOpenOrders : list PublicKey)
    : result (list (option OpenOrders)) :=
  mapResult (assignOpenOrders fromAccountInfo accounts) spotOpenOrders.

(** ** Perp open orders *)

Record PerpOpenOrder (Side : Type) : Type := {
  orderMarketIndex : option N;
  orderPrice : Z;
  orderSideOf : option Side
}.

Arguments orderMarketIndex {Side} _.
Arguments orderPrice {Side} _.
Arguments orderSideOf {Side} _.

(** [getPerpOpenOrders]. The loop runs over [orders]; [orderMarket[i]] and
    [orderSide[i]] are [undefined] ([None]) outside their arrays, and
    [undefined] is not the free slot marker. [FREE_ORDER_SLOT] of
    [./layout] and [getPriceFromKey] are not part of the sources and are
    arguments. *)
Definition getPerpOpenOrders {Side : Type} (FREE_ORDER_SLOT : N)
    (getPriceFromKey : Z -> Z) (orders : list Z) (orderMarket : list N)
    (orderSide : list Side) : list (PerpOpenOrder Side) :=
  omap
    (fun i =>
       if decide (orderMarket !! i = Some FREE_ORDER_SLOT) then None
       else
         Some {| orderMarketIndex := orderMarket !! i;
                 orderPrice := getPriceFromKey (default 0 (orders !! i));
                 orderSideOf := orderSide !! i |})
    (seq 0 (length orders)).

Section EngineExtra.

Context {rm : Rounding}.
Variable QUOTE_INDEX : nat.

(** ** Native balances *)

Definition getNativeBorrow (a : EntropyAccount) (rootBank : RootBankCache)
    (tokenIndex : nat) : I80F48.t :=
  I80F48.mul (borrowIndex rootBank) (borrows a tokenIndex).

(** ** getHealthFromComponentsUnweighted, getHealthUnweighted *)

Definition unweightedBody (c : EntropyCache) (spot perps : list I80F48.t)
    (i : nat) (health : I80F48.t) : result I80F48.t :=
  let price := price (priceCache c i) in
  do s <- getIdx spot i;
  let spotHealth := I80F48.mul s price in
  do p <- getIdx perps i;
  let perpHealth := I80F48.mul p price in
  Ok (I80F48.add (I80F48.add health spotHealth) perpHealth).

Definition getHealthFromComponentsUnweighted (g : EntropyGroup)
    (c : EntropyCache) (spot perps : list I80F48.t) (quote : I80F48.t)
    : result I80F48.t :=
  forRange (numOracles g) (unweightedBody c spot perps) quote.

Definition getHealthUnweighted (g : EntropyGroup) (c : EntropyCache)
    (a : EntropyAccount) : result I80F48.t :=
  do r <- getHealthComponents QUOTE_INDEX g c a;
  getHealthFromComponentsUnweighted g c (spot r) (perps r) (quote r).

(** ** getLeverage

    [getAssetsVal] and [getLiabsVal] go through JavaScript numbers and are
    not modelled; the values they return are arguments. *)
Definition getLeverage (assetsVal liabsVal : I80F48.t) : result I80F48.t :=
  let liabs := liabsVal in
  let assets := assetsVal in
  if I80F48.gt assets I80F48.ZERO then
    I80F48.div liabs (I80F48.sub assets liabs)
  else Ok I80F48.ZERO.

End EngineExtra.

(** ** I80F48 objects and their identity

    [iadd] and [imul] update the receiver in place, so it matters which
    variables hold the same object. A reference is an index into a store of
    objects; the methods that return a new object ([add], [mul], ...) leave
    the store as it is, and their results are used as values. *)

Module Objects.

Abbreviation ref := nat (only parsing).
Abbreviation store := (list I80F48.t) (only parsing).

(** Modelled from the spec: [this.iadd(x)] adds [x] to the receiver in
    place and returns the receiver. *)
Definition iadd (this : ref) (x : I80F48.t) (st : store) : result store :=
  do v <- getIdx st this; Ok (<[this := I80F48.add v x]> st).

(** The value of the object [arr[i]]. *)
Definition readAt (arr : list ref) (i : nat) (st : store) : result I80F48.t :=
  do r <- getIdx arr i; getIdx st r.

Section Aggregators.

Context {rm : Rounding}.

(** *** getHealthFromComponents: [health] is [quote], not a copy *)
Definition healthBody (g : EntropyGroup) (c : EntropyCache)
    (spot perps : list ref) (healthType : HealthType) (health : ref)
    (i : nat) (st : store) : result store :=
  let w := getWeights g i (Some healthType) in
  let price := price (priceCache c i) in
  do s <- readAt spot i st;
  let spotHealth := spotHealthOf w price s in
  do p <- readAt perps i st;
  let perpHealth := perpHealthOf w price p in
  do st1 <- iadd health spotHealth st;
  iadd health perpHealth st1.

Definition getHealthFromComponents (g : EntropyGroup) (c : EntropyCache)
    (spot perps : list ref) (quote : ref) (healthType : HealthType)
    (st : store) : result (ref * store) :=
  let health := quote in
  do st' <- forRange (numOracles g)
              (healthBody g c spot perps healthType health) st;
  Ok (health, st').

(** *** getHealthsFromComponents: [spotHealth] and [perpHealth] are both
    [quote] *)
Definition healthsBody (g : EntropyGroup) (c : EntropyCache)
    (spot perps : list ref) (healthType : HealthType)
    (spotHealth perpHealth : ref) (i : nat) (st : store) : result store :=
  let w := getWeights g i (Some healthType) in
  let price := price (priceCache c i) in
  do s <- readAt spot i st;
  let _spotHealth := spotHealthOf w price s in
  do p <- readAt perps i st;
  let _perpHealth := perpHealthOf w price p in
  do st1 <- iadd spotHealth _spotHealth st;
  iadd perpHealth _perpHealth st1.

Definition getHealthsFromComponents (g : EntropyGroup) (c : EntropyCache)
    (spot perps : list ref) (quote : ref) (healthType : HealthType)
    (st : store) : result (ref * ref * store) :=
  let spotHealth := quote in
  let perpHealth := quote in
  do st' <- forRange (numOracles g)
              (healthsBody g c spot perps healthType spotHealth perpHealth)
              st;
  Ok (spotHealth, perpHealth, st').

End Aggregators.

End Objects.

(** ** Notions used in the further statements *)

(** The array [arr] seen as a map from the index, [undefined] entries
    reading as [d]. *)
Definition arrayView {A : Type} (d : A) (arr : list A) (i : nat) : A :=
  default d (arr !! i).

(** The cache with the price of market [o] replaced by [p]. *)
Definition withPrice (c : EntropyCache) (o : nat) (p : I80F48.t)
    : EntropyCache :=
  {| rootBankCache := rootBankCache c;
     priceCache := fun i =>
       if Nat.eqb i o then {| price := p |} else priceCache c i;
     perpMarketCache := perpMarketCache c |}.

(** The group with every risk weight equal to one. *)
Definition withUnitWeights (g : EntropyGroup) : EntropyGroup :=
  {| numOracles := numOracles g;
     tokens := tokens g;
     spotMarkets := fun _ =>
       {| spotMaintAssetWeight := I80F48.ONE;
          spotInitAssetWeight := I80F48.ONE;
          spotMaintLiabWeight := I80F48.ONE;
          spotInitLiabWeight := I80F48.ONE |};
     perpMarkets := fun i =>
       {| perpMarket := perpMarket (perpMarkets g i);
          perpMaintAssetWeight := I80F48.ONE;
          perpInitAssetWeight := I80F48.ONE;
          perpMaintLiabWeight := I80F48.ONE;
          perpInitLiabWeight := I80F48.ONE;
          baseLotSize := baseLotSize (perpMarkets g i);
          quoteLotSize := quoteLotSize (perpMarkets g i) |} |}.

(** The values of the objects an array of references points to. *)
Definition valuesOf (st : Objects.store) (refs : list Objects.ref)
    : list I80F48.t :=
  (fun r => nthZ st r) <$> refs.

(** The references of an array are live objects, none of them [quote]. *)
Definition apartFrom (st : Objects.store) (quote : Objects.ref)
    (refs : list Objects.ref) : Prop :=
  Forall (fun r => (r < length st)%nat /\ r <> quote) refs.

(** The liab weights of a health type are not negative. *)
Definition liabWeightsNonneg (g : EntropyGroup) (healthType : HealthType)
    : Prop :=
  forall i, (i < numOracles g)%nat ->
    0 <= spotLiabWeight (getWeights g i (Some healthType))
    /\ 0 <= perpLiabWeight (getWeights g i (Some healthType)).

(** No price is negative and the Init weights are at least as conservative
    as the Maint weights: smaller for assets, larger for liabilities. *)
Definition conservativeInit (g : EntropyGroup) (c : EntropyCache) : Prop :=
  forall i, (i < numOracles g)%nat ->
    0 <= price (priceCache c i)
    /\ spotInitAssetWeight (spotMarkets g i)
       <= spotMaintAssetWeight (spotMarkets g i)
    /\ spotMaintLiabWeight (spotMarkets g i)
       <= spotInitLiabWeight (spotMarkets g i)
    /\ perpInitAssetWeight (perpMarkets g i)
       <= perpMaintAssetWeight (perpMarkets g i)
    /\ perpMaintLiabWeight (perpMarkets g i)
       <= perpInitLiabWeight (perpMarkets g i).

(** No price is negative, and the weights of a health type discount the
    assets (at most one) and mark up the liabilities (at least one). *)
Definition haircutWeights (g : EntropyGroup) (c : EntropyCache)
    (healthType : HealthType) : Prop :=
  forall i, (i < numOracles g)%nat ->
    0 <= price (priceCache c i)
    /\ spotAssetWeight (getWeights g i (Some healthType)) <= I80F48.ONE
    /\ I80F48.ONE <= spotLiabWeight (getWeights g i (Some healthType))
    /\ perpAssetWeight (getWeights g i (Some healthType)) <= I80F48.ONE
    /\ I80F48.ONE <= perpLiabWeight (getWeights g i (Some healthType)).

(** ** Further example snapshots *)

(** The account of [borrowAccount] with a borrow of 10100 of token 0: under
    water in [riskyMarket] at price 0.25. *)
Definition underwaterAccount : EntropyAccount :=
  borrowAccount (I80F48.fromNumber 10000).

(** Three objects: the spot value 10, the perp value 0 and a quote balance
    of 1000. *)
Definition demo_store : Objects.store :=
  [I80F48.fromNumber 10; I80F48.ZERO; I80F48.fromNumber 1000].

(** The code units of the name "Main". *)
Definition mainName : JSString := [77; 97; 105; 110]%N.

(** A decoder that reads the open-orders snapshot as it is. *)
Definition plainDecoder (pk : PublicKey) (info : OpenOrders)
    : result OpenOrders :=
  Ok info.
(** * Proofs *)

(** ** Loops *)

Lemma bind_Ok_inv {A B : Type} (m : result A) (k : A -> result B) (b : B) :
  bind m k = Ok b -> exists a, m = Ok a /\ k a = Ok b.
Proof.
  destruct m as [a|e]; simpl; intros H; [eauto | discriminate].
Qed.

Lemma forEach_app {S : Type} (body : nat -> S -> result S) (l1 l2 : list nat)
    (s : S) :
  forEach body (l1 ++ l2) s = do s' <- forEach body l1 s; forEach body l2 s'.
Proof.
  revert s; induction l1 as [|i l1 IH]; intros s; simpl; [reflexivity|].
  destruct (body i s) as [s'|e]; simpl; [apply IH | reflexivity].
Qed.

Lemma forRange_S {S : Type} (n : nat) (body : nat -> S -> result S) (s : S) :
  forRange (Datatypes.S n) body s = do s' <- forRange n body s; body n s'.
Proof.
  unfold forRange. rewrite seq_S, forEach_app. simpl.
  destruct (forEach body (seq 0 n) s) as [s'|e]; simpl; [|reflexivity].
  destruct (body n s'); reflexivity.
Qed.

(** A loop whose body preserves an invariant indexed by the iteration
    count, and returns whenever the invariant holds, returns. *)
Lemma forRange_invariant {S : Type} (Inv : nat -> S -> Prop) (n : nat)
    (body : nat -> S -> result S) (s0 : S) :
  Inv O s0 ->
  (forall i s, (i < n)%nat -> Inv i s ->
     exists s', body i s = Ok s' /\ Inv (Datatypes.S i) s') ->
  forall k, (k <= n)%nat -> exists s, forRange k body s0 = Ok s /\ Inv k s.
Proof.
  intros H0 Hstep k. induction k as [|k IH]; intros Hk.
  - exists s0. split; [reflexivity | exact H0].
  - destruct IH as (s & Hs & HI); [lia|].
    destruct (Hstep k s) as (s' & Hb & HI'); [lia | exact HI |].
    exists s'. split; [|exact HI'].
    rewrite forRange_S, Hs. simpl. exact Hb.
Qed.

Lemma sumTo_ext (f h : nat -> Z) (n : nat) :
  (forall i, (i < n)%nat -> f i = h i) -> sumTo f n = sumTo h n.
Proof.
  induction n as [|n IH]; simpl; intros H; [reflexivity|].
  rewrite IH, (H n); [reflexivity | lia | intros; apply H; lia].
Qed.

Lemma sumTo_le (f h : nat -> Z) (n : nat) :
  (forall i, (i < n)%nat -> f i <= h i) -> sumTo f n <= sumTo h n.
Proof.
  induction n as [|n IH]; simpl; intros H; [lia|].
  specialize (H n ltac:(lia)) as Hn.
  assert (sumTo f n <= sumTo h n) by (apply IH; intros; apply H; lia). lia.
Qed.

Lemma sumTo_lt (f h : nat -> Z) (n j : nat) :
  (forall i, (i < n)%nat -> f i <= h i) -> (j < n)%nat -> f j < h j ->
  sumTo f n < sumTo h n.
Proof.
  induction n as [|n IH]; simpl; intros H Hj Hlt; [lia|].
  assert (Hle : sumTo f n <= sumTo h n)
    by (apply sumTo_le; intros; apply H; lia).
  specialize (H n ltac:(lia)) as Hn.
  destruct (decide (j = n)) as [->|Hne]; [lia|].
  assert (sumTo f n < sumTo h n) by (apply IH; [intros; apply H|..]; lia).
  lia.
Qed.

Lemma sumTo_nonneg (f : nat -> Z) (n : nat) :
  (forall i, (i < n)%nat -> 0 <= f i) -> 0 <= sumTo f n.
Proof.
  induction n as [|n IH]; simpl; intros H; [lia|].
  specialize (H n ltac:(lia)) as Hn.
  assert (0 <= sumTo f n) by (apply IH; intros; apply H; lia). lia.
Qed.

Lemma filled_0 (f : nat -> I80F48.t) (n : nat) :
  filled f 0 n = replicate n I80F48.ZERO.
Proof. unfold filled. simpl. rewrite Nat.sub_0_r. reflexivity. Qed.

Lemma filled_insert (f : nat -> I80F48.t) (k n : nat) :
  (k < n)%nat -> <[k := f k]> (filled f k n) = filled f (S k) n.
Proof.
  intros Hk. unfold filled.
  replace (n - k)%nat with (S (n - S k)) by lia.
  rewrite seq_S, fmap_app. simpl.
  rewrite insert_app_r_alt; rewrite length_fmap, length_seq; [|lia].
  rewrite Nat.sub_diag. simpl. rewrite <- app_assoc. reflexivity.
Qed.

Lemma filled_length (f : nat -> I80F48.t) (k n : nat) :
  (k <= n)%nat -> length (filled f k n) = n.
Proof.
  intros Hk. unfold filled.
  rewrite length_app, length_fmap, length_seq, length_replicate. lia.
Qed.

Lemma filled_full_lookup (f : nat -> I80F48.t) (n i : nat) :
  (i < n)%nat -> filled f n n !! i = Some (f i).
Proof.
  intros Hi. unfold filled. rewrite Nat.sub_diag. simpl. rewrite app_nil_r.
  rewrite list_lookup_fmap, lookup_seq_lt by lia. reflexivity.
Qed.

(** ** Fixed-point arithmetic *)

Lemma MULTIPLIER_pos : 0 < I80F48.MULTIPLIER.
Proof. reflexivity. Qed.

Section FixedPoint.

Context {rm : Rounding}.

Lemma rdiv_mul_exact (x c : Z) : c <> 0 -> I80F48.rdiv (x * c) c = x.
Proof.
  intros Hc. unfold I80F48.rdiv. destruct rm.
  - apply Z.quot_mul; exact Hc.
  - apply Z.div_mul; exact Hc.
Qed.

Lemma rdiv_le_mono (x y c : Z) :
  0 < c -> x <= y -> I80F48.rdiv x c <= I80F48.rdiv y c.
Proof.
  intros Hc Hxy. unfold I80F48.rdiv. destruct rm.
  - apply Z.quot_le_mono; assumption.
  - apply Z.div_le_mono; assumption.
Qed.

Lemma rdiv_nonneg (x c : Z) : 0 < c -> 0 <= x -> 0 <= I80F48.rdiv x c.
Proof.
  intros Hc Hx. unfold I80F48.rdiv. destruct rm.
  - apply Z.quot_pos; lia.
  - apply Z.div_pos; lia.
Qed.

Lemma rdiv_nonpos (x c : Z) : 0 < c -> x <= 0 -> I80F48.rdiv x c <= 0.
Proof.
  intros Hc Hx.
  assert (H0 : I80F48.rdiv 0 c = 0)
    by (unfold I80F48.rdiv; destruct rm;
        [apply Z.quot_0_l | apply Z.div_0_l]; lia).
  rewrite <- H0. apply rdiv_le_mono; assumption.
Qed.

(** Below zero, lowering the dividend by the divisor lowers the quotient by
    one, whatever the rounding direction. *)
Lemma rdiv_sub_divisor (x c : Z) :
  0 < c -> x <= 0 -> I80F48.rdiv (x - c) c = I80F48.rdiv x c - 1.
Proof.
  intros Hc Hx. unfold I80F48.rdiv.
  replace (x - c) with (x + (-1) * c) by lia.
  destruct rm.
  - rewrite Z.quot_add; [lia | nia | lia].
  - rewrite Z.div_add; lia.
Qed.

Lemma mul_fromI64_l (x b : Z) : I80F48.mul (I80F48.fromI64 x) b = x * b.
Proof.
  unfold I80F48.mul, I80F48.fromI64.
  replace (x * I80F48.MULTIPLIER * b) with (x * b * I80F48.MULTIPLIER) by lia.
  apply rdiv_mul_exact. pose proof MULTIPLIER_pos. lia.
Qed.

Lemma mul_fromNumber_r (a k : Z) : I80F48.mul a (I80F48.fromNumber k) = a * k.
Proof.
  unfold I80F48.mul, I80F48.fromNumber.
  replace (a * (k * I80F48.MULTIPLIER)) with (a * k * I80F48.MULTIPLIER) by lia.
  apply rdiv_mul_exact. pose proof MULTIPLIER_pos. lia.
Qed.

Lemma mul_nonneg (a b : I80F48.t) : 0 <= a -> 0 <= b -> 0 <= I80F48.mul a b.
Proof.
  intros Ha Hb. unfold I80F48.mul.
  apply rdiv_nonneg; [apply MULTIPLIER_pos | nia].
Qed.

Lemma mul_nonpos (a b : I80F48.t) : a <= 0 -> 0 <= b -> I80F48.mul a b <= 0.
Proof.
  intros Ha Hb. unfold I80F48.mul.
  apply rdiv_nonpos; [apply MULTIPLIER_pos | nia].
Qed.

Lemma mul_le_mono_l (a a' b : I80F48.t) :
  a' <= a -> 0 <= b -> I80F48.mul a' b <= I80F48.mul a b.
Proof.
  intros Ha Hb. unfold I80F48.mul.
  apply rdiv_le_mono; [apply MULTIPLIER_pos | nia].
Qed.

(** A factor of at least one keeps distinct non-positive values distinct. *)
Lemma mul_lt_mono_nonpos (a a' b : I80F48.t) :
  a' < a -> a <= 0 -> I80F48.ONE <= b -> I80F48.mul a' b < I80F48.mul a b.
Proof.
  intros Ha Ha0 Hb. unfold I80F48.mul, I80F48.ONE in *.
  pose proof MULTIPLIER_pos as HM.
  assert (H1 : I80F48.rdiv (a' * b) I80F48.MULTIPLIER
               <= I80F48.rdiv (a * b - I80F48.MULTIPLIER) I80F48.MULTIPLIER)
    by (apply rdiv_le_mono; [exact HM | nia]).
  rewrite rdiv_sub_divisor in H1; [lia | exact HM | nia].
Qed.

Lemma div_Ok (a b : I80F48.t) :
  b <> 0 -> I80F48.div a b = Ok (I80F48.rdiv (a * I80F48.MULTIPLIER) b).
Proof.
  intros Hb. unfold I80F48.div.
  destruct (Z.eqb_spec b 0) as [->|_]; [contradiction | reflexivity].
Qed.

End FixedPoint.

(** ** The resolver *)

Lemma nthZ_insert (l : list I80F48.t) (i : nat) (v : I80F48.t) :
  (i < length l)%nat -> nthZ (<[i := v]> l) i = v.
Proof.
  intros Hi. unfold nthZ. rewrite list_lookup_insert_eq by exact Hi.
  reflexivity.
Qed.

Lemma nthZ_filled (f : nat -> I80F48.t) (n i : nat) :
  (i < n)%nat -> nthZ (filled f n n) i = f i.
Proof.
  intros Hi. unfold nthZ. rewrite filled_full_lookup by exact Hi. reflexivity.
Qed.

Section Resolver.

Context {rm : Rounding}.
Variable QUOTE_INDEX : nat.

(** The spot part of an iteration stores one value in slot [i] and adds one
    amount to [quote]; neither depends on the state. *)
Lemma evalSpot_frame (c : EntropyCache) (a : EntropyAccount) (i : nat)
    (st : Components) :
  (forall oo, inMarginBasket a i = true ->
     spotOpenOrdersAccounts a i = Some oo -> price (priceCache c i) <> 0) ->
  evalSpot c a i st =
    Ok {| spot := <[i := spotValue c a i]> (spot st);
          perps := perps st;
          quote := I80F48.add (quote st) (spotQuoteDelta c a i) |}.
Proof.
  intros Hp. unfold spotValue, spotQuoteDelta, evalSpot, probe.
  assert (Hlen : (i < length (replicate (S i) I80F48.ZERO))%nat)
    by (rewrite length_replicate; lia).
  destruct (inMarginBasket a i); cbn [bind spot perps quote].
  - destruct (spotOpenOrdersAccounts a i) as [oo|];
      cbn [bind spot perps quote splitOpenOrders].
    + rewrite div_Ok by (apply (Hp oo); reflexivity).
      cbn [bind spot perps quote].
      match goal with |- context [I80F48.gt ?x ?y] =>
        destruct (I80F48.gt x y) end; cbn [bind spot perps quote];
        rewrite nthZ_insert by exact Hlen;
        unfold I80F48.add, I80F48.ZERO; do 2 f_equal; lia.
    + rewrite nthZ_insert by exact Hlen.
      unfold I80F48.add, I80F48.ZERO. do 2 f_equal. lia.
  - rewrite nthZ_insert by exact Hlen.
    unfold I80F48.add, I80F48.ZERO. do 2 f_equal. lia.
Qed.

Lemma evalPerps_frame (g : EntropyGroup) (c : EntropyCache)
    (a : EntropyAccount) (i : nat) (st : Components) :
  evalPerps g c a i st =
    {| spot := spot st;
       perps := <[i := perpValue g c a i]> (perps st);
       quote := I80F48.add (quote st) (perpQuoteDelta g c a i) |}.
Proof.
  unfold perpValue, perpQuoteDelta, evalPerps, probe.
  assert (Hlen : (i < length (replicate (S i) I80F48.ZERO))%nat)
    by (rewrite length_replicate; lia).
  destruct (negb (equals (perpMarket (perpMarkets g i)) zeroKey));
    cbn [spot perps quote].
  - match goal with |- context [I80F48.gt ?x ?y] =>
      destruct (I80F48.gt x y) end; cbn [spot perps quote];
      rewrite nthZ_insert by exact Hlen;
      unfold I80F48.add, I80F48.sub, I80F48.ZERO; f_equal; lia.
  - rewrite nthZ_insert by exact Hlen.
    unfold I80F48.add, I80F48.ZERO. f_equal. lia.
Qed.

Lemma resolver_prefix (g : EntropyGroup) (c : EntropyCache)
    (a : EntropyAccount) :
  resolverDefined g c a ->
  forall k, (k <= numOracles g)%nat ->
    forRange k (healthComponentsBody g c a)
      (initialComponents QUOTE_INDEX g c a)
    = Ok (resolvedUpTo QUOTE_INDEX g c a k).
Proof.
  intros Hdef k Hk.
  destruct (forRange_invariant
              (fun k st => st = resolvedUpTo QUOTE_INDEX g c a k)
              (numOracles g) (healthComponentsBody g c a)
              (initialComponents QUOTE_INDEX g c a)) with (k := k)
    as (st & Hst & ->); [| | exact Hk | exact Hst].
  - unfold resolvedUpTo, initialComponents. rewrite !filled_0.
    cbn [quote sumTo]. f_equal. lia.
  - intros i st Hi ->. eexists. split; [|reflexivity].
    unfold healthComponentsBody.
    rewrite evalSpot_frame by (intros oo; apply Hdef; exact Hi).
    cbn [bind]. rewrite evalPerps_frame. unfold resolvedUpTo.
    cbn [spot perps quote sumTo].
    rewrite !filled_insert by exact Hi. unfold I80F48.add.
    do 2 f_equal. lia.
Qed.

Lemma getHealthComponents_defined (g : EntropyGroup) (c : EntropyCache)
    (a : EntropyAccount) :
  resolverDefined g c a ->
  getHealthComponents QUOTE_INDEX g c a = Ok (resolved QUOTE_INDEX g c a).
Proof.
  intros Hdef. unfold getHealthComponents, resolved.
  apply resolver_prefix; [exact Hdef | lia].
Qed.

End Resolver.

(** ** The aggregators *)

Lemma getIdx_nthZ (l : list I80F48.t) (i : nat) :
  (i < length l)%nat -> getIdx l i = Ok (nthZ l i).
Proof.
  intros Hi. unfold getIdx, nthZ.
  destruct (lookup_lt_is_Some_2 l i Hi) as [x ->]. reflexivity.
Qed.

Section Aggregators.

Context {rm : Rounding}.

Lemma getHealthFromComponents_closed (g : EntropyGroup) (c : EntropyCache)
    (spot perps : list I80F48.t) (quote : I80F48.t) (ht : HealthType) :
  length spot = numOracles g -> length perps = numOracles g ->
  getHealthFromComponents g c spot perps quote ht
  = Ok (quote + sumTo (marketHealth g c ht spot perps) (numOracles g)).
Proof.
  intros Hs Hp. unfold getHealthFromComponents.
  destruct (forRange_invariant
              (fun k h => h = quote + sumTo (marketHealth g c ht spot perps) k)
              (numOracles g) (healthBody g c spot perps ht) quote)
    with (k := numOracles g) as (h & Hh & ->);
    [| | lia | exact Hh].
  - cbn [sumTo]. lia.
  - intros i h Hi ->. eexists. split; [|reflexivity].
    unfold healthBody.
    rewrite !getIdx_nthZ by lia. cbn [bind sumTo].
    unfold marketHealth, I80F48.add. f_equal. lia.
Qed.

Lemma getWeightedAssetsLiabsVals_closed (g : EntropyGroup)
    (c : EntropyCache) (spot perps : list I80F48.t) (quote : I80F48.t)
    (ht : option HealthType) :
  length spot = numOracles g -> length perps = numOracles g ->
  getWeightedAssetsLiabsVals g c spot perps quote ht
  = Ok {| assets :=
            (if I80F48.isPos quote then quote else 0)
            + sumTo (assetTerm g c ht spot perps) (numOracles g);
          liabs :=
            (if I80F48.isPos quote then 0 else - quote)
            + sumTo (liabTerm g c ht spot perps) (numOracles g) |}.
Proof.
  intros Hs Hp. unfold getWeightedAssetsLiabsVals.
  destruct (forRange_invariant
              (fun k al =>
                 al = {| assets :=
                           (if I80F48.isPos quote then quote else 0)
                           + sumTo (assetTerm g c ht spot perps) k;
                         liabs :=
                           (if I80F48.isPos quote then 0 else - quote)
                           + sumTo (liabTerm g c ht spot perps) k |})
              (numOracles g) (weightedAssetsLiabsBody g c spot perps ht)
              (if I80F48.isPos quote
               then {| assets := I80F48.add I80F48.ZERO quote;
                       liabs := I80F48.ZERO |}
               else {| assets := I80F48.ZERO;
                       liabs := I80F48.add I80F48.ZERO (I80F48.neg quote) |}))
    with (k := numOracles g) as (al & Hal & ->);
    [| | lia | exact Hal].
  - cbn [sumTo]. unfold I80F48.add, I80F48.ZERO, I80F48.neg.
    destruct (I80F48.isPos quote); f_equal; lia.
  - intros i al Hi ->. eexists. split; [|reflexivity].
    unfold weightedAssetsLiabsBody.
    rewrite !getIdx_nthZ by lia. cbn [bind sumTo].
    unfold assetTerm, liabTerm, I80F48.add.
    destruct (I80F48.isPos (nthZ spot i)), (I80F48.isPos (nthZ perps i));
      cbn [assets liabs]; do 2 f_equal; lia.
Qed.

Lemma liquidationTerms_closed (g : EntropyGroup) (c : EntropyCache)
    (r : Components) (oracleIndex : nat) :
  length (spot r) = numOracles g -> length (perps r) = numOracles g ->
  liquidationTerms g c r oracleIndex
  = Ok {| partialHealth :=
            quote r
            + sumTo (fun i => if Nat.eqb i oracleIndex then 0
                              else marketHealth g c Maint (spot r) (perps r) i)
                (numOracles g);
          weightedAsset :=
            if Nat.ltb oracleIndex (numOracles g)
            then weightedExposure g (spot r) (perps r) oracleIndex
            else I80F48.ZERO |}.
Proof.
  intros Hs Hp. unfold liquidationTerms.
  destruct (forRange_invariant
              (fun k lt =>
                 lt = {| partialHealth :=
                           quote r
                           + sumTo (fun i => if Nat.eqb i oracleIndex then 0
                                             else marketHealth g c Maint
                                                    (spot r) (perps r) i) k;
                         weightedAsset :=
                           if Nat.ltb oracleIndex k
                           then weightedExposure g (spot r) (perps r)
                                  oracleIndex
                           else I80F48.ZERO |})
              (numOracles g)
              (liquidationBody g c (spot r) (perps r) oracleIndex)
              {| partialHealth := quote r; weightedAsset := I80F48.ZERO |})
    with (k := numOracles g) as (lt & Hlt & ->);
    [| | lia | exact Hlt].
  - cbn [sumTo]. f_equal. lia.
  - intros i lt Hi ->. eexists. split; [|reflexivity].
    unfold liquidationBody.
    rewrite !getIdx_nthZ by lia. cbn [bind sumTo partialHealth weightedAsset].
    destruct (Nat.eqb_spec i oracleIndex) as [->|Hne].
    + replace (Nat.ltb oracleIndex (S oracleIndex)) with true
        by (symmetry; apply Nat.ltb_lt; lia).
      unfold weightedExposure. f_equal. f_equal. lia.
    + replace (Nat.ltb oracleIndex (S i)) with (Nat.ltb oracleIndex i).
      * unfold marketHealth, I80F48.add. f_equal. f_equal. lia.
      * destruct (Nat.ltb_spec oracleIndex i), (Nat.ltb_spec oracleIndex (S i));
          try reflexivity; lia.
Qed.

End Aggregators.

(** ** When the resolver returns *)

Lemma forRange_Ok_prefix {S : Type} (n : nat) (body : nat -> S -> result S)
    (s r : S) :
  forRange n body s = Ok r ->
  forall k, (k <= n)%nat -> exists st, forRange k body s = Ok st.
Proof.
  revert r. induction n as [|n IH]; intros r H k Hk.
  - replace k with O by lia. eauto.
  - destruct (decide (k = Datatypes.S n)) as [->|Hne]; [eauto|].
    rewrite forRange_S in H. apply bind_Ok_inv in H as (st & Hst & _).
    apply (IH st Hst). lia.
Qed.

Lemma abs_spec (x : I80F48.t) : I80F48.abs x = Z.abs x.
Proof.
  unfold I80F48.abs, I80F48.isNeg, I80F48.neg.
  destruct (Z.ltb_spec x 0); lia.
Qed.

Lemma gt_abs_spec (x y : I80F48.t) :
  I80F48.gt (I80F48.abs x) (I80F48.abs y) = true <-> Z.abs y < Z.abs x.
Proof. unfold I80F48.gt. rewrite !abs_spec. apply Z.ltb_lt. Qed.

Section ResolverCases.

Context {rm : Rounding}.
Variable QUOTE_INDEX : nat.

Lemma getHealthComponents_Ok_inv (g : EntropyGroup) (c : EntropyCache)
    (a : EntropyAccount) (r : Components) :
  getHealthComponents QUOTE_INDEX g c a = Ok r -> resolverDefined g c a.
Proof.
  intros H i oo Hi Hb Hoo Hprice. unfold getHealthComponents in H.
  destruct (forRange_Ok_prefix _ _ _ _ H (S i)) as (st' & Hst'); [lia|].
  rewrite forRange_S in Hst'. apply bind_Ok_inv in Hst' as (st & _ & Hbody).
  unfold healthComponentsBody in Hbody.
  apply bind_Ok_inv in Hbody as (st1 & Hspot & _).
  unfold evalSpot in Hspot. rewrite Hb, Hoo in Hspot.
  cbn [splitOpenOrders] in Hspot. unfold I80F48.div in Hspot.
  rewrite Hprice in Hspot. discriminate Hspot.
Qed.

(** The resolver returns exactly on the snapshots in which no division by a
    zero price is attempted, and then returns [resolved]. *)
Lemma getHealthComponents_iff (g : EntropyGroup) (c : EntropyCache)
    (a : EntropyAccount) (r : Components) :
  getHealthComponents QUOTE_INDEX g c a = Ok r <->
  resolverDefined g c a /\ r = resolved QUOTE_INDEX g c a.
Proof.
  split.
  - intros H. pose proof (getHealthComponents_Ok_inv _ _ _ _ H) as Hdef.
    split; [exact Hdef|].
    rewrite (getHealthComponents_defined QUOTE_INDEX g c a Hdef) in H.
    injection H as <-. reflexivity.
  - intros [Hdef ->]. apply getHealthComponents_defined. exact Hdef.
Qed.

Lemma resolved_lengths (g : EntropyGroup) (c : EntropyCache)
    (a : EntropyAccount) :
  length (spot (resolved QUOTE_INDEX g c a)) = numOracles g
  /\ length (perps (resolved QUOTE_INDEX g c a)) = numOracles g.
Proof.
  unfold resolved, resolvedUpTo. cbn [spot perps].
  rewrite !filled_length by lia. split; reflexivity.
Qed.

Lemma resolved_spot_lookup (g : EntropyGroup) (c : EntropyCache)
    (a : EntropyAccount) (i : nat) :
  (i < numOracles g)%nat ->
  spot (resolved QUOTE_INDEX g c a) !! i = Some (spotValue c a i).
Proof. intros Hi. apply filled_full_lookup. exact Hi. Qed.

Lemma resolved_perps_lookup (g : EntropyGroup) (c : EntropyCache)
    (a : EntropyAccount) (i : nat) :
  (i < numOracles g)%nat ->
  perps (resolved QUOTE_INDEX g c a) !! i = Some (perpValue g c a i).
Proof. intros Hi. apply filled_full_lookup. exact Hi. Qed.

(** The value and the quote amount of the spot part, case by case. *)
Lemma spot_outcome (c : EntropyCache) (a : EntropyAccount) (i : nat) :
  (forall oo, inMarginBasket a i = true ->
     spotOpenOrdersAccounts a i = Some oo -> price (priceCache c i) <> 0) ->
  let baseNet := getNet a (rootBankCache c i) i in
  let p := price (priceCache c i) in
  match spotOpenOrdersAccounts a i with
  | Some oo =>
      if inMarginBasket a i then
        exists locked, I80F48.div (quoteLocked oo) p = Ok locked /\
          let bidsCase := baseNet + locked + baseFree oo + baseLocked oo in
          let asksCase := baseNet + baseFree oo in
          (Z.abs asksCase < Z.abs bidsCase ->
             spotValue c a i = bidsCase /\ spotQuoteDelta c a i = quoteFree oo)
          /\ (Z.abs bidsCase <= Z.abs asksCase ->
                spotValue c a i = asksCase /\
                spotQuoteDelta c a i =
                  I80F48.mul (baseLocked oo) p + quoteFree oo + quoteLocked oo)
      else spotValue c a i = baseNet /\ spotQuoteDelta c a i = 0
  | None => spotValue c a i = baseNet /\ spotQuoteDelta c a i = 0
  end.
Proof.
  intros Hp baseNet p. unfold spotValue, spotQuoteDelta, evalSpot, probe.
  assert (Hlen : (i < length (replicate (S i) I80F48.ZERO))%nat)
    by (rewrite length_replicate; lia).
  destruct (spotOpenOrdersAccounts a i) as [oo|] eqn:Hoo.
  - destruct (inMarginBasket a i) eqn:Hb; cbn [bind spot perps quote].
    + cbn [splitOpenOrders].
      fold p.
      rewrite (div_Ok (quoteLocked oo) p) by (apply (Hp oo); reflexivity).
      eexists. split; [reflexivity|]. cbn [bind]. fold baseNet.
      unfold I80F48.add.
      match goal with |- context [I80F48.gt (I80F48.abs ?x) (I80F48.abs ?y)] =>
        pose proof (gt_abs_spec x y) as Hgt;
        destruct (I80F48.gt (I80F48.abs x) (I80F48.abs y)) end;
        cbn [spot quote]; rewrite nthZ_insert by exact Hlen;
        unfold I80F48.ZERO; split; intros Habs.
      * split; [reflexivity | lia].
      * assert (true = true) as Ht by reflexivity. apply Hgt in Ht. lia.
      * apply Hgt in Habs. discriminate Habs.
      * split; [reflexivity | lia].
    + rewrite nthZ_insert by exact Hlen. split; reflexivity.
  - destruct (inMarginBasket a i); cbn [spot quote];
      rewrite nthZ_insert by exact Hlen; split; reflexivity.
Qed.

(** The value and the quote amount of the perp part, case by case. *)
Lemma perp_outcome (g : EntropyGroup) (c : EntropyCache) (a : EntropyAccount)
    (i : nat) :
  let pa := perpAccounts a i in
  let p := price (priceCache c i) in
  let basePos :=
    I80F48.fromI64
      ((basePosition pa + takerBase pa) * baseLotSize (perpMarkets g i)) in
  let bids :=
    I80F48.fromI64 (bidsQuantity pa * baseLotSize (perpMarkets g i)) in
  let asks :=
    I80F48.fromI64 (asksQuantity pa * baseLotSize (perpMarkets g i)) in
  let taker :=
    I80F48.fromI64 (takerQuote pa * quoteLotSize (perpMarkets g i)) in
  let bidsBaseNet := basePos + bids in
  let asksBaseNet := basePos - asks in
  if equals (perpMarket (perpMarkets g i)) zeroKey then
    perpValue g c a i = 0 /\ perpQuoteDelta g c a i = 0
  else
    (Z.abs asksBaseNet < Z.abs bidsBaseNet ->
       perpValue g c a i = bidsBaseNet /\
       perpQuoteDelta g c a i =
         fundingAdjustedQuotePosition pa + taker - I80F48.mul bids p)
    /\ (Z.abs bidsBaseNet <= Z.abs asksBaseNet ->
          perpValue g c a i = asksBaseNet /\
          perpQuoteDelta g c a i =
            fundingAdjustedQuotePosition pa + taker + I80F48.mul asks p).
Proof.
  intros pa p basePos bids asks taker bidsBaseNet asksBaseNet.
  unfold perpValue, perpQuoteDelta, evalPerps, probe.
  assert (Hlen : (i < length (replicate (S i) I80F48.ZERO))%nat)
    by (rewrite length_replicate; lia).
  destruct (equals (perpMarket (perpMarkets g i)) zeroKey);
    cbn [negb spot perps quote].
  - rewrite nthZ_insert by exact Hlen. split; reflexivity.
  - fold pa p basePos bids asks taker.
    unfold I80F48.add, I80F48.sub, getQuotePosition.
    fold bidsBaseNet asksBaseNet.
    pose proof (gt_abs_spec bidsBaseNet asksBaseNet) as Hgt.
    destruct (I80F48.gt (I80F48.abs bidsBaseNet) (I80F48.abs asksBaseNet));
      cbn [perps quote]; rewrite nthZ_insert by exact Hlen;
      unfold I80F48.ZERO; split; intros Habs.
    + split; [reflexivity | lia].
    + assert (true = true) as Ht by reflexivity. apply Hgt in Ht. lia.
    + apply Hgt in Habs. discriminate Habs.
    + split; [reflexivity | lia].
Qed.

End ResolverCases.
(** ** Worst-case resolution of spot and perp exposure *)

Section ResolverTheorems.

Context {rm : Rounding}.
Variable QUOTE_INDEX : nat.

(** C1: on every snapshot on which it returns (no margin-basket market with
    an open-orders account has a zero price), the resolver
    [getHealthComponents] treats each market [i < numOracles] as follows.
    With an open-orders account and the margin-basket flag set, [spot[i]] is
    the larger in absolute value of
    [bidsCase = baseNet + quoteLocked/price + baseFree + baseLocked] and
    [asksCase = baseNet + baseFree] (the asks case on a tie); in the bids
    case [quote] is increased by [spotAdj i = quoteFree], in the asks case
    by [spotAdj i = baseLocked*price + quoteFree + quoteLocked]. Otherwise
    [spot[i] = baseNet] and there is no quote adjustment, [spotAdj i = 0].
    The [quote] that is returned is the net quote balance plus, for every
    market, this spot adjustment and the amount [perpQuoteDelta] that the
    perp part of the iteration adds (the subject of C2). *)
Theorem resolver_spot_worst_case (g : EntropyGroup) (c : EntropyCache)
    (a : EntropyAccount) :
  resolverDefined g c a ->
  exists (r : Components) (spotAdj : nat -> I80F48.t),
    getHealthComponents QUOTE_INDEX g c a = Ok r
    /\ quote r
       = getNet a (rootBankCache c QUOTE_INDEX) QUOTE_INDEX
         + sumTo (fun i => spotAdj i + perpQuoteDelta g c a i) (numOracles g)
    /\ forall i, (i < numOracles g)%nat ->
         let baseNet := getNet a (rootBankCache c i) i in
         let p := price (priceCache c i) in
         match spotOpenOrdersAccounts a i with
         | Some oo =>
             if inMarginBasket a i then
               exists locked, I80F48.div (quoteLocked oo) p = Ok locked /\
                 let bidsCase :=
                   baseNet + locked + baseFree oo + baseLocked oo in
                 let asksCase := baseNet + baseFree oo in
                 (Z.abs asksCase < Z.abs bidsCase ->
                    spot r !! i = Some bidsCase
                    /\ spotAdj i = quoteFree oo)
                 /\ (Z.abs bidsCase <= Z.abs asksCase ->
                       spot r !! i = Some asksCase
                       /\ spotAdj i
                          = I80F48.mul (baseLocked oo) p + quoteFree oo
                            + quoteLocked oo)
             else spot r !! i = Some baseNet /\ spotAdj i = 0
         | None => spot r !! i = Some baseNet /\ spotAdj i = 0
         end.
Proof.
  intros Hdef. exists (resolved QUOTE_INDEX g c a), (spotQuoteDelta c a).
  split; [apply getHealthComponents_defined; exact Hdef|].
  split; [reflexivity|].
  intros i Hi.
  assert (Hp : forall oo, inMarginBasket a i = true ->
            spotOpenOrdersAccounts a i = Some oo ->
            price (priceCache c i) <> 0)
    by (intros oo; apply Hdef; exact Hi).
  rewrite !resolved_spot_lookup by exact Hi.
  pose proof (spot_outcome c a i Hp) as Hout. cbv zeta in Hout |- *.
  destruct (spotOpenOrdersAccounts a i) as [oo|].
  - destruct (inMarginBasket a i).
    + destruct Hout as (locked & Hdiv & Hbids & Hasks).
      exists locked. split; [exact Hdiv|]. split; intros Habs.
      * destruct (Hbids Habs) as [Hv Hq]. rewrite Hv, Hq.
        split; reflexivity.
      * destruct (Hasks Habs) as [Hv Hq]. rewrite Hv, Hq.
        split; reflexivity.
    + destruct Hout as [Hv Hq]. rewrite Hv, Hq. split; reflexivity.
  - destruct Hout as [Hv Hq]. rewrite Hv, Hq. split; reflexivity.
Qed.

(** C2: on every snapshot on which the resolver returns, for each market
    [i < numOracles] with a registered perp market, with
    [bidsBaseNet = (basePosition+takerBase)*baseLotSize
                   + bidsQuantity*baseLotSize] and
    [asksBaseNet = (basePosition+takerBase)*baseLotSize
                   - asksQuantity*baseLotSize],
    [perps[i]] is the larger in absolute value of the two (the asks case on
    a tie), and [quote] is adjusted by
    [perpAdj i = fundingAdjustedQuotePosition + takerQuote*quoteLotSize
                 - bidsQuantity*baseLotSize*price] in the bids case and by
    [perpAdj i = fundingAdjustedQuotePosition + takerQuote*quoteLotSize
                 + asksQuantity*baseLotSize*price] in the asks case. Without
    a registered perp market [perps[i] = 0] and [perpAdj i = 0]. The [quote]
    that is returned is the net quote balance plus, for every market, the
    amount [spotQuoteDelta] that the spot part of the iteration adds (the
    subject of C1) and this perp adjustment. *)
Theorem resolver_perp_worst_case (g : EntropyGroup) (c : EntropyCache)
    (a : EntropyAccount) :
  resolverDefined g c a ->
  exists (r : Components) (perpAdj : nat -> I80F48.t),
    getHealthComponents QUOTE_INDEX g c a = Ok r
    /\ quote r
       = getNet a (rootBankCache c QUOTE_INDEX) QUOTE_INDEX
         + sumTo (fun i => spotQuoteDelta c a i + perpAdj i) (numOracles g)
    /\ forall i, (i < numOracles g)%nat ->
         let pa := perpAccounts a i in
         let p := price (priceCache c i) in
         let lot := baseLotSize (perpMarkets g i) in
         let basePos :=
           I80F48.fromI64 ((basePosition pa + takerBase pa) * lot) in
         let bids := I80F48.fromI64 (bidsQuantity pa * lot) in
         let asks := I80F48.fromI64 (asksQuantity pa * lot) in
         let taker :=
           I80F48.fromI64 (takerQuote pa * quoteLotSize (perpMarkets g i)) in
         let bidsBaseNet := basePos + bids in
         let asksBaseNet := basePos - asks in
         if equals (perpMarket (perpMarkets g i)) zeroKey then
           perps r !! i = Some 0 /\ perpAdj i = 0
         else
           (Z.abs asksBaseNet < Z.abs bidsBaseNet ->
              perps r !! i = Some bidsBaseNet
              /\ perpAdj i
                 = fundingAdjustedQuotePosition pa + taker
                   - bidsQuantity pa * lot * p)
           /\ (Z.abs bidsBaseNet <= Z.abs asksBaseNet ->
                 perps r !! i = Some asksBaseNet
                 /\ perpAdj i
                    = fundingAdjustedQuotePosition pa + taker
                      + asksQuantity pa * lot * p).
Proof.
  intros Hdef. exists (resolved QUOTE_INDEX g c a), (perpQuoteDelta g c a).
  split; [apply getHealthComponents_defined; exact Hdef|].
  split; [reflexivity|].
  intros i Hi. cbv zeta.
  rewrite !resolved_perps_lookup by exact Hi.
  pose proof (perp_outcome g c a i) as Hout. cbv zeta in Hout.
  rewrite !mul_fromI64_l in Hout.
  destruct (equals (perpMarket (perpMarkets g i)) zeroKey).
  - destruct Hout as [Hv Hq]. rewrite Hv, Hq. split; reflexivity.
  - destruct Hout as [Hbids Hasks]. split; intros Habs.
    + destruct (Hbids Habs) as [Hv Hq]. rewrite Hv, Hq. split; reflexivity.
    + destruct (Hasks Habs) as [Hv Hq]. rewrite Hv, Hq. split; reflexivity.
Qed.

End ResolverTheorems.

(** ** Health, liquidation status and health ratio *)

Section EvaluatorTheorems.

Context {rm : Rounding}.
Variable QUOTE_INDEX : nat.

Lemma getHealth_defined (g : EntropyGroup) (c : EntropyCache)
    (a : EntropyAccount) (ht : HealthType) :
  resolverDefined g c a ->
  getHealth QUOTE_INDEX g c a ht
  = Ok (quote (resolved QUOTE_INDEX g c a)
        + sumTo (marketHealth g c ht (spot (resolved QUOTE_INDEX g c a))
                   (perps (resolved QUOTE_INDEX g c a)))
            (numOracles g)).
Proof.
  intros Hdef. unfold getHealth.
  rewrite (getHealthComponents_defined QUOTE_INDEX g c a Hdef). cbn [bind].
  destruct (resolved_lengths QUOTE_INDEX g c a) as [Hs Hp].
  apply getHealthFromComponents_closed; assumption.
Qed.

Lemma getHealth_Ok_inv (g : EntropyGroup) (c : EntropyCache)
    (a : EntropyAccount) (ht : HealthType) (h : I80F48.t) :
  getHealth QUOTE_INDEX g c a ht = Ok h -> resolverDefined g c a.
Proof.
  unfold getHealth. intros H. apply bind_Ok_inv in H as (r & Hr & _).
  exact (getHealthComponents_Ok_inv QUOTE_INDEX g c a r Hr).
Qed.

(** C3: for every snapshot, [isLiquidatable] returns true if and only if
    the [beingLiquidated] flag is set and [health(Init) < 0], or
    [health(Maint) < 0]; and whenever the two healths are defined it returns
    [(beingLiquidated && health(Init) < 0) || health(Maint) < 0], which
    covers the four combinations of the flag and of the sign of
    [health(Maint)]. *)
Theorem isLiquidatable_spec (g : EntropyGroup) (c : EntropyCache)
    (a : EntropyAccount) :
  (isLiquidatable QUOTE_INDEX g c a = Ok true <->
   (beingLiquidated a = true
    /\ exists h, getHealth QUOTE_INDEX g c a Init = Ok h /\ h < 0)
   \/ (exists h, getHealth QUOTE_INDEX g c a Maint = Ok h /\ h < 0))
  /\ (forall hInit hMaint,
        getHealth QUOTE_INDEX g c a Init = Ok hInit ->
        getHealth QUOTE_INDEX g c a Maint = Ok hMaint ->
        isLiquidatable QUOTE_INDEX g c a
        = Ok ((beingLiquidated a && (hInit <? 0)) || (hMaint <? 0))).
Proof.
  assert (Hret : forall hI hM,
            getHealth QUOTE_INDEX g c a Init = Ok hI ->
            getHealth QUOTE_INDEX g c a Maint = Ok hM ->
            isLiquidatable QUOTE_INDEX g c a
            = Ok ((beingLiquidated a && (hI <? 0)) || (hM <? 0))).
  { intros hI hM EI EM. unfold isLiquidatable. rewrite EI, EM.
    unfold I80F48.isNeg.
    destruct (beingLiquidated a); cbn [bind andb orb]; [|reflexivity].
    destruct (hI <? 0); reflexivity. }
  split; [|exact Hret]. split.
  - unfold isLiquidatable, I80F48.isNeg. intros H.
    destruct (beingLiquidated a).
    + destruct (getHealth QUOTE_INDEX g c a Init) as [hI|e];
        cbn [bind] in H; [|discriminate H].
      destruct (Z.ltb_spec hI 0) as [Hneg|_].
      * left. split; [reflexivity|]. exists hI. split; [reflexivity|exact Hneg].
      * destruct (getHealth QUOTE_INDEX g c a Maint) as [hM|e];
          cbn [bind] in H; [|discriminate H].
        injection H as H. right. exists hM. split; [reflexivity|].
        apply Z.ltb_lt. exact H.
    + cbn [bind] in H.
      destruct (getHealth QUOTE_INDEX g c a Maint) as [hM|e];
        cbn [bind] in H; [|discriminate H].
      injection H as H. right. exists hM. split; [reflexivity|].
      apply Z.ltb_lt. exact H.
  - intros [(Hflag & h & Hh & Hneg)|(h & Hh & Hneg)].
    + unfold isLiquidatable, I80F48.isNeg. rewrite Hflag, Hh. cbn [bind].
      destruct (Z.ltb_spec h 0); [reflexivity | lia].
    + pose proof (getHealth_Ok_inv g c a Maint h Hh) as Hdef.
      rewrite (Hret _ _ (getHealth_defined g c a Init Hdef) Hh).
      destruct (Z.ltb_spec h 0); [|lia].
      rewrite orb_true_r. reflexivity.
Qed.

(** C4: on every snapshot on which the resolver returns, with [assets] and
    [liabs] the totals of [getWeightedAssetsLiabsVals] for the health type,
    [getHealthRatio] returns [(assets/liabs - 1) * 100] when [liabs > 0],
    and exactly 100, whatever [assets] is, when [liabs = 0]. *)
Theorem getHealthRatio_spec (g : EntropyGroup) (c : EntropyCache)
    (a : EntropyAccount) (ht : HealthType) :
  resolverDefined g c a ->
  exists r al,
    getHealthComponents QUOTE_INDEX g c a = Ok r
    /\ getWeightedAssetsLiabsVals g c (spot r) (perps r) (quote r) (Some ht)
       = Ok al
    /\ (0 < liabs al ->
        exists q, I80F48.div (assets al) (liabs al) = Ok q
          /\ getHealthRatio QUOTE_INDEX g c a ht
             = Ok (I80F48.mul (I80F48.sub q I80F48.ONE)
                     (I80F48.fromNumber 100)))
    /\ (liabs al = 0 ->
        getHealthRatio QUOTE_INDEX g c a ht = Ok (I80F48.fromNumber 100)).
Proof.
  intros Hdef.
  pose proof (getHealthComponents_defined QUOTE_INDEX g c a Hdef) as Hr.
  destruct (resolved_lengths QUOTE_INDEX g c a) as [Hs Hp].
  pose proof (getWeightedAssetsLiabsVals_closed g c _ _
                (quote (resolved QUOTE_INDEX g c a)) (Some ht) Hs Hp) as Hal.
  eexists. eexists. split; [exact Hr|]. split; [exact Hal|].
  unfold getHealthRatio. rewrite Hr. cbn [bind]. rewrite Hal. cbn [bind].
  set (al := {| assets := _; liabs := _ |}).
  split.
  - intros Hpos. rewrite (div_Ok (assets al) (liabs al)) by lia.
    eexists. split; [reflexivity|].
    unfold I80F48.gt, I80F48.ZERO.
    destruct (Z.ltb_spec 0 (liabs al)); [reflexivity | lia].
  - intros Hz. unfold I80F48.gt, I80F48.ZERO. rewrite Hz. reflexivity.
Qed.

End EvaluatorTheorems.

(** ** The all-zero snapshot and the sign of the weighted totals *)

Lemma sumTo_zero (f : nat -> Z) (n : nat) :
  (forall i, (i < n)%nat -> f i = 0) -> sumTo f n = 0.
Proof.
  induction n as [|n IH]; cbn [sumTo]; intros H; [reflexivity|].
  rewrite IH, (H n); [reflexivity | lia | intros; apply H; lia].
Qed.

Section SignTheorems.

Context {rm : Rounding}.
Variable QUOTE_INDEX : nat.

Lemma rdiv_0_l (c : Z) : c <> 0 -> I80F48.rdiv 0 c = 0.
Proof.
  intros Hc. unfold I80F48.rdiv.
  destruct rm; [apply Z.quot_0_l | apply Z.div_0_l]; exact Hc.
Qed.

Lemma mul_0_l (b : I80F48.t) : I80F48.mul 0 b = 0.
Proof.
  unfold I80F48.mul. cbn [Z.mul]. apply rdiv_0_l.
  pose proof MULTIPLIER_pos. lia.
Qed.

Lemma getNet_allZero (a : EntropyAccount) (bc : RootBankCache) (i : nat) :
  allZero a -> getNet a bc i = 0.
Proof.
  intros (Hbal & _ & _). unfold getNet. destruct (Hbal i) as [-> ->].
  unfold I80F48.ZERO, I80F48.sub. rewrite !mul_0_l. reflexivity.
Qed.

Lemma allZero_outcomes (g : EntropyGroup) (c : EntropyCache)
    (a : EntropyAccount) (i : nat) :
  allZero a ->
  (forall oo, inMarginBasket a i = true ->
     spotOpenOrdersAccounts a i = Some oo -> price (priceCache c i) <> 0) ->
  spotValue c a i = 0 /\ spotQuoteDelta c a i = 0
  /\ perpValue g c a i = 0 /\ perpQuoteDelta g c a i = 0.
Proof.
  intros Hz Hp.
  pose proof (spot_outcome c a i Hp) as Hs.
  pose proof (perp_outcome g c a i) as Hq. cbv zeta in Hs, Hq.
  rewrite (getNet_allZero a _ i Hz) in Hs.
  destruct Hz as (_ & Hoo & Hpa). rewrite (Hpa i) in Hq.
  assert (Hspot : spotValue c a i = 0 /\ spotQuoteDelta c a i = 0).
  { destruct (spotOpenOrdersAccounts a i) as [oo|] eqn:Eoo; [|exact Hs].
    destruct (inMarginBasket a i) eqn:Eb; [|exact Hs].
    destruct Hs as (locked & Hdiv & _ & Hasks).
    rewrite (Hoo i oo Eoo) in Hdiv, Hasks.
    cbn [quoteFree quoteLocked baseFree baseLocked zeroOpenOrders] in *.
    unfold I80F48.ZERO in *.
    rewrite div_Ok in Hdiv by (apply (Hp oo); reflexivity).
    cbn [Z.mul] in Hdiv.
    rewrite rdiv_0_l in Hdiv by (apply (Hp oo); reflexivity).
    injection Hdiv as <-. rewrite mul_0_l in Hasks. cbn in Hasks.
    apply Hasks. lia. }
  split; [apply Hspot|]. split; [apply Hspot|].
  cbn [basePosition takerBase takerQuote bidsQuantity asksQuantity
       fundingAdjustedQuotePosition zeroPerpAccount] in Hq.
  unfold I80F48.fromI64, I80F48.ZERO in Hq. cbn [Z.add Z.mul] in Hq.
  rewrite mul_0_l in Hq. cbn in Hq.
  destruct (equals (perpMarket (perpMarkets g i)) zeroKey); [exact Hq|].
  destruct Hq as [_ Hq]. apply Hq. lia.
Qed.

(** C9: for the all-zero snapshot (all deposits, borrows, open-orders
    fields and perp positions zero) on which the resolver returns,
    [health(Init) = 0], [health(Maint) = 0], and the health ratio is 100 for
    both health types. *)
Theorem all_zero_snapshot (g : EntropyGroup) (c : EntropyCache)
    (a : EntropyAccount) :
  allZero a -> resolverDefined g c a ->
  getHealth QUOTE_INDEX g c a Init = Ok I80F48.ZERO
  /\ getHealth QUOTE_INDEX g c a Maint = Ok I80F48.ZERO
  /\ forall ht,
       getHealthRatio QUOTE_INDEX g c a ht = Ok (I80F48.fromNumber 100).
Proof.
  intros Hz Hdef.
  assert (Hout : forall i, (i < numOracles g)%nat ->
            spotValue c a i = 0 /\ spotQuoteDelta c a i = 0
            /\ perpValue g c a i = 0 /\ perpQuoteDelta g c a i = 0)
    by (intros i Hi; apply allZero_outcomes;
        [exact Hz | intros oo; apply Hdef; exact Hi]).
  assert (Hquote : quote (resolved QUOTE_INDEX g c a) = 0).
  { unfold resolved, resolvedUpTo, initialComponents. cbn [quote].
    rewrite (getNet_allZero a _ _ Hz), sumTo_zero; [reflexivity|].
    intros i Hi. destruct (Hout i Hi) as (_ & -> & _ & ->). reflexivity. }
  assert (Hspot : forall i, (i < numOracles g)%nat ->
            nthZ (spot (resolved QUOTE_INDEX g c a)) i = 0).
  { intros i Hi. unfold resolved, resolvedUpTo. cbn [spot].
    rewrite nthZ_filled by exact Hi. apply (Hout i Hi). }
  assert (Hperps : forall i, (i < numOracles g)%nat ->
            nthZ (perps (resolved QUOTE_INDEX g c a)) i = 0).
  { intros i Hi. unfold resolved, resolvedUpTo. cbn [perps].
    rewrite nthZ_filled by exact Hi. apply (Hout i Hi). }
  assert (Hhealth : forall ht,
            getHealth QUOTE_INDEX g c a ht = Ok I80F48.ZERO).
  { intros ht. rewrite (getHealth_defined QUOTE_INDEX g c a ht Hdef).
    rewrite Hquote, sumTo_zero; [reflexivity|].
    intros i Hi. unfold marketHealth, spotHealthOf, perpHealthOf.
    rewrite (Hspot i Hi), (Hperps i Hi), !mul_0_l. reflexivity. }
  split; [apply Hhealth|]. split; [apply Hhealth|].
  intros ht. unfold getHealthRatio.
  rewrite (getHealthComponents_defined QUOTE_INDEX g c a Hdef). cbn [bind].
  destruct (resolved_lengths QUOTE_INDEX g c a) as [Hls Hlp].
  rewrite (getWeightedAssetsLiabsVals_closed g c _ _ _ (Some ht) Hls Hlp).
  cbn [bind liabs]. rewrite Hquote.
  rewrite (sumTo_zero (liabTerm _ _ _ _ _)).
  - reflexivity.
  - intros i Hi. unfold liabTerm. cbv zeta.
    rewrite (Hspot i Hi), (Hperps i Hi). cbn.
    rewrite !mul_0_l. reflexivity.
Qed.

Lemma isPos_spec (x : I80F48.t) :
  (I80F48.isPos x = true /\ 0 < x) \/ (I80F48.isPos x = false /\ x <= 0).
Proof.
  unfold I80F48.isPos, I80F48.gt, I80F48.ZERO.
  destruct (Z.ltb_spec 0 x); [left | right]; split; (reflexivity || lia).
Qed.

Lemma assetTerm_nonneg (g : EntropyGroup) (c : EntropyCache)
    (ht : HealthType) (spot perps : list I80F48.t) (i : nat) :
  nonnegMarkets g c ht -> (i < numOracles g)%nat ->
  0 <= assetTerm g c (Some ht) spot perps i.
Proof.
  intros Hnn Hi. destruct (Hnn i Hi) as (Hp & Hsa & _ & Hpa & _).
  unfold assetTerm. cbv zeta.
  assert (Hs : 0 <= (if I80F48.isPos (nthZ spot i)
                     then I80F48.mul
                            (I80F48.mul (nthZ spot i) (price (priceCache c i)))
                            (spotAssetWeight (getWeights g i (Some ht)))
                     else 0)).
  { destruct (isPos_spec (nthZ spot i)) as [[-> H]|[-> H]]; [|lia].
    apply mul_nonneg; [apply mul_nonneg; lia | exact Hsa]. }
  assert (Hq : 0 <= (if I80F48.isPos (nthZ perps i)
                     then I80F48.mul
                            (I80F48.mul (nthZ perps i) (price (priceCache c i)))
                            (perpAssetWeight (getWeights g i (Some ht)))
                     else 0)).
  { destruct (isPos_spec (nthZ perps i)) as [[-> H]|[-> H]]; [|lia].
    apply mul_nonneg; [apply mul_nonneg; lia | exact Hpa]. }
  lia.
Qed.

Lemma liabTerm_nonneg (g : EntropyGroup) (c : EntropyCache)
    (ht : HealthType) (spot perps : list I80F48.t) (i : nat) :
  nonnegMarkets g c ht -> (i < numOracles g)%nat ->
  0 <= liabTerm g c (Some ht) spot perps i.
Proof.
  intros Hnn Hi. destruct (Hnn i Hi) as (Hp & _ & Hsl & _ & Hpl).
  unfold liabTerm, I80F48.neg. cbv zeta.
  assert (Hs : 0 <= (if I80F48.isPos (nthZ spot i) then 0
                     else I80F48.mul
                            (I80F48.mul (- nthZ spot i)
                               (price (priceCache c i)))
                            (spotLiabWeight (getWeights g i (Some ht))))).
  { destruct (isPos_spec (nthZ spot i)) as [[-> H]|[-> H]]; [lia|].
    apply mul_nonneg; [apply mul_nonneg; lia | exact Hsl]. }
  assert (Hq : 0 <= (if I80F48.isPos (nthZ perps i) then 0
                     else I80F48.mul
                            (I80F48.mul (- nthZ perps i)
                               (price (priceCache c i)))
                            (perpLiabWeight (getWeights g i (Some ht))))).
  { destruct (isPos_spec (nthZ perps i)) as [[-> H]|[-> H]]; [lia|].
    apply mul_nonneg; [apply mul_nonneg; lia | exact Hpl]. }
  lia.
Qed.

(** C10, amended: when the prices and the risk weights of the health type
    are not negative, the [assets] and [liabs] totals of
    [getWeightedAssetsLiabsVals] on the resolved components are both
    nonnegative, and [getHealthRatio] returns a value not below -100. *)
Theorem weighted_totals_nonneg (g : EntropyGroup) (c : EntropyCache)
    (a : EntropyAccount) (ht : HealthType) :
  nonnegMarkets g c ht -> resolverDefined g c a ->
  exists r al ratio,
    getHealthComponents QUOTE_INDEX g c a = Ok r
    /\ getWeightedAssetsLiabsVals g c (spot r) (perps r) (quote r) (Some ht)
       = Ok al
    /\ 0 <= assets al /\ 0 <= liabs al
    /\ getHealthRatio QUOTE_INDEX g c a ht = Ok ratio
    /\ I80F48.fromNumber (-100) <= ratio.
Proof.
  intros Hnn Hdef.
  pose proof (getHealthComponents_defined QUOTE_INDEX g c a Hdef) as Hr.
  destruct (resolved_lengths QUOTE_INDEX g c a) as [Hs Hp].
  pose proof (getWeightedAssetsLiabsVals_closed g c _ _
                (quote (resolved QUOTE_INDEX g c a)) (Some ht) Hs Hp) as Hal.
  set (al := {| assets := _; liabs := _ |}) in Hal.
  assert (Hassets : 0 <= assets al).
  { unfold al. cbn [assets].
    pose proof (sumTo_nonneg
                  (assetTerm g c (Some ht) (spot (resolved QUOTE_INDEX g c a))
                     (perps (resolved QUOTE_INDEX g c a))) (numOracles g)
                  (fun i Hi => assetTerm_nonneg g c ht _ _ i Hnn Hi)).
    destruct (isPos_spec (quote (resolved QUOTE_INDEX g c a)))
      as [[-> H1]|[-> H1]]; lia. }
  assert (Hliabs : 0 <= liabs al).
  { unfold al. cbn [liabs].
    pose proof (sumTo_nonneg
                  (liabTerm g c (Some ht) (spot (resolved QUOTE_INDEX g c a))
                     (perps (resolved QUOTE_INDEX g c a))) (numOracles g)
                  (fun i Hi => liabTerm_nonneg g c ht _ _ i Hnn Hi)).
    destruct (isPos_spec (quote (resolved QUOTE_INDEX g c a)))
      as [[-> H1]|[-> H1]]; lia. }
  pose proof MULTIPLIER_pos as HM.
  exists (resolved QUOTE_INDEX g c a), al.
  unfold getHealthRatio. rewrite Hr. cbn [bind]. rewrite Hal. cbn [bind].
  unfold I80F48.gt, I80F48.ZERO.
  destruct (Z.ltb_spec 0 (liabs al)) as [Hpos|Hle].
  - rewrite (div_Ok (assets al) (liabs al)) by lia. cbn [bind].
    eexists. repeat (split; [first [reflexivity | assumption]|]).
    rewrite mul_fromNumber_r. unfold I80F48.sub, I80F48.ONE, I80F48.fromNumber.
    assert (0 <= I80F48.rdiv (assets al * I80F48.MULTIPLIER) (liabs al))
      by (apply rdiv_nonneg; [exact Hpos | nia]).
    lia.
  - eexists. repeat (split; [first [reflexivity | assumption]|]).
    unfold I80F48.fromNumber. lia.
Qed.

End SignTheorems.

(** ** Liquidation price and the margin solvers *)

Section SolverTheorems.

Context {rm : Rounding}.
Variable QUOTE_INDEX : nat.


(** C6, amended: [getMarketMarginAvailable] special-cases an Init asset
    weight of at least one: it returns zero when the Init health is not
    positive, the Init health itself when the weight is at least one, and
    otherwise divides the health by [1 - weight], which is then strictly
    positive. [getAvailableBalance] and [getMaxWithBorrowForToken] have no
    such special case and no [1 - weight] denominator. For a token other
    than the quote currency with asset weight at least one and a positive
    price, [getAvailableBalance] divides the Init health by the weight and
    by the price, both positive, and returns the smaller of the net balance
    and that quotient, floored at zero. With liab weight at least one and a
    positive UI price, the divisors of [getMaxWithBorrowForToken],
    [10^quoteDecimals] and [price * liabWeight], are positive, and it
    returns the solved amount: the Init health, floored, less the floored
    deposit valued at [price * assetWeight], floored again and divided by
    the two divisors in turn. *)
Theorem margin_solvers_guard (g : EntropyGroup) (c : EntropyCache)
    (a : EntropyAccount) (index : nat) (marketType : MarketType)
    (health : I80F48.t) :
  getHealth QUOTE_INDEX g c a Init = Ok health ->
  let w := getWeights g index (Some Init) in
  let weight :=
    match marketType with
    | SpotMarket => spotAssetWeight w
    | PerpMarket => perpAssetWeight w
    end in
  (health <= 0 ->
     getMarketMarginAvailable QUOTE_INDEX g c a index marketType
     = Ok I80F48.ZERO)
  /\ (0 < health -> I80F48.ONE <= weight ->
        getMarketMarginAvailable QUOTE_INDEX g c a index marketType
        = Ok health)
  /\ (0 < health -> weight < I80F48.ONE ->
        0 < I80F48.sub I80F48.ONE weight
        /\ getMarketMarginAvailable QUOTE_INDEX g c a index marketType
           = I80F48.div health (I80F48.sub I80F48.ONE weight)
        /\ exists x,
             getMarketMarginAvailable QUOTE_INDEX g c a index marketType
             = Ok x)
  /\ (index <> QUOTE_INDEX -> I80F48.ONE <= spotAssetWeight w ->
        0 < price (priceCache c index) ->
        exists byWeight byPrice,
          I80F48.div health (spotAssetWeight w) = Ok byWeight
          /\ I80F48.div byWeight (price (priceCache c index)) = Ok byPrice
          /\ getAvailableBalance QUOTE_INDEX g c a index
             = Ok (I80F48.max
                     (I80F48.min (getNet a (rootBankCache c index) index)
                        byPrice)
                     I80F48.ZERO))
  /\ (forall getPrice : EntropyGroup -> nat -> EntropyCache -> I80F48.t,
        index <> QUOTE_INDEX ->
        I80F48.ONE <= spotInitLiabWeight (spotMarkets g index) ->
        0 < getPrice g index c -> 0 <= decimals (tokens g QUOTE_INDEX) ->
        0 < I80F48.fromPow10 (decimals (tokens g QUOTE_INDEX))
        /\ 0 < I80F48.mul (getPrice g index c)
                 (spotInitLiabWeight (spotMarkets g index))
        /\ exists scaled amount,
             I80F48.div
               (I80F48.floor
                  (I80F48.sub (I80F48.floor health)
                     (I80F48.mul
                        (I80F48.mul
                           (I80F48.floor
                              (getNativeDeposit a (rootBankCache c index)
                                 index))
                           (price (priceCache c index)))
                        (spotInitAssetWeight (spotMarkets g index)))))
               (I80F48.fromPow10 (decimals (tokens g QUOTE_INDEX)))
             = Ok scaled
             /\ I80F48.div scaled
                  (I80F48.mul (getPrice g index c)
                     (spotInitLiabWeight (spotMarkets g index)))
                = Ok amount
             /\ getMaxWithBorrowForToken QUOTE_INDEX getPrice g c a index
                = Ok amount).
Proof.
  intros Hh w weight. pose proof MULTIPLIER_pos as HM.
  assert (Hborrow :
    forall getPrice : EntropyGroup -> nat -> EntropyCache -> I80F48.t,
      index <> QUOTE_INDEX ->
      I80F48.ONE <= spotInitLiabWeight (spotMarkets g index) ->
      0 < getPrice g index c -> 0 <= decimals (tokens g QUOTE_INDEX) ->
      0 < I80F48.fromPow10 (decimals (tokens g QUOTE_INDEX))
      /\ 0 < I80F48.mul (getPrice g index c)
               (spotInitLiabWeight (spotMarkets g index))
      /\ exists scaled amount,
           I80F48.div
             (I80F48.floor
                (I80F48.sub (I80F48.floor health)
                   (I80F48.mul
                      (I80F48.mul
                         (I80F48.floor
                            (getNativeDeposit a (rootBankCache c index)
                               index))
                         (price (priceCache c index)))
                      (spotInitAssetWeight (spotMarkets g index)))))
             (I80F48.fromPow10 (decimals (tokens g QUOTE_INDEX)))
           = Ok scaled
           /\ I80F48.div scaled
                (I80F48.mul (getPrice g index c)
                   (spotInitLiabWeight (spotMarkets g index)))
              = Ok amount
           /\ getMaxWithBorrowForToken QUOTE_INDEX getPrice g c a index
              = Ok amount).
  { intros getPrice Hne Hw Hp Hd.
    assert (H10 : 0 < I80F48.fromPow10 (decimals (tokens g QUOTE_INDEX))).
    { unfold I80F48.fromPow10, I80F48.fromNumber.
      destruct (Z.leb_spec 0 (decimals (tokens g QUOTE_INDEX))); [|lia].
      assert (0 < 10 ^ decimals (tokens g QUOTE_INDEX))
        by (apply Z.pow_pos_nonneg; lia).
      nia. }
    assert (Hden : 0 < I80F48.mul (getPrice g index c)
                         (spotInitLiabWeight (spotMarkets g index))).
    { unfold I80F48.mul, I80F48.ONE in *.
      assert (H1 : I80F48.rdiv (1 * I80F48.MULTIPLIER) I80F48.MULTIPLIER
                   <= I80F48.rdiv
                        (getPrice g index c
                         * spotInitLiabWeight (spotMarkets g index))
                        I80F48.MULTIPLIER)
        by (apply rdiv_le_mono; [exact HM | nia]).
      rewrite rdiv_mul_exact in H1 by lia. lia. }
    split; [exact H10|]. split; [exact Hden|].
    eexists. eexists.
    split; [apply div_Ok; lia|]. split; [apply div_Ok; lia|].
    unfold getMaxWithBorrowForToken. rewrite Hh. cbn [bind].
    destruct (Nat.eqb_spec index QUOTE_INDEX) as [He|_]; [contradiction|].
    rewrite div_Ok by lia. cbn [bind]. rewrite div_Ok by lia.
    reflexivity. }
  unfold getMarketMarginAvailable, getAvailableBalance. rewrite Hh.
  cbn [bind]. fold w. fold weight.
  unfold I80F48.lte, I80F48.gte, I80F48.ZERO, I80F48.sub.
  split; [|split; [|split; [|split; [|exact Hborrow]]]].
  - intros Hle. destruct (Z.leb_spec health 0); [reflexivity | lia].
  - intros Hpos Hw. destruct (Z.leb_spec health 0); [lia|].
    destruct (Z.leb_spec I80F48.ONE weight); [reflexivity | lia].
  - intros Hpos Hw. destruct (Z.leb_spec health 0); [lia|].
    destruct (Z.leb_spec I80F48.ONE weight); [lia|].
    split; [lia|]. split; [reflexivity|].
    rewrite div_Ok by lia. eauto.
  - intros Hne Hw Hp.
    destruct (Nat.eqb_spec index QUOTE_INDEX) as [He|_]; [contradiction|].
    unfold I80F48.ONE in Hw.
    rewrite (div_Ok health (spotAssetWeight w)) by lia.
    eexists. eexists. split; [reflexivity|]. cbn [bind].
    rewrite div_Ok by lia. split; reflexivity.
Qed.

End SolverTheorems.

(** ** Monotonicity in a liability *)

Section MonotonicityTheorems.

Context {rm : Rounding}.

Lemma rdiv_add_divisor (x c : Z) :
  0 < c -> 0 <= x -> I80F48.rdiv (x + c) c = I80F48.rdiv x c + 1.
Proof.
  intros Hc Hx. unfold I80F48.rdiv.
  replace (x + c) with (x + 1 * c) by lia.
  destruct rm.
  - rewrite Z.quot_add; [lia | nia | lia].
  - rewrite Z.div_add; lia.
Qed.

(** An index of at least one keeps distinct non-negative balances
    distinct. *)
Lemma mul_lt_mono_nonneg (a a' b : I80F48.t) :
  0 <= a -> a < a' -> I80F48.ONE <= b -> I80F48.mul a b < I80F48.mul a' b.
Proof.
  intros Ha0 Ha Hb. unfold I80F48.mul, I80F48.ONE in *.
  pose proof MULTIPLIER_pos as HM.
  assert (H1 : I80F48.rdiv (a * b + I80F48.MULTIPLIER) I80F48.MULTIPLIER
               <= I80F48.rdiv (a' * b) I80F48.MULTIPLIER)
    by (apply rdiv_le_mono; [exact HM | nia]).
  rewrite rdiv_add_divisor in H1; [lia | exact HM | nia].
Qed.

Lemma isPos_nonpos (x : I80F48.t) : x <= 0 -> I80F48.isPos x = false.
Proof.
  intros Hx. unfold I80F48.isPos, I80F48.gt, I80F48.ZERO.
  destruct (Z.ltb_spec 0 x); [lia | reflexivity].
Qed.

Lemma spotHealthOf_liability (w : Weights) (p x x' : I80F48.t) :
  x' < x -> x <= 0 -> 0 <= p -> 0 <= spotLiabWeight w ->
  spotHealthOf w p x' <= spotHealthOf w p x
  /\ (I80F48.ONE <= p -> I80F48.ONE <= spotLiabWeight w ->
      spotHealthOf w p x' < spotHealthOf w p x).
Proof.
  intros Hlt Hx Hp Hw. unfold spotHealthOf.
  rewrite (isPos_nonpos x), (isPos_nonpos x') by lia. split.
  - apply mul_le_mono_l; [apply mul_le_mono_l; lia | exact Hw].
  - intros Hp1 Hw1. apply mul_lt_mono_nonpos; [| |exact Hw1].
    + apply mul_lt_mono_nonpos; assumption.
    + apply mul_nonpos; assumption.
Qed.

Lemma perpHealthOf_liability (w : Weights) (p x x' : I80F48.t) :
  x' < x -> x <= 0 -> 0 <= p -> 0 <= perpLiabWeight w ->
  perpHealthOf w p x' <= perpHealthOf w p x
  /\ (I80F48.ONE <= p -> I80F48.ONE <= perpLiabWeight w ->
      perpHealthOf w p x' < perpHealthOf w p x).
Proof.
  intros Hlt Hx Hp Hw. unfold perpHealthOf.
  rewrite (isPos_nonpos x), (isPos_nonpos x') by lia. split.
  - apply mul_le_mono_l; [apply mul_le_mono_l; lia | exact Hw].
  - intros Hp1 Hw1. apply mul_lt_mono_nonpos; [| |exact Hw1].
    + apply mul_lt_mono_nonpos; assumption.
    + apply mul_nonpos; assumption.
Qed.

Lemma nthZ_insert_ne (l : list I80F48.t) (i j : nat) (v : I80F48.t) :
  i <> j -> nthZ (<[i := v]> l) j = nthZ l j.
Proof.
  intros Hne. unfold nthZ. rewrite list_lookup_insert_ne by exact Hne.
  reflexivity.
Qed.

Lemma nthZ_lookup (l : list I80F48.t) (i : nat) (x : I80F48.t) :
  l !! i = Some x -> nthZ l i = x.
Proof. unfold nthZ. intros ->. reflexivity. Qed.

(** Health is compared market by market. *)
Lemma health_compare (g : EntropyGroup) (c : EntropyCache)
    (spot spot' perps perps' : list I80F48.t) (quote : I80F48.t)
    (ht : HealthType) (i : nat) :
  length spot = numOracles g -> length perps = numOracles g ->
  length spot' = numOracles g -> length perps' = numOracles g ->
  (i < numOracles g)%nat ->
  (forall j, j <> i -> marketHealth g c ht spot' perps' j
                       = marketHealth g c ht spot perps j) ->
  exists h h',
    getHealthFromComponents g c spot perps quote ht = Ok h
    /\ getHealthFromComponents g c spot' perps' quote ht = Ok h'
    /\ (marketHealth g c ht spot' perps' i <= marketHealth g c ht spot perps i
        -> h' <= h)
    /\ (marketHealth g c ht spot' perps' i < marketHealth g c ht spot perps i
        -> h' < h).
Proof.
  intros Hs Hp Hs' Hp' Hi Hother.
  rewrite (getHealthFromComponents_closed g c spot perps quote ht Hs Hp).
  rewrite (getHealthFromComponents_closed g c spot' perps' quote ht Hs' Hp').
  eexists. eexists. split; [reflexivity|]. split; [reflexivity|].
  assert (Hle : forall j, (j < numOracles g)%nat ->
            marketHealth g c ht spot' perps' i
            <= marketHealth g c ht spot perps i ->
            marketHealth g c ht spot' perps' j
            <= marketHealth g c ht spot perps j).
  { intros j _ Hle. destruct (decide (j = i)) as [->|Hne]; [exact Hle|].
    rewrite (Hother j Hne). lia. }
  split; intros Hcmp.
  - apply Z.add_le_mono_l, sumTo_le. intros j Hj. apply Hle; [exact Hj|lia].
  - apply Z.add_lt_mono_l, (sumTo_lt _ _ _ i); [|exact Hi|exact Hcmp].
    intros j Hj. apply Hle; [exact Hj | lia].
Qed.

Variable QUOTE_INDEX : nat.

Lemma getNet_withBorrow_ne (a : EntropyAccount) (i : nat) (b : I80F48.t)
    (bc : RootBankCache) (j : nat) :
  j <> i -> getNet (withBorrow a i b) bc j = getNet a bc j.
Proof.
  intros Hne. unfold getNet, withBorrow. cbn [deposits borrows].
  destruct (Nat.eqb_spec j i) as [He|_]; [contradiction | reflexivity].
Qed.

Lemma getNet_withBorrow_le (a : EntropyAccount) (i : nat) (b : I80F48.t)
    (bc : RootBankCache) :
  borrows a i < b -> 0 <= borrowIndex bc ->
  getNet (withBorrow a i b) bc i <= getNet a bc i
  /\ (0 <= borrows a i -> I80F48.ONE <= borrowIndex bc ->
      getNet (withBorrow a i b) bc i < getNet a bc i).
Proof.
  intros Hb Hidx. unfold getNet, withBorrow, I80F48.sub.
  cbn [deposits borrows]. rewrite Nat.eqb_refl. split.
  - pose proof (mul_le_mono_l b (borrows a i) (borrowIndex bc)
                  ltac:(lia) Hidx). lia.
  - intros H0 Hidx1.
    pose proof (mul_lt_mono_nonneg (borrows a i) b (borrowIndex bc)
                  H0 Hb Hidx1). lia.
Qed.

Lemma evalSpot_withBorrow_ne (c : EntropyCache) (a : EntropyAccount)
    (i : nat) (b : I80F48.t) (j : nat) (st : Components) :
  j <> i -> evalSpot c (withBorrow a i b) j st = evalSpot c a j st.
Proof.
  intros Hne. unfold evalSpot. rewrite getNet_withBorrow_ne by exact Hne.
  reflexivity.
Qed.

Lemma resolverDefined_withBorrow (g : EntropyGroup) (c : EntropyCache)
    (a : EntropyAccount) (i : nat) (b : I80F48.t) :
  resolverDefined g c a -> resolverDefined g c (withBorrow a i b).
Proof. intros Hdef j oo Hj Hb Hoo. exact (Hdef j oo Hj Hb Hoo). Qed.

(** Without an open-orders account in the margin basket the spot value is
    the net balance and [quote] is left as it is. *)
Lemma spot_without_orders (c : EntropyCache) (a : EntropyAccount) (i : nat) :
  inMarginBasket a i = false \/ spotOpenOrdersAccounts a i = None ->
  spotValue c a i = getNet a (rootBankCache c i) i
  /\ spotQuoteDelta c a i = 0.
Proof.
  intros Hno.
  assert (Hp : forall oo, inMarginBasket a i = true ->
            spotOpenOrdersAccounts a i = Some oo ->
            price (priceCache c i) <> 0)
    by (intros oo Hb Hoo; destruct Hno as [Hno|Hno]; congruence).
  pose proof (spot_outcome c a i Hp) as Hout. cbv zeta in Hout.
  destruct (spotOpenOrdersAccounts a i) as [oo|]; [|exact Hout].
  destruct (inMarginBasket a i); [|exact Hout].
  destruct Hno; discriminate.
Qed.

Lemma marketHealth_resolved (g : EntropyGroup) (c : EntropyCache)
    (a : EntropyAccount) (ht : HealthType) (j : nat) :
  (j < numOracles g)%nat ->
  marketHealth g c ht (spot (resolved QUOTE_INDEX g c a))
    (perps (resolved QUOTE_INDEX g c a)) j
  = spotHealthOf (getWeights g j (Some ht)) (price (priceCache c j))
      (spotValue c a j)
    + perpHealthOf (getWeights g j (Some ht)) (price (priceCache c j))
        (perpValue g c a j).
Proof.
  intros Hj. unfold marketHealth, resolved, resolvedUpTo. cbn [spot perps].
  rewrite !nthZ_filled by exact Hj. reflexivity.
Qed.

(** C7, amended: take a market [i] that has no open-orders account in the
    margin basket and whose net balance is not positive, and raise its
    borrow balance, everything else fixed. When the borrow index, the price
    and the spot liab weight are not negative, neither [health(Init)] nor
    [health(Maint)] increases; when the borrow balance is not negative and
    the borrow index, the price and the liab weight are at least one (in
    fixed-point units), both strictly decrease. Likewise, when the resolved
    perp exposure [perps[i]] is not positive and is made more negative,
    everything else fixed, the health does not increase when the price and
    the perp liab weight are not negative, and strictly decreases when both
    are at least one. *)
Theorem liability_monotone (g : EntropyGroup) (c : EntropyCache)
    (a : EntropyAccount) (ht : HealthType) (i : nat) :
  resolverDefined g c a -> (i < numOracles g)%nat ->
  0 <= price (priceCache c i) ->
  let w := getWeights g i (Some ht) in
  let p := price (priceCache c i) in
  let bank := rootBankCache c i in
  (forall b,
     i <> QUOTE_INDEX ->
     inMarginBasket a i = false \/ spotOpenOrdersAccounts a i = None ->
     getNet a bank i <= 0 -> borrows a i < b ->
     0 <= borrowIndex bank -> 0 <= spotLiabWeight w ->
     exists h h',
       getHealth QUOTE_INDEX g c a ht = Ok h
       /\ getHealth QUOTE_INDEX g c (withBorrow a i b) ht = Ok h'
       /\ h' <= h
       /\ (0 <= borrows a i -> I80F48.ONE <= borrowIndex bank ->
           I80F48.ONE <= p -> I80F48.ONE <= spotLiabWeight w -> h' < h))
  /\ (forall r x x',
        getHealthComponents QUOTE_INDEX g c a = Ok r ->
        perps r !! i = Some x -> x' < x -> x <= 0 ->
        0 <= perpLiabWeight w ->
        exists h h',
          getHealth QUOTE_INDEX g c a ht = Ok h
          /\ getHealthFromComponents g c (spot r) (<[i := x']> (perps r))
               (quote r) ht = Ok h'
          /\ h' <= h
          /\ (I80F48.ONE <= p -> I80F48.ONE <= perpLiabWeight w -> h' < h)).
Proof.
  intros Hdef Hi Hprice w p bank. split.
  - intros b Hq Hno Hnet Hb Hidx Hw.
    set (a' := withBorrow a i b).
    assert (Hdef' : resolverDefined g c a')
      by (apply resolverDefined_withBorrow; exact Hdef).
    assert (Hsame : forall j, (j < numOracles g)%nat -> j <> i ->
              spotValue c a' j = spotValue c a j
              /\ spotQuoteDelta c a' j = spotQuoteDelta c a j).
    { intros j _ Hne. unfold spotValue, spotQuoteDelta, a'.
      rewrite evalSpot_withBorrow_ne by exact Hne. split; reflexivity. }
    destruct (spot_without_orders c a i Hno) as [Hv Hd].
    destruct (spot_without_orders c a' i Hno) as [Hv' Hd'].
    destruct (getNet_withBorrow_le a i b bank Hb Hidx) as [Hle Hlt].
    fold a' in Hle, Hlt.
    assert (Hquote : quote (resolved QUOTE_INDEX g c a')
                     = quote (resolved QUOTE_INDEX g c a)).
    { unfold resolved, resolvedUpTo, initialComponents. cbn [quote].
      unfold a' at 1. rewrite getNet_withBorrow_ne by (intros E; auto).
      f_equal. apply sumTo_ext. intros j Hj.
      destruct (decide (j = i)) as [->|Hne].
      - rewrite Hd, Hd'. reflexivity.
      - destruct (Hsame j Hj Hne) as [_ ->]. reflexivity. }
    rewrite (getHealth_defined QUOTE_INDEX g c a ht Hdef).
    rewrite (getHealth_defined QUOTE_INDEX g c a' ht Hdef').
    eexists. eexists. split; [reflexivity|]. split; [reflexivity|].
    rewrite Hquote.
    assert (Hother : forall j, (j < numOracles g)%nat -> j <> i ->
              marketHealth g c ht (spot (resolved QUOTE_INDEX g c a'))
                (perps (resolved QUOTE_INDEX g c a')) j
              = marketHealth g c ht (spot (resolved QUOTE_INDEX g c a))
                  (perps (resolved QUOTE_INDEX g c a)) j).
    { intros j Hj Hne. rewrite !marketHealth_resolved by exact Hj.
      destruct (Hsame j Hj Hne) as [-> _]. reflexivity. }
    assert (Hat : marketHealth g c ht (spot (resolved QUOTE_INDEX g c a'))
                    (perps (resolved QUOTE_INDEX g c a')) i
                  - marketHealth g c ht (spot (resolved QUOTE_INDEX g c a))
                      (perps (resolved QUOTE_INDEX g c a)) i
                  = spotHealthOf w p (getNet a' bank i)
                    - spotHealthOf w p (getNet a bank i)).
    { rewrite !marketHealth_resolved by exact Hi. rewrite Hv, Hv'.
      fold w p bank.
      change (perpValue g c a' i) with (perpValue g c a i). lia. }
    assert (Hweak : spotHealthOf w p (getNet a' bank i)
                    <= spotHealthOf w p (getNet a bank i)).
    { destruct (Z.eq_dec (getNet a' bank i) (getNet a bank i)) as [->|Hne];
        [lia|].
      apply spotHealthOf_liability; [lia | assumption..]. }
    split.
    + apply Z.add_le_mono_l, sumTo_le. intros j Hj.
      destruct (decide (j = i)) as [->|Hne]; [lia|].
      rewrite (Hother j Hj Hne). lia.
    + intros H0 Hidx1 Hp1 Hw1.
      apply Z.add_lt_mono_l, (sumTo_lt _ _ _ i); [|exact Hi|].
      * intros j Hj. destruct (decide (j = i)) as [->|Hne]; [lia|].
        rewrite (Hother j Hj Hne). lia.
      * specialize (Hlt H0 Hidx1).
        destruct (spotHealthOf_liability w p _ _ Hlt Hnet Hprice Hw)
          as [_ Hstr]. specialize (Hstr Hp1 Hw1). lia.
  - intros r x x' Hr Hlk Hlt Hx Hw.
    apply (getHealthComponents_iff QUOTE_INDEX) in Hr as [_ ->].
    destruct (resolved_lengths QUOTE_INDEX g c a) as [Hls Hlp].
    unfold getHealth.
    rewrite (getHealthComponents_defined QUOTE_INDEX g c a Hdef). cbn [bind].
    destruct (health_compare g c (spot (resolved QUOTE_INDEX g c a))
                (spot (resolved QUOTE_INDEX g c a))
                (perps (resolved QUOTE_INDEX g c a))
                (<[i := x']> (perps (resolved QUOTE_INDEX g c a)))
                (quote (resolved QUOTE_INDEX g c a)) ht i)
      as (h & h' & Hh & Hh' & Hle & Hstrict);
      try assumption; [rewrite length_insert; exact Hlp | |].
    + intros j Hne. unfold marketHealth.
      rewrite nthZ_insert_ne by (intros E; apply Hne; symmetry; exact E).
      reflexivity.
    + exists h, h'. split; [exact Hh|]. split; [exact Hh'|].
      unfold marketHealth in Hle, Hstrict.
      rewrite nthZ_insert in Hle, Hstrict by lia.
      rewrite (nthZ_lookup _ i x Hlk) in Hle, Hstrict.
      destruct (perpHealthOf_liability w p x x' Hlt Hx Hprice Hw)
        as [Hweak Hstr].
      fold w p in Hle, Hstrict. split; [apply Hle; lia|].
      intros Hp1 Hw1. specialize (Hstr Hp1 Hw1). apply Hstrict. lia.
Qed.

End MonotonicityTheorems.

(** ** The worst-case order selection example *)

Lemma restingBids_components (rm : Rounding) (w : I80F48.t) :
  getHealthComponents 15 (singleMarket w) priceTenCache restingBidsAccount
  = Ok {| spot := [I80F48.fromNumber 50];
          perps := [I80F48.ZERO];
          quote := I80F48.fromNumber 1000 |}.
Proof. destruct rm; vm_compute; reflexivity. Qed.

Lemma restingBids_health (rm : Rounding) (w : I80F48.t) :
  getHealth 15 (singleMarket w) priceTenCache restingBidsAccount Init
  = Ok (I80F48.fromNumber 1000 + 500 * w).
Proof.
  unfold getHealth. rewrite restingBids_components. cbn [bind spot perps quote].
  rewrite getHealthFromComponents_closed by reflexivity.
  cbn [numOracles singleMarket sumTo].
  unfold marketHealth, spotHealthOf, perpHealthOf, nthZ.
  cbn [lookup list_lookup default from_option id].
  change (I80F48.isPos (I80F48.fromNumber 50)) with true.
  change (I80F48.isPos I80F48.ZERO) with false.
  change (price (priceCache priceTenCache 0)) with (I80F48.fromNumber 10).
  change (spotAssetWeight (getWeights (singleMarket w) 0 (Some Init))) with w.
  change (I80F48.fromNumber 50) with (I80F48.fromI64 50).
  rewrite mul_fromI64_l.
  change (50 * I80F48.fromNumber 10) with (I80F48.fromI64 500).
  rewrite mul_fromI64_l.
  unfold I80F48.ZERO. rewrite !mul_0_l. f_equal. lia.
Qed.

(** C8, amended: in the snapshot with one spot market having [baseFree = 0],
    [baseLocked = 0], [quoteFree = 0], [quoteLocked = 500], price 10, a
    quote deposit of 1000 at deposit index 1.0 and spot Init asset weight
    [w], the resolver selects the bids case with [spot[0] = 50] and leaves
    [quote] at 1000, and [health(Init) = 1000 + 500*w]. With the fixed-point
    value closest to 0.9 for [w] this is 1450 less 200 units of the last
    fractional bit, in either rounding direction. *)
Theorem worst_case_order_example (rm : Rounding) (w : I80F48.t) :
  getHealthComponents 15 (singleMarket w) priceTenCache restingBidsAccount
  = Ok {| spot := [I80F48.fromNumber 50];
          perps := [I80F48.ZERO];
          quote := I80F48.fromNumber 1000 |}
  /\ getHealth 15 (singleMarket w) priceTenCache restingBidsAccount Init
     = Ok (I80F48.fromNumber 1000 + 500 * w)
  /\ getHealth 15 (singleMarket w09) priceTenCache restingBidsAccount Init
     = Ok (I80F48.fromNumber 1450 - 200).
Proof.
  split; [apply restingBids_components|]. split; [apply restingBids_health|].
  rewrite restingBids_health. reflexivity.
Qed.

(** ** The theorems at concrete snapshots *)

(** Discharges [resolverDefined] for a concrete snapshot with [n] markets. *)
Tactic Notation "concrete_defined" integer(n) :=
  let i := fresh "i" in
  let Hlt := fresh "Hlt" in
  let H := fresh "Hprice" in
  intros i ? Hlt _ _;
  do n (destruct i as [|i]; [intros H; vm_compute in H; discriminate H|]);
  exfalso; cbn in *; lia.

(** Discharges [nonnegMarkets] for a concrete snapshot with [n] markets. *)
Tactic Notation "concrete_nonneg" integer(n) :=
  let i := fresh "i" in
  let Hlt := fresh "Hlt" in
  intros i Hlt;
  do n (destruct i as [|i]; [repeat split; vm_compute; discriminate|]);
  exfalso; cbn in *; lia.

Lemma resolver_spot_worst_case_witness :
  resolverDefined demo_group demo_cache demo_account
  /\ exists r,
       getHealthComponents (rm := TowardZero) 15 demo_group demo_cache
         demo_account = Ok r
       /\ spot r !! 0%nat = Some (I80F48.fromNumber 57)
       /\ spot r !! 1%nat = Some (I80F48.fromNumber (-20))
       /\ quote r = I80F48.fromNumber 1320.
Proof.
  assert (Hdef : resolverDefined demo_group demo_cache demo_account)
    by concrete_defined 2.
  split; [exact Hdef|].
  destruct (resolver_spot_worst_case (rm := TowardZero) 15 demo_group
              demo_cache demo_account Hdef)
    as (r & spotAdj & Hr & Hq & Hcases).
  exists r. split; [exact Hr|].
  destruct (Hcases 0%nat ltac:(cbn; lia)) as (locked & Hdiv & Hbids & _).
  vm_compute in Hdiv. injection Hdiv as <-.
  destruct Hbids as [Hspot0 Hadj0]; [vm_compute; reflexivity|].
  destruct (Hcases 1%nat ltac:(cbn; lia)) as [Hspot1 Hadj1].
  split; [exact Hspot0|]. split; [rewrite Hspot1; vm_compute; reflexivity|].
  rewrite Hq. cbn [numOracles demo_group sumTo]. rewrite Hadj0, Hadj1.
  vm_compute. reflexivity.
Defined.

Lemma resolver_perp_worst_case_witness :
  resolverDefined demo_group demo_cache demo_account
  /\ exists r,
       getHealthComponents (rm := TowardNegInf) 15 demo_group demo_cache
         demo_account = Ok r
       /\ perps r !! 0%nat = Some I80F48.ZERO
       /\ perps r !! 1%nat = Some (I80F48.fromNumber (-30))
       /\ quote r = I80F48.fromNumber 1320.
Proof.
  assert (Hdef : resolverDefined demo_group demo_cache demo_account)
    by concrete_defined 2.
  split; [exact Hdef|].
  destruct (resolver_perp_worst_case (rm := TowardNegInf) 15 demo_group
              demo_cache demo_account Hdef)
    as (r & perpAdj & Hr & Hq & Hcases).
  exists r. split; [exact Hr|].
  destruct (Hcases 0%nat ltac:(cbn; lia)) as [Hperp0 Hadj0].
  destruct (Hcases 1%nat ltac:(cbn; lia)) as [_ Hasks].
  destruct Hasks as [Hperp1 Hadj1]; [vm_compute; discriminate|].
  split; [exact Hperp0|]. split; [exact Hperp1|].
  rewrite Hq. cbn [numOracles demo_group sumTo]. rewrite Hadj0, Hadj1.
  vm_compute. reflexivity.
Defined.

Lemma isLiquidatable_spec_witness :
  getHealth (rm := TowardZero) 15 demo_group demo_cache demo_account Init
  = Ok (1497 * 2 ^ 48 + 2 ^ 47)
  /\ getHealth (rm := TowardZero) 15 demo_group demo_cache demo_account Maint
     = Ok (1593 * 2 ^ 48 + 3 * 2 ^ 46)
  /\ isLiquidatable (rm := TowardZero) 15 demo_group demo_cache demo_account
     = Ok false.
Proof.
  assert (HI : getHealth (rm := TowardZero) 15 demo_group demo_cache
                 demo_account Init = Ok (1497 * 2 ^ 48 + 2 ^ 47))
    by (vm_compute; reflexivity).
  assert (HM : getHealth (rm := TowardZero) 15 demo_group demo_cache
                 demo_account Maint = Ok (1593 * 2 ^ 48 + 3 * 2 ^ 46))
    by (vm_compute; reflexivity).
  split; [exact HI|]. split; [exact HM|].
  destruct (isLiquidatable_spec (rm := TowardZero) 15 demo_group demo_cache
              demo_account) as [_ Hret].
  rewrite (Hret _ _ HI HM). reflexivity.
Defined.

Lemma getHealthRatio_spec_witness :
  resolverDefined demo_group demo_cache demo_account
  /\ exists r al,
       getHealthComponents (rm := TowardZero) 15 demo_group demo_cache
         demo_account = Ok r
       /\ getWeightedAssetsLiabsVals (rm := TowardZero) demo_group demo_cache
            (spot r) (perps r) (quote r) (Some Maint) = Ok al.
Proof.
  assert (Hdef : resolverDefined demo_group demo_cache demo_account)
    by concrete_defined 2.
  split; [exact Hdef|].
  destruct (getHealthRatio_spec (rm := TowardZero) 15 demo_group demo_cache
              demo_account Maint Hdef) as (r & al & Hr & Hal & _).
  exists r, al. split; [exact Hr | exact Hal].
Defined.


Lemma margin_solvers_guard_witness :
  getHealth (rm := TowardZero) 15 (singleMarket I80F48.ONE) priceTenCache
    restingBidsAccount Init = Ok (I80F48.fromNumber 1500)
  /\ getMarketMarginAvailable (rm := TowardZero) 15
       (singleMarket I80F48.ONE) priceTenCache restingBidsAccount 0
       SpotMarket = Ok (I80F48.fromNumber 1500)
  /\ getMaxWithBorrowForToken (rm := TowardZero) 15
       (fun _ _ _ => I80F48.fromNumber 10) (singleMarket I80F48.ONE)
       priceTenCache restingBidsAccount 0 = Ok 42221246506
  /\ 42221246506 <> I80F48.fromNumber 1500.
Proof.
  assert (Hh : getHealth (rm := TowardZero) 15 (singleMarket I80F48.ONE)
                 priceTenCache restingBidsAccount Init
               = Ok (I80F48.fromNumber 1500))
    by (vm_compute; reflexivity).
  split; [exact Hh|].
  destruct (margin_solvers_guard (rm := TowardZero) 15
              (singleMarket I80F48.ONE) priceTenCache restingBidsAccount 0
              SpotMarket (I80F48.fromNumber 1500) Hh)
    as (_ & Hguard & _ & _ & Hborrow).
  split; [apply Hguard; [reflexivity | vm_compute; discriminate]|].
  destruct (Hborrow (fun _ _ _ => I80F48.fromNumber 10))
    as (_ & _ & scaled & amount & Hscaled & Hamount & Hmax).
  - discriminate.
  - vm_compute. discriminate.
  - reflexivity.
  - vm_compute. discriminate.
  - vm_compute in Hscaled. injection Hscaled as <-.
    vm_compute in Hamount. injection Hamount as <-.
    split; [exact Hmax | discriminate].
Defined.

Lemma liability_monotone_witness :
  resolverDefined demo_group demo_cache demo_account
  /\ borrows demo_account 1 < I80F48.fromNumber 21
  /\ exists h h',
       getHealth (rm := TowardZero) 15 demo_group demo_cache demo_account Init
       = Ok h
       /\ getHealth (rm := TowardZero) 15 demo_group demo_cache
            (withBorrow demo_account 1 (I80F48.fromNumber 21)) Init = Ok h'
       /\ h' < h.
Proof.
  assert (Hdef : resolverDefined demo_group demo_cache demo_account)
    by concrete_defined 2.
  split; [exact Hdef|]. split; [reflexivity|].
  destruct (liability_monotone (rm := TowardZero) 15 demo_group demo_cache
              demo_account Init 1%nat Hdef) as (Hborrow & _).
  - cbn. lia.
  - vm_compute. discriminate.
  - destruct (Hborrow (I80F48.fromNumber 21))
      as (h & h' & Hh & Hh' & _ & Hstrict).
    + discriminate.
    + right. reflexivity.
    + vm_compute. discriminate.
    + reflexivity.
    + vm_compute. discriminate.
    + vm_compute. discriminate.
    + exists h, h'. split; [exact Hh|]. split; [exact Hh'|].
      apply Hstrict; vm_compute; discriminate.
Defined.

Lemma all_zero_snapshot_witness :
  allZero zeroAccount
  /\ resolverDefined (singleMarket w09) priceTenCache zeroAccount
  /\ getHealth (rm := TowardZero) 15 (singleMarket w09) priceTenCache
       zeroAccount Init = Ok I80F48.ZERO
  /\ getHealthRatio (rm := TowardZero) 15 (singleMarket w09) priceTenCache
       zeroAccount Maint = Ok (I80F48.fromNumber 100).
Proof.
  assert (Hz : allZero zeroAccount).
  { split; [intros i; split; reflexivity|]. split; [|intros i; reflexivity].
    intros i oo. cbn. destruct (Nat.eqb i 0); [|discriminate].
    intros [= <-]. reflexivity. }
  assert (Hdef : resolverDefined (singleMarket w09) priceTenCache zeroAccount)
    by concrete_defined 1.
  split; [exact Hz|]. split; [exact Hdef|].
  destruct (all_zero_snapshot (rm := TowardZero) 15 (singleMarket w09)
              priceTenCache zeroAccount Hz Hdef) as (HI & _ & Hratio).
  split; [exact HI | apply Hratio].
Defined.

Lemma weighted_totals_nonneg_witness :
  nonnegMarkets demo_group demo_cache Init
  /\ resolverDefined demo_group demo_cache demo_account
  /\ exists ratio,
       getHealthRatio (rm := TowardNegInf) 15 demo_group demo_cache
         demo_account Init = Ok ratio
       /\ I80F48.fromNumber (-100) <= ratio.
Proof.
  assert (Hnn : nonnegMarkets demo_group demo_cache Init)
    by concrete_nonneg 2.
  assert (Hdef : resolverDefined demo_group demo_cache demo_account)
    by concrete_defined 2.
  split; [exact Hnn|]. split; [exact Hdef|].
  destruct (weighted_totals_nonneg (rm := TowardNegInf) 15 demo_group
              demo_cache demo_account Init Hnn Hdef)
    as (r & al & ratio & _ & _ & _ & _ & Hratio & Hbound).
  exists ratio. split; [exact Hratio | exact Hbound].
Defined.

(** ** Where the statements of the specification fail *)


(** C6 as stated fails: with a spot Init asset weight of exactly one, a
    deposit of 10 at price 2 has Init health 20, and [getAvailableBalance]
    returns 10, not the health; with an asset weight of minus one it divides
    the health -20 by the negative weight and again returns 10; and with an
    Init asset weight of two the buy side of [getMaxLeverageForMarket]
    divides by [1 - 2] and yields -20. *)
Lemma solvers_without_weight_guard :
  I80F48.ONE <= spotInitAssetWeight (spotMarkets (singleMarket I80F48.ONE) 0)
  /\ I80F48.fromNumber 10 <> I80F48.fromNumber 20
  /\ bothRoundings (fun rm =>
       getHealth 15 (singleMarket I80F48.ONE) priceTwoCache depositAccount
         Init = Ok (I80F48.fromNumber 20)
       /\ getAvailableBalance 15 (singleMarket I80F48.ONE) priceTwoCache
            depositAccount 0 = Ok (I80F48.fromNumber 10)
       /\ getHealth 15 (singleMarket (- I80F48.ONE)) priceTwoCache
            depositAccount Init = Ok (I80F48.fromNumber (-20))
       /\ getAvailableBalance 15 (singleMarket (- I80F48.ONE)) priceTwoCache
            depositAccount 0 = Ok (I80F48.fromNumber 10)
       /\ maxLeverageMax Buy (I80F48.fromNumber 20) I80F48.ZERO I80F48.ZERO
            I80F48.ONE (I80F48.fromNumber 2)
          = Ok (I80F48.fromNumber (-20))).
Proof.
  split; [vm_compute; discriminate|]. split; [vm_compute; discriminate|].
  split; repeat split; vm_compute; reflexivity.
Qed.

(** C7 as stated fails, in two ways. With resting bids in the margin
    basket (100 quote locked at price 1, asset weight 0.5, liab weight 1.25)
    raising the borrow from 49 to 51 switches the worst case from bids to
    asks and raises both healths from 25.5 to 36.25. And without resting
    orders, at price 0.25 and liab weight 1.25, raising the borrow balance
    by one unit of the last fractional bit leaves both healths unchanged.
    Both hold in either rounding direction. *)
Lemma borrow_increase_without_health_decrease :
  (0 < spotInitLiabWeight (spotMarkets asymmetricMarket 0)
   /\ 0 < spotMaintLiabWeight (spotMarkets asymmetricMarket 0)
   /\ borrows (bidsAndBorrowAccount 49) 0 < borrows (bidsAndBorrowAccount 51) 0
   /\ 51 * 2 ^ 47 < 145 * 2 ^ 46
   /\ bothRoundings (fun rm => forall ht,
        getHealth 15 asymmetricMarket unitPriceCache (bidsAndBorrowAccount 49)
          ht = Ok (51 * 2 ^ 47)
        /\ getHealth 15 asymmetricMarket unitPriceCache
             (bidsAndBorrowAccount 51) ht = Ok (145 * 2 ^ 46)))
  /\ (0 < spotInitLiabWeight (spotMarkets riskyMarket 0)
      /\ 0 < spotMaintLiabWeight (spotMarkets riskyMarket 0)
      /\ borrows (borrowAccount 1) 0 < borrows (borrowAccount 2) 0
      /\ bothRoundings (fun rm => forall ht,
           exists h,
             getHealth 15 riskyMarket quarterPriceCache (borrowAccount 1) ht
             = Ok h
             /\ getHealth 15 riskyMarket quarterPriceCache (borrowAccount 2)
                  ht = Ok h)).
Proof.
  split.
  - do 4 (split; [vm_compute; reflexivity|]).
    split; intros []; split; vm_compute; reflexivity.
  - do 3 (split; [vm_compute; reflexivity|]).
    split; intros []; eexists; split; vm_compute; reflexivity.
Qed.

(** C8 as stated fails: [health(Init)] of the example is [1000 + 500*w],
    which is 1450 for no fixed-point weight [w]; with the value closest to
    0.9 it is 1450 less 200 units of the last fractional bit. *)
Lemma health_init_not_exactly_1450 :
  bothRoundings (fun rm =>
    getHealth 15 (singleMarket w09) priceTenCache restingBidsAccount Init
    = Ok (I80F48.fromNumber 1450 - 200))
  /\ ~ (exists (rm : Rounding) (w : I80F48.t),
          getHealth 15 (singleMarket w) priceTenCache restingBidsAccount Init
          = Ok (I80F48.fromNumber 1450)).
Proof.
  split; [split; vm_compute; reflexivity|].
  intros (rm & w & H). rewrite restingBids_health in H. injection H as H.
  assert (HM : I80F48.MULTIPLIER = 281474976710656) by reflexivity.
  unfold I80F48.fromNumber in H. rewrite HM in H. lia.
Qed.

(** C10 as stated fails: with a negative asset weight the [assets] total is
    negative and the health ratio is below -100. *)
Lemma negative_weight_totals :
  I80F48.fromNumber (-10) < 0
  /\ I80F48.fromNumber (-300) < I80F48.fromNumber (-100)
  /\ bothRoundings (fun rm =>
       getHealthComponents 15 (singleMarket (- I80F48.ONE)) unitPriceCache
         leveragedAccount
       = Ok {| spot := [I80F48.fromNumber 10]; perps := [I80F48.ZERO];
               quote := I80F48.fromNumber (-5) |}
       /\ getWeightedAssetsLiabsVals (singleMarket (- I80F48.ONE))
            unitPriceCache [I80F48.fromNumber 10] [I80F48.ZERO]
            (I80F48.fromNumber (-5)) (Some Init)
          = Ok {| assets := I80F48.fromNumber (-10);
                  liabs := I80F48.fromNumber 5 |}
       /\ getHealthRatio 15 (singleMarket (- I80F48.ONE)) unitPriceCache
            leveragedAccount Init = Ok (I80F48.fromNumber (-300))).
Proof. repeat split; vm_compute; reflexivity. Qed.

(** * Further properties *)

(** ** Exceptions and bounds of the resolver *)

Lemma forRange_Throw_inv {S : Type} (n : nat) (body : nat -> S -> result S)
    (s : S) (e : Exn) :
  forRange n body s = Throw e ->
  exists i st, (i < n)%nat /\ forRange i body s = Ok st
               /\ body i st = Throw e.
Proof.
  induction n as [|n IH]; intros H; [discriminate H|].
  rewrite forRange_S in H.
  destruct (forRange n body s) as [st|e'] eqn:Hn; cbn [bind] in H.
  - exists n, st. split; [lia|]. split; [exact Hn | exact H].
  - injection H as ->. destruct (IH eq_refl) as (i & st & Hi & Hst & Hb).
    exists i, st. split; [lia|]. split; [exact Hst | exact Hb].
Qed.

Section ResolverExtras.

Context {rm : Rounding}.
Variable QUOTE_INDEX : nat.

(** X1: A zero price for a market that is in the margin basket and has an
    open-orders account makes the resolver throw, and with it every query
    that starts from the resolver: none of [getHealthComponents],
    [getHealth], [getHealthUnweighted], [getHealthRatio],
    [getLiquidationPrice], [isLiquidatable], [getMarketMarginAvailable] and
    [getAvailableBalance] returns, whatever its other arguments. *)
Theorem zero_price_blocks_health_queries (g : EntropyGroup)
    (c : EntropyCache) (a : EntropyAccount) (i : nat) (oo : OpenOrders) :
  (i < numOracles g)%nat -> inMarginBasket a i = true ->
  spotOpenOrdersAccounts a i = Some oo -> price (priceCache c i) = 0 ->
  (forall r, getHealthComponents QUOTE_INDEX g c a <> Ok r)
  /\ (forall healthType health,
        getHealth QUOTE_INDEX g c a healthType <> Ok health)
  /\ (forall health, getHealthUnweighted QUOTE_INDEX g c a <> Ok health)
  /\ (forall healthType ratio,
        getHealthRatio QUOTE_INDEX g c a healthType <> Ok ratio)
  /\ (forall oracleIndex liqPrice,
        getLiquidationPrice QUOTE_INDEX g c a oracleIndex <> Ok liqPrice)
  /\ (forall answer, isLiquidatable QUOTE_INDEX g c a <> Ok answer)
  /\ (forall marketIndex marketType margin,
        getMarketMarginAvailable QUOTE_INDEX g c a marketIndex marketType
        <> Ok margin)
  /\ (forall tokenIndex balance,
        getAvailableBalance QUOTE_INDEX g c a tokenIndex <> Ok balance).
Proof.
  intros Hi Hb Hoo Hzero.
  assert (Hres : forall r, getHealthComponents QUOTE_INDEX g c a <> Ok r).
  { intros r Hr.
    apply (getHealthComponents_Ok_inv QUOTE_INDEX) in Hr.
    exact (Hr i oo Hi Hb Hoo Hzero). }
  assert (Hhealth : forall healthType health,
            getHealth QUOTE_INDEX g c a healthType <> Ok health).
  { intros ht h H. unfold getHealth in H.
    apply bind_Ok_inv in H as (r & Hr & _). exact (Hres r Hr). }
  split; [exact Hres|]. split; [exact Hhealth|].
  split; [|split; [|split; [|split; [|split]]]].
  - intros h H. unfold getHealthUnweighted in H.
    apply bind_Ok_inv in H as (r & Hr & _). exact (Hres r Hr).
  - intros ht x H. unfold getHealthRatio in H.
    apply bind_Ok_inv in H as (r & Hr & _). exact (Hres r Hr).
  - intros o x H. unfold getLiquidationPrice in H.
    apply bind_Ok_inv in H as (r & Hr & _). exact (Hres r Hr).
  - intros answer H. unfold isLiquidatable in H.
    apply bind_Ok_inv in H as (left & Hl & H).
    destruct (beingLiquidated a).
    + apply bind_Ok_inv in Hl as (h & Hh & _). exact (Hhealth _ _ Hh).
    + injection Hl as <-.
      apply bind_Ok_inv in H as (h & Hh & _). exact (Hhealth _ _ Hh).
  - intros m mt x H. unfold getMarketMarginAvailable in H.
    apply bind_Ok_inv in H as (h & Hh & _). exact (Hhealth _ _ Hh).
  - intros t x H. unfold getAvailableBalance in H.
    apply bind_Ok_inv in H as (h & Hh & _). exact (Hhealth _ _ Hh).
Qed.

(** X2: When [getHealthComponents] returns, [spot] and [perps] have exactly
    [numOracles] entries, and the entry of [perps] for a market without a
    registered perp market is zero. *)
Theorem resolver_output_shape (g : EntropyGroup) (c : EntropyCache)
    (a : EntropyAccount) (r : Components) :
  getHealthComponents QUOTE_INDEX g c a = Ok r ->
  length (spot r) = numOracles g
  /\ length (perps r) = numOracles g
  /\ forall i, (i < numOracles g)%nat ->
       equals (perpMarket (perpMarkets g i)) zeroKey = true ->
       perps r !! i = Some I80F48.ZERO.
Proof.
  intros H. apply (getHealthComponents_iff QUOTE_INDEX) in H as [_ ->].
  destruct (resolved_lengths QUOTE_INDEX g c a) as [Hs Hp].
  split; [exact Hs|]. split; [exact Hp|].
  intros i Hi Hzero. rewrite resolved_perps_lookup by exact Hi.
  pose proof (perp_outcome g c a i) as Hout. cbv zeta in Hout.
  rewrite Hzero in Hout. destruct Hout as [-> _]. reflexivity.
Qed.


End ResolverExtras.

(** ** Liquidation price *)

Section LiquidationExtras.

Context {rm : Rounding}.
Variable QUOTE_INDEX : nat.

Lemma fromPow10_nonneg (k : Z) : 0 <= I80F48.fromPow10 k.
Proof.
  pose proof MULTIPLIER_pos as HM. unfold I80F48.fromPow10, I80F48.fromNumber.
  destruct (Z.leb_spec 0 k) as [Hk|Hk].
  - assert (0 < 10 ^ k) by (apply Z.pow_pos_nonneg; lia). nia.
  - apply rdiv_nonneg; [apply Z.pow_pos_nonneg; lia | lia].
Qed.

(** X4: [getLiquidationPrice] gives [undefined] for a market index outside the
    oracle range and for a market in which the account has no resolved
    exposure. *)
Theorem liquidation_price_without_exposure (g : EntropyGroup)
    (c : EntropyCache) (a : EntropyAccount) (oracleIndex : nat)
    (r : Components) :
  getHealthComponents QUOTE_INDEX g c a = Ok r ->
  (numOracles g <= oracleIndex)%nat
  \/ (spot r !! oracleIndex = Some I80F48.ZERO
      /\ perps r !! oracleIndex = Some I80F48.ZERO) ->
  getLiquidationPrice QUOTE_INDEX g c a oracleIndex = Ok None.
Proof.
  intros Hr Hcase. unfold getLiquidationPrice. rewrite Hr. cbn [bind].
  apply (getHealthComponents_iff QUOTE_INDEX) in Hr as [_ ->].
  destruct (resolved_lengths QUOTE_INDEX g c a) as [Hs Hp].
  rewrite (liquidationTerms_closed g c _ oracleIndex Hs Hp). cbn [bind].
  cbn [weightedAsset].
  destruct Hcase as [Hout|[Hspot Hperp]].
  - destruct (Nat.ltb_spec oracleIndex (numOracles g)); [lia|]. reflexivity.
  - destruct (Nat.ltb oracleIndex (numOracles g)); [|reflexivity].
    unfold weightedExposure. cbv zeta.
    rewrite (nthZ_lookup _ _ _ Hspot), (nthZ_lookup _ _ _ Hperp).
    unfold I80F48.ZERO. rewrite !mul_0_l. reflexivity.
Qed.

(** X5: A liquidation price, when there is one, is not negative. *)
Theorem liquidation_price_nonneg (g : EntropyGroup) (c : EntropyCache)
    (a : EntropyAccount) (oracleIndex : nat) (liqPrice : I80F48.t) :
  getLiquidationPrice QUOTE_INDEX g c a oracleIndex = Ok (Some liqPrice) ->
  0 <= liqPrice.
Proof.
  unfold getLiquidationPrice. intros H.
  apply bind_Ok_inv in H as (r & _ & H).
  apply bind_Ok_inv in H as (lt & _ & H).
  destruct (I80F48.isZero (weightedAsset lt)); [discriminate H|].
  apply bind_Ok_inv in H as (q & _ & H).
  unfold I80F48.isNeg in H.
  destruct (Z.ltb_spec q 0) as [|Hq]; [discriminate H|].
  injection H as <-. apply mul_nonneg; [exact Hq|].
  unfold priceDecimalsAdj. apply fromPow10_nonneg.
Qed.

End LiquidationExtras.

(** ** Liquidation price round trip *)

Lemma sumTo_split_at (f : nat -> Z) (n o : nat) :
  (o < n)%nat ->
  sumTo f n = sumTo (fun i => if Nat.eqb i o then 0 else f i) n + f o.
Proof.
  induction n as [|n IH]; intros Ho; [lia|]. cbn [sumTo].
  destruct (Nat.eqb_spec n o) as [->|Hne].
  - rewrite (sumTo_ext f (fun i => if Nat.eqb i o then 0 else f i) o); [lia|].
    intros i Hi. destruct (Nat.eqb_spec i o); [lia | reflexivity].
  - rewrite IH by lia. lia.
Qed.

Lemma abs_mul_le (e w b : Z) :
  Z.abs e <= b -> Z.abs (e * w) <= b * Z.abs w.
Proof.
  intros He. rewrite Z.abs_mul. apply Z.mul_le_mono_nonneg_r; lia.
Qed.

(** Adding up the rounding errors. *)
Lemma residual_sum (M A L W V T a7 a5 a6 a1 a3 a24 : Z) :
  0 < M -> 1 <= A -> 0 <= L -> 0 <= W -> 0 <= V ->
  T = - a7 - (a5 + a6) + a1 + a3 + a24 ->
  Z.abs a7 <= (A - 1) * M -> Z.abs a5 <= L * (M - 1) ->
  Z.abs a6 <= L * (M - 1) -> Z.abs a1 <= (M - 1) * W ->
  Z.abs a3 <= (M - 1) * V -> Z.abs a24 <= 2 * (M - 1) * M ->
  Z.abs T < M * (A + 2 * L + W + V + 2 * M).
Proof.
  intros HM HA HL HW HV -> B7 B5 B6 B1 B3 B24.
  replace ((A - 1) * M) with (M * A - M) in B7 by ring.
  replace (L * (M - 1)) with (M * L - L) in B5, B6 by ring.
  replace ((M - 1) * W) with (M * W - W) in B1 by ring.
  replace ((M - 1) * V) with (M * V - V) in B3 by ring.
  replace (2 * (M - 1) * M) with (2 * (M * M) - 2 * M) in B24 by ring.
  replace (M * (A + 2 * L + W + V + 2 * M))
    with (M * A + 2 * (M * L) + M * W + M * V + 2 * (M * M)) by ring.
  generalize dependent (M * A). generalize dependent (M * L).
  generalize dependent (M * W). generalize dependent (M * V).
  generalize dependent (M * M). intros. lia.
Qed.

Section RoundTrip.

Context {rm : Rounding}.
Variable QUOTE_INDEX : nat.

(** Rounded division is off by less than the divisor. *)
Lemma rdiv_error (x c : Z) :
  c <> 0 -> Z.abs (I80F48.rdiv x c * c - x) < Z.abs c.
Proof.
  intros Hc. unfold I80F48.rdiv. destruct rm.
  - pose proof (Z.quot_rem' x c) as Hq.
    pose proof (Z.rem_bound_abs x c Hc) as Hr. lia.
  - pose proof (Z.div_mod x c Hc) as Hq.
    destruct (Z.lt_trichotomy c 0) as [Hneg|[H0|Hpos]]; [|contradiction|].
    + pose proof (Z.mod_neg_bound x c Hneg). lia.
    + pose proof (Z.mod_pos_bound x c Hpos). lia.
Qed.

Lemma mul_error (x y : I80F48.t) :
  Z.abs (I80F48.mul x y * I80F48.MULTIPLIER - x * y) < I80F48.MULTIPLIER.
Proof.
  pose proof MULTIPLIER_pos as HM.
  pose proof (rdiv_error (x * y) I80F48.MULTIPLIER ltac:(lia)) as H.
  unfold I80F48.mul. lia.
Qed.

(** The arithmetic of the round trip: with [wa] the negated weighted
    exposure and [lp = ph / wa] the solved price, the health recomputed at
    price [lp] is zero up to the rounding of the multiplications and the
    division involved. *)
Lemma solved_price_residual (s p ws wp ph wa lp : I80F48.t) :
  wa = I80F48.neg (I80F48.add (I80F48.mul s ws) (I80F48.mul p wp)) ->
  wa <> 0 -> I80F48.div ph wa = Ok lp -> 0 <= lp ->
  I80F48.MULTIPLIER
  * Z.abs (ph + I80F48.mul (I80F48.mul s lp) ws
           + I80F48.mul (I80F48.mul p lp) wp)
  < Z.abs wa + 2 * lp + Z.abs ws + Z.abs wp + 2 * I80F48.MULTIPLIER.
Proof.
  intros Hwa Hnz Hdiv Hlp. pose proof MULTIPLIER_pos as HM.
  rewrite div_Ok in Hdiv by exact Hnz. injection Hdiv as Hdiv.
  pose proof (rdiv_error (ph * I80F48.MULTIPLIER) wa Hnz) as E7.
  rewrite Hdiv in E7.
  pose proof (mul_error s lp) as E1.
  pose proof (mul_error (I80F48.mul s lp) ws) as E2.
  pose proof (mul_error p lp) as E3.
  pose proof (mul_error (I80F48.mul p lp) wp) as E4.
  pose proof (mul_error s ws) as E5.
  pose proof (mul_error p wp) as E6.
  unfold I80F48.neg, I80F48.add in Hwa.
  remember (I80F48.mul s lp) as s1 eqn:Es1.
  remember (I80F48.mul p lp) as p1 eqn:Ep1.
  remember (I80F48.mul s1 ws) as S eqn:ES.
  remember (I80F48.mul p1 wp) as P eqn:EP.
  remember (I80F48.mul s ws) as u eqn:Eu.
  remember (I80F48.mul p wp) as v eqn:Ev.
  remember I80F48.MULTIPLIER as M eqn:EM.
  clear Es1 Ep1 ES EP Eu Ev EM Hdiv.
  assert (Hid : (ph + S + P) * M * M
                = - ((lp * wa - ph * M) * M)
                  - (lp * (u * M - s * ws) + lp * (v * M - p * wp))
                  + (s1 * M - s * lp) * ws + (p1 * M - p * lp) * wp
                  + ((S * M - s1 * ws) + (P * M - p1 * wp)) * M)
    by (rewrite Hwa; ring).
  assert (Hbig : Z.abs ((ph + S + P) * M * M)
                 < M * (Z.abs wa + 2 * lp + Z.abs ws + Z.abs wp + 2 * M)).
  { apply (residual_sum M (Z.abs wa) lp (Z.abs ws) (Z.abs wp) _ _ _ _ _ _ _
             HM ltac:(lia) Hlp ltac:(lia) ltac:(lia) Hid).
    - pose proof (abs_mul_le (lp * wa - ph * M) M (Z.abs wa - 1)
                    ltac:(lia)) as B.
      rewrite (Z.abs_eq M) in B by lia. exact B.
    - rewrite Z.abs_mul, (Z.abs_eq lp) by lia.
      apply Z.mul_le_mono_nonneg_l; lia.
    - rewrite Z.abs_mul, (Z.abs_eq lp) by lia.
      apply Z.mul_le_mono_nonneg_l; lia.
    - apply abs_mul_le. lia.
    - apply abs_mul_le. lia.
    - pose proof (abs_mul_le (S * M - s1 * ws + (P * M - p1 * wp)) M
                    (2 * (M - 1)) ltac:(lia)) as B.
      rewrite (Z.abs_eq M) in B by lia. exact B. }
  rewrite !Z.abs_mul, (Z.abs_eq M) in Hbig by lia.
  apply (Z.mul_lt_mono_pos_l M); [exact HM|].
  replace (M * (M * Z.abs (ph + S + P)))
    with (Z.abs (ph + S + P) * M * M) by ring.
  exact Hbig.
Qed.

Lemma marketHealth_withPrice_ne (g : EntropyGroup) (c : EntropyCache)
    (ht : HealthType) (spot perps : list I80F48.t) (o i : nat)
    (p : I80F48.t) :
  i <> o ->
  marketHealth g (withPrice c o p) ht spot perps i
  = marketHealth g c ht spot perps i.
Proof.
  intros Hne. unfold marketHealth, withPrice. cbn [priceCache].
  destruct (Nat.eqb_spec i o); [contradiction | reflexivity].
Qed.

(** X6: Round trip of the liquidation price: the price [getLiquidationPrice]
    returns is a solved price [lp] times the decimals factor (so it is [lp]
    itself when the two tokens have the same decimals), and with the price
    of the market replaced by [lp] the Maint health of the resolved
    components is zero up to rounding: in units of the last fractional bit
    it is below 2 plus the sum of the weighted exposure, twice the price
    and the two risk weights applied. *)
Theorem liquidation_price_round_trip (g : EntropyGroup) (c : EntropyCache)
    (a : EntropyAccount) (oracleIndex : nat) (liqPrice : I80F48.t) :
  getLiquidationPrice QUOTE_INDEX g c a oracleIndex = Ok (Some liqPrice) ->
  exists r lp health,
    getHealthComponents QUOTE_INDEX g c a = Ok r
    /\ liqPrice = I80F48.mul lp (priceDecimalsAdj QUOTE_INDEX g oracleIndex)
    /\ (decimals (tokens g oracleIndex) = decimals (tokens g QUOTE_INDEX) ->
        liqPrice = lp)
    /\ 0 <= lp
    /\ getHealthFromComponents g (withPrice c oracleIndex lp) (spot r)
         (perps r) (quote r) Maint = Ok health
    /\ let w := getWeights g oracleIndex (Some Maint) in
       let s := nthZ (spot r) oracleIndex in
       let p := nthZ (perps r) oracleIndex in
       let ws :=
         if I80F48.isPos s then spotAssetWeight w else spotLiabWeight w in
       let wp :=
         if I80F48.isPos p then perpAssetWeight w else perpLiabWeight w in
       I80F48.MULTIPLIER * Z.abs health
       < Z.abs (weightedExposure g (spot r) (perps r) oracleIndex)
         + 2 * lp + Z.abs ws + Z.abs wp + 2 * I80F48.MULTIPLIER.
Proof.
  unfold getLiquidationPrice. intros H.
  apply bind_Ok_inv in H as (r & Hr & H).
  pose proof Hr as Hr'.
  apply (getHealthComponents_iff QUOTE_INDEX) in Hr' as [_ Er].
  destruct (resolved_lengths QUOTE_INDEX g c a) as [Hs Hp].
  rewrite <- Er in Hs, Hp.
  rewrite (liquidationTerms_closed g c r oracleIndex Hs Hp) in H.
  cbn [bind partialHealth weightedAsset] in H.
  unfold I80F48.isZero, I80F48.eq, I80F48.ZERO in H.
  destruct (Nat.ltb_spec oracleIndex (numOracles g)) as [Ho|Ho];
    [|discriminate H].
  destruct (Z.eqb_spec (weightedExposure g (spot r) (perps r) oracleIndex) 0)
    as [|Hnz]; [discriminate H|].
  destruct (I80F48.div _ _) as [lp|e] eqn:Hdiv in H; [|discriminate H].
  cbn [bind] in H. unfold I80F48.isNeg in H.
  destruct (Z.ltb_spec lp 0) as [|Hlp]; [discriminate H|].
  injection H as <-.
  exists r, lp.
  assert (Hs' : length (spot r) = numOracles g) by exact Hs.
  rewrite (getHealthFromComponents_closed g (withPrice c oracleIndex lp)
             (spot r) (perps r) (quote r) Maint Hs Hp).
  eexists. split; [exact Hr|]. split; [reflexivity|].
  split.
  { intros Hdec. unfold priceDecimalsAdj. rewrite Hdec, Z.sub_diag.
    change (I80F48.fromPow10 0) with (I80F48.fromNumber 1).
    rewrite mul_fromNumber_r. lia. }
  split; [exact Hlp|]. split; [reflexivity|].
  cbv zeta.
  rewrite (sumTo_split_at _ _ oracleIndex Ho).
  rewrite (sumTo_ext
             (fun i => if Nat.eqb i oracleIndex then 0
                       else marketHealth g (withPrice c oracleIndex lp) Maint
                              (spot r) (perps r) i)
             (fun i => if Nat.eqb i oracleIndex then 0
                       else marketHealth g c Maint (spot r) (perps r) i)).
  2:{ intros i _. destruct (Nat.eqb_spec i oracleIndex) as [|Hne];
        [reflexivity|]. apply marketHealth_withPrice_ne. exact Hne. }
  rewrite Z.add_assoc.
  unfold marketHealth at 2, spotHealthOf, perpHealthOf, withPrice.
  cbn [priceCache price]. rewrite Nat.eqb_refl. cbn [price].
  rewrite Z.add_assoc.
  apply solved_price_residual; [reflexivity | exact Hnz | exact Hdiv |
                                exact Hlp].
Qed.

End RoundTrip.

(** ** Margin available and available balance *)

Lemma min_spec (x y : I80F48.t) : I80F48.min x y = Z.min x y.
Proof.
  unfold I80F48.min, I80F48.lte. destruct (Z.leb_spec x y); lia.
Qed.

Lemma max_spec (x y : I80F48.t) : I80F48.max x y = Z.max x y.
Proof.
  unfold I80F48.max, I80F48.gte. destruct (Z.leb_spec y x); lia.
Qed.

Section SolverExtras.

Context {rm : Rounding}.
Variable QUOTE_INDEX : nat.

(** X7: Whenever [getMarketMarginAvailable] returns, the margin is never
    negative, it is zero for an account whose Init health is not positive,
    and for an asset weight that is not negative it is at least the Init
    health. *)
Theorem margin_available_bounds (g : EntropyGroup) (c : EntropyCache)
    (a : EntropyAccount) (marketIndex : nat) (marketType : MarketType)
    (margin : I80F48.t) :
  getMarketMarginAvailable QUOTE_INDEX g c a marketIndex marketType
  = Ok margin ->
  exists health,
    getHealth QUOTE_INDEX g c a Init = Ok health
    /\ 0 <= margin
    /\ (health <= 0 -> margin = 0)
    /\ (0 <= match marketType with
             | SpotMarket =>
                 spotAssetWeight (getWeights g marketIndex (Some Init))
             | PerpMarket =>
                 perpAssetWeight (getWeights g marketIndex (Some Init))
             end ->
        health <= margin).
Proof.
  unfold getMarketMarginAvailable. intros H.
  apply bind_Ok_inv in H as (health & Hh & H).
  exists health. split; [exact Hh|].
  unfold I80F48.lte, I80F48.gte, I80F48.ZERO, I80F48.ONE, I80F48.sub in H.
  destruct (Z.leb_spec health 0) as [Hle|Hpos].
  { injection H as <-. repeat split; lia. }
  set (weight := match marketType with
                 | SpotMarket => _ | PerpMarket => _ end) in *.
  clearbody weight.
  pose proof MULTIPLIER_pos as HM.
  destruct (Z.leb_spec I80F48.MULTIPLIER weight) as [Hge|Hlt].
  { injection H as <-. repeat split; lia. }
  rewrite div_Ok in H by lia. injection H as <-.
  split; [apply rdiv_nonneg; nia|]. split; [lia|].
  intros Hw0.
  rewrite <- (rdiv_mul_exact health (I80F48.MULTIPLIER - weight)) at 1
    by lia.
  apply rdiv_le_mono; nia.
Qed.

(** X8: [getAvailableBalance] never returns a negative amount nor more than the
    net balance of the token (or zero when that is negative), and it returns
    zero for an account whose Init health is not positive, given a positive
    asset weight and price for a token other than the quote currency. *)
Theorem available_balance_bounds (g : EntropyGroup) (c : EntropyCache)
    (a : EntropyAccount) (tokenIndex : nat) (balance : I80F48.t) :
  getAvailableBalance QUOTE_INDEX g c a tokenIndex = Ok balance ->
  exists health,
    getHealth QUOTE_INDEX g c a Init = Ok health
    /\ 0 <= balance
    /\ balance
       <= Z.max 0 (getNet a (rootBankCache c tokenIndex) tokenIndex)
    /\ (tokenIndex = QUOTE_INDEX -> balance <= Z.max 0 health)
    /\ (health <= 0 ->
        tokenIndex = QUOTE_INDEX
        \/ (0 < spotAssetWeight (getWeights g tokenIndex (Some Init))
            /\ 0 < price (priceCache c tokenIndex)) ->
        balance = 0).
Proof.
  unfold getAvailableBalance. intros H.
  apply bind_Ok_inv in H as (health & Hh & H).
  exists health. split; [exact Hh|].
  destruct (Nat.eqb_spec tokenIndex QUOTE_INDEX) as [Heq|Hne].
  { injection H as <-. rewrite max_spec, min_spec.
    unfold I80F48.ZERO. repeat split; lia. }
  apply bind_Ok_inv in H as (byWeight & Hw & H).
  apply bind_Ok_inv in H as (byPrice & Hp & H).
  injection H as <-. rewrite max_spec, min_spec. unfold I80F48.ZERO.
  split; [lia|]. split; [lia|]. split; [intros ->; contradiction|].
  intros Hle [->|[Hw0 Hp0]]; [contradiction|].
  rewrite div_Ok in Hw by lia. injection Hw as <-.
  rewrite div_Ok in Hp by lia. injection Hp as <-.
  pose proof MULTIPLIER_pos as HM.
  assert (I80F48.rdiv (health * I80F48.MULTIPLIER)
            (spotAssetWeight (getWeights g tokenIndex (Some Init))) <= 0)
    by (apply rdiv_nonpos; nia).
  assert (I80F48.rdiv
            (I80F48.rdiv (health * I80F48.MULTIPLIER)
               (spotAssetWeight (getWeights g tokenIndex (Some Init)))
             * I80F48.MULTIPLIER)
            (price (priceCache c tokenIndex)) <= 0)
    by (apply rdiv_nonpos; nia).
  cbn [getWeights spotAssetWeight] in *. lia.
Qed.

(** X9: For a token other than the quote currency whose Init asset weight
    or whose price is zero, [getAvailableBalance] divides by zero: it never
    returns, whatever the account holds. *)
Theorem available_balance_zero_divisor (g : EntropyGroup) (c : EntropyCache)
    (a : EntropyAccount) (tokenIndex : nat) :
  tokenIndex <> QUOTE_INDEX ->
  spotAssetWeight (getWeights g tokenIndex (Some Init)) = 0
  \/ price (priceCache c tokenIndex) = 0 ->
  forall balance,
    getAvailableBalance QUOTE_INDEX g c a tokenIndex <> Ok balance.
Proof.
  intros Hne Hzero balance H. unfold getAvailableBalance in H.
  apply bind_Ok_inv in H as (health & _ & H).
  destruct (Nat.eqb_spec tokenIndex QUOTE_INDEX) as [Heq|_];
    [contradiction|].
  apply bind_Ok_inv in H as (byWeight & Hw & H).
  apply bind_Ok_inv in H as (byPrice & Hp & _).
  unfold I80F48.div in Hw, Hp.
  destruct Hzero as [Hz|Hz]; rewrite Hz in *.
  - discriminate Hw.
  - discriminate Hp.
Qed.

End SolverExtras.

(** ** Health against the weighted assets and liabilities *)

Lemma sumTo_sub (f h : nat -> Z) (n : nat) :
  sumTo (fun i => f i - h i) n = sumTo f n - sumTo h n.
Proof.
  induction n as [|n IH]; cbn [sumTo]; lia.
Qed.

Lemma mul_opp_l_TowardZero (a b : I80F48.t) :
  @I80F48.mul TowardZero (- a) b = - @I80F48.mul TowardZero a b.
Proof.
  unfold I80F48.mul, I80F48.rdiv. rewrite Z.mul_opp_l.
  apply Z.quot_opp_l. pose proof MULTIPLIER_pos. lia.
Qed.

Lemma mul_opp_l_le {rm : Rounding} (a b : I80F48.t) :
  I80F48.mul a b + I80F48.mul (- a) b <= 0.
Proof.
  pose proof MULTIPLIER_pos as HM.
  unfold I80F48.mul, I80F48.rdiv. rewrite Z.mul_opp_l.
  destruct rm.
  - rewrite Z.quot_opp_l by lia. lia.
  - pose proof (Z.div_mod (a * b) I80F48.MULTIPLIER ltac:(lia)).
    pose proof (Z.mod_pos_bound (a * b) I80F48.MULTIPLIER HM).
    pose proof (Z.div_mod (- (a * b)) I80F48.MULTIPLIER ltac:(lia)).
    pose proof (Z.mod_pos_bound (- (a * b)) I80F48.MULTIPLIER HM).
    nia.
Qed.

Lemma mul_le_mono_r_nonneg {rm : Rounding} (x w w' : I80F48.t) :
  0 <= x -> w <= w' -> I80F48.mul x w <= I80F48.mul x w'.
Proof.
  intros Hx Hw. apply rdiv_le_mono; [apply MULTIPLIER_pos | nia].
Qed.

Lemma mul_le_mono_r_nonpos {rm : Rounding} (x w w' : I80F48.t) :
  x <= 0 -> w <= w' -> I80F48.mul x w' <= I80F48.mul x w.
Proof.
  intros Hx Hw. apply rdiv_le_mono; [apply MULTIPLIER_pos | nia].
Qed.

Lemma mul_ONE_r {rm : Rounding} (x : I80F48.t) :
  I80F48.mul x I80F48.ONE = x.
Proof.
  apply rdiv_mul_exact. pose proof MULTIPLIER_pos. unfold I80F48.ONE. lia.
Qed.

(** A liability valued through [neg] is at least the liability in the
    health. *)
Lemma weighted_liability_le {rm : Rounding} (s p w : I80F48.t) :
  0 <= w ->
  I80F48.mul (I80F48.mul s p) w
  <= - I80F48.mul (I80F48.mul (I80F48.neg s) p) w.
Proof.
  intros Hw. unfold I80F48.neg.
  pose proof (mul_opp_l_le s p) as H1.
  pose proof (mul_opp_l_le (I80F48.mul (- s) p) w) as H2.
  assert (H0 : I80F48.mul s p <= - I80F48.mul (- s) p) by lia.
  pose proof (mul_le_mono_l _ _ w H0 Hw) as H3.
  lia.
Qed.

Lemma marketHealth_le_net {rm : Rounding} (g : EntropyGroup)
    (c : EntropyCache) (ht : HealthType) (spot perps : list I80F48.t)
    (i : nat) :
  0 <= spotLiabWeight (getWeights g i (Some ht)) ->
  0 <= perpLiabWeight (getWeights g i (Some ht)) ->
  marketHealth g c ht spot perps i
  <= assetTerm g c (Some ht) spot perps i
     - liabTerm g c (Some ht) spot perps i.
Proof.
  intros Hs Hp. unfold marketHealth, assetTerm, liabTerm, spotHealthOf,
    perpHealthOf. cbv zeta.
  pose proof (weighted_liability_le (nthZ spot i) (price (priceCache c i))
                _ Hs) as H1.
  pose proof (weighted_liability_le (nthZ perps i) (price (priceCache c i))
                _ Hp) as H2.
  destruct (I80F48.isPos (nthZ spot i)), (I80F48.isPos (nthZ perps i)); lia.
Qed.

Lemma marketHealth_eq_net (g : EntropyGroup) (c : EntropyCache)
    (ht : HealthType) (spot perps : list I80F48.t) (i : nat) :
  @marketHealth TowardZero g c ht spot perps i
  = @assetTerm TowardZero g c (Some ht) spot perps i
    - @liabTerm TowardZero g c (Some ht) spot perps i.
Proof.
  unfold marketHealth, assetTerm, liabTerm, spotHealthOf, perpHealthOf,
    I80F48.neg. cbv zeta.
  rewrite !mul_opp_l_TowardZero.
  destruct (I80F48.isPos (nthZ spot i)), (I80F48.isPos (nthZ perps i)); lia.
Qed.

(** The totals of the two aggregators on the same components. *)
Lemma components_health_net (rm : Rounding) (g : EntropyGroup)
    (c : EntropyCache) (ht : HealthType) (spot perps : list I80F48.t)
    (quote : I80F48.t) :
  let health := quote + sumTo (marketHealth g c ht spot perps) (numOracles g)
  in
  let net :=
    ((if I80F48.isPos quote then quote else 0)
     + sumTo (assetTerm g c (Some ht) spot perps) (numOracles g))
    - ((if I80F48.isPos quote then 0 else - quote)
       + sumTo (liabTerm g c (Some ht) spot perps) (numOracles g)) in
  (rm = TowardZero -> health = net)
  /\ (liabWeightsNonneg g ht -> health <= net).
Proof.
  cbv zeta.
  assert (Hq : (if I80F48.isPos quote then quote else 0)
               - (if I80F48.isPos quote then 0 else - quote) = quote)
    by (destruct (I80F48.isPos quote); lia).
  split.
  - intros ->.
    rewrite (sumTo_ext _ _ _
               (fun i _ => marketHealth_eq_net g c ht spot perps i)).
    rewrite sumTo_sub. lia.
  - intros Hw.
    pose proof (sumTo_le (marketHealth g c ht spot perps)
                  (fun i => assetTerm g c (Some ht) spot perps i
                            - liabTerm g c (Some ht) spot perps i)
                  (numOracles g)) as Hle.
    rewrite sumTo_sub in Hle.
    specialize (Hle (fun i Hi =>
                       marketHealth_le_net g c ht spot perps i
                         (proj1 (Hw i Hi)) (proj2 (Hw i Hi)))).
    lia.
Qed.

(** X10: The health is the weighted assets minus the weighted liabilities of
    [getWeightedAssetsLiabsVals] on the same components: exactly when
    products are rounded toward zero, and from below in either rounding
    direction when the liab weights are not negative. *)
Theorem health_against_assets_liabs (rm : Rounding) (QUOTE_INDEX : nat)
    (g : EntropyGroup) (c : EntropyCache) (a : EntropyAccount)
    (ht : HealthType) (health : I80F48.t) :
  getHealth QUOTE_INDEX g c a ht = Ok health ->
  exists r al,
    getHealthComponents QUOTE_INDEX g c a = Ok r
    /\ getWeightedAssetsLiabsVals g c (spot r) (perps r) (quote r) (Some ht)
       = Ok al
    /\ (rm = TowardZero -> health = assets al - liabs al)
    /\ (liabWeightsNonneg g ht -> health <= assets al - liabs al).
Proof.
  unfold getHealth. intros H.
  apply bind_Ok_inv in H as (r & Hr & H).
  pose proof Hr as Hr'.
  apply (getHealthComponents_iff QUOTE_INDEX) in Hr' as [_ Er].
  destruct (resolved_lengths QUOTE_INDEX g c a) as [Hs Hp].
  rewrite <- Er in Hs, Hp.
  rewrite (getHealthFromComponents_closed g c _ _ _ ht Hs Hp) in H.
  injection H as <-.
  exists r. eexists. split; [exact Hr|].
  split; [apply (getWeightedAssetsLiabsVals_closed g c _ _ _ _ Hs Hp)|].
  cbn [assets liabs].
  apply (components_health_net rm g c ht (spot r) (perps r) (quote r)).
Qed.

(** X11: The health ratio and the health agree on who is under water: with liab
    weights that are not negative, a negative ratio comes with a negative
    health; when products are rounded toward zero and neither a price nor a
    weight is negative, the ratio is negative exactly when the health
    is. *)
Theorem health_ratio_sign (rm : Rounding) (QUOTE_INDEX : nat)
    (g : EntropyGroup) (c : EntropyCache) (a : EntropyAccount)
    (ht : HealthType) (ratio : I80F48.t) :
  getHealthRatio QUOTE_INDEX g c a ht = Ok ratio ->
  exists health,
    getHealth QUOTE_INDEX g c a ht = Ok health
    /\ (liabWeightsNonneg g ht -> ratio < 0 -> health < 0)
    /\ (rm = TowardZero -> nonnegMarkets g c ht ->
        (ratio < 0 <-> health < 0)).
Proof.
  unfold getHealthRatio, getHealth. intros H.
  apply bind_Ok_inv in H as (r & Hr & H). rewrite Hr. cbn [bind].
  pose proof Hr as Hr'.
  apply (getHealthComponents_iff QUOTE_INDEX) in Hr' as [_ Er].
  destruct (resolved_lengths QUOTE_INDEX g c a) as [Hs Hp].
  rewrite <- Er in Hs, Hp.
  rewrite (getHealthFromComponents_closed g c _ _ _ ht Hs Hp).
  rewrite (getWeightedAssetsLiabsVals_closed g c _ _ _ _ Hs Hp) in H.
  cbn [bind assets liabs] in H.
  destruct (components_health_net rm g c ht (spot r) (perps r) (quote r))
    as [Heq Hle].
  cbv zeta in Heq, Hle.
  pose proof MULTIPLIER_pos as HM.
  assert (Hassets : nonnegMarkets g c ht ->
            0 <= (if I80F48.isPos (quote r) then quote r else 0)
                 + sumTo (assetTerm g c (Some ht) (spot r) (perps r))
                     (numOracles g)).
  { intros Hnn.
    pose proof (sumTo_nonneg (assetTerm g c (Some ht) (spot r) (perps r))
                  (numOracles g)
                  (fun i Hi => assetTerm_nonneg g c ht _ _ i Hnn Hi)).
    destruct (isPos_spec (quote r)) as [[-> ?]|[-> ?]]; lia. }
  set (A := (if I80F48.isPos (quote r) then quote r else 0)
            + sumTo (assetTerm g c (Some ht) (spot r) (perps r))
                (numOracles g)) in *.
  set (L := (if I80F48.isPos (quote r) then 0 else - quote r)
            + sumTo (liabTerm g c (Some ht) (spot r) (perps r))
                (numOracles g)) in *.
  set (h := quote r
            + sumTo (marketHealth g c ht (spot r) (perps r))
                (numOracles g)) in *.
  clearbody A L h.
  exists h. split; [reflexivity|].
  unfold I80F48.gt, I80F48.ZERO in H.
  destruct (Z.ltb_spec 0 L) as [HL|HL].
  - rewrite div_Ok in H by lia. cbn [bind] in H. injection H as <-.
    rewrite mul_fromNumber_r. unfold I80F48.sub, I80F48.ONE.
    assert (Hq : I80F48.rdiv (A * I80F48.MULTIPLIER) L < I80F48.MULTIPLIER
                 -> A < L).
    { intros Hlt. destruct (Z.lt_ge_cases A L) as [|Hge]; [assumption|].
      pose proof (rdiv_le_mono (I80F48.MULTIPLIER * L)
                    (A * I80F48.MULTIPLIER) L HL ltac:(nia)) as Hm.
      rewrite rdiv_mul_exact in Hm by lia. lia. }
    split.
    + intros Hw Hr0. specialize (Hle Hw). lia.
    + intros -> Hnn. specialize (Heq eq_refl). specialize (Hassets Hnn).
      split; [intros Hr0; lia|].
      intros Hh.
      assert (@I80F48.rdiv TowardZero (A * I80F48.MULTIPLIER) L
              < I80F48.MULTIPLIER).
      { unfold I80F48.rdiv. apply Z.quot_lt_upper_bound; nia. }
      lia.
  - injection H as <-. unfold I80F48.fromNumber.
    split; [intros _ ?; lia|].
    intros -> Hnn. specialize (Heq eq_refl). specialize (Hassets Hnn).
    split; intros ?; lia.
Qed.

(** ** Init against Maint health *)

Lemma marketHealth_init_le_maint {rm : Rounding} (g : EntropyGroup)
    (c : EntropyCache) (spot perps : list I80F48.t) (i : nat) :
  conservativeInit g c -> (i < numOracles g)%nat ->
  marketHealth g c Init spot perps i <= marketHealth g c Maint spot perps i.
Proof.
  intros Hc Hi. destruct (Hc i Hi) as (Hp & Hsa & Hsl & Hpa & Hpl).
  unfold marketHealth, spotHealthOf, perpHealthOf.
  cbn [getWeights spotAssetWeight spotLiabWeight perpAssetWeight
         perpLiabWeight].
  apply Z.add_le_mono.
  - destruct (isPos_spec (nthZ spot i)) as [[-> Hs]|[-> Hs]].
    + apply mul_le_mono_r_nonneg; [apply mul_nonneg; lia | exact Hsa].
    + apply mul_le_mono_r_nonpos; [apply mul_nonpos; lia | exact Hsl].
  - destruct (isPos_spec (nthZ perps i)) as [[-> Hs]|[-> Hs]].
    + apply mul_le_mono_r_nonneg; [apply mul_nonneg; lia | exact Hpa].
    + apply mul_le_mono_r_nonpos; [apply mul_nonpos; lia | exact Hpl].
Qed.

Lemma getHealth_init_le_maint {rm : Rounding} (QUOTE_INDEX : nat)
    (g : EntropyGroup) (c : EntropyCache) (a : EntropyAccount) :
  conservativeInit g c -> resolverDefined g c a ->
  exists hInit hMaint,
    getHealth QUOTE_INDEX g c a Init = Ok hInit
    /\ getHealth QUOTE_INDEX g c a Maint = Ok hMaint
    /\ hInit <= hMaint.
Proof.
  intros Hc Hd.
  rewrite !(getHealth_defined QUOTE_INDEX g c a _ Hd).
  eexists _, _. split; [reflexivity|]. split; [reflexivity|].
  apply Z.add_le_mono_l. apply sumTo_le. intros i Hi.
  apply marketHealth_init_le_maint; assumption.
Qed.

(** X12: When no price is negative and the Init weights are at least as
    conservative as the Maint weights, the Init health is at most the Maint
    health: an account with negative Maint health has negative Init health,
    and an account with Init health that is not negative is not
    liquidatable. *)
Theorem init_health_below_maint (rm : Rounding) (QUOTE_INDEX : nat)
    (g : EntropyGroup) (c : EntropyCache) (a : EntropyAccount)
    (hInit : I80F48.t) :
  conservativeInit g c ->
  getHealth QUOTE_INDEX g c a Init = Ok hInit ->
  exists hMaint,
    getHealth QUOTE_INDEX g c a Maint = Ok hMaint
    /\ hInit <= hMaint
    /\ (0 <= hInit -> isLiquidatable QUOTE_INDEX g c a = Ok false).
Proof.
  intros Hc Hh.
  pose proof (getHealth_Ok_inv QUOTE_INDEX g c a Init hInit Hh) as Hd.
  destruct (getHealth_init_le_maint QUOTE_INDEX g c a Hc Hd)
    as (hI & hM & HI & HM & Hle).
  rewrite Hh in HI. injection HI as <-.
  exists hM. split; [exact HM|]. split; [exact Hle|].
  intros Hpos. unfold isLiquidatable. rewrite Hh, HM. cbn [bind].
  unfold I80F48.isNeg.
  destruct (Z.ltb_spec hInit 0); [lia|].
  destruct (Z.ltb_spec hM 0); [lia|].
  destruct (beingLiquidated a); reflexivity.
Qed.

(** X13: When no price is negative and the Init weights are at least as
    conservative as the Maint weights, a liquidatable account has no margin
    available in any market and no quote currency available to withdraw. *)
Theorem liquidatable_has_no_margin (rm : Rounding) (QUOTE_INDEX : nat)
    (g : EntropyGroup) (c : EntropyCache) (a : EntropyAccount) :
  conservativeInit g c ->
  isLiquidatable QUOTE_INDEX g c a = Ok true ->
  (forall marketIndex marketType,
     getMarketMarginAvailable QUOTE_INDEX g c a marketIndex marketType
     = Ok I80F48.ZERO)
  /\ getAvailableBalance QUOTE_INDEX g c a QUOTE_INDEX = Ok I80F48.ZERO.
Proof.
  intros Hc Hliq.
  assert (Hd : resolverDefined g c a).
  { unfold isLiquidatable in Hliq.
    apply bind_Ok_inv in Hliq as (left & Hl & Hliq).
    destruct (beingLiquidated a).
    - apply bind_Ok_inv in Hl as (h & Hh & _).
      exact (getHealth_Ok_inv QUOTE_INDEX g c a Init h Hh).
    - injection Hl as <-.
      apply bind_Ok_inv in Hliq as (h & Hh & _).
      exact (getHealth_Ok_inv QUOTE_INDEX g c a Maint h Hh). }
  destruct (getHealth_init_le_maint QUOTE_INDEX g c a Hc Hd)
    as (hI & hM & HI & HM & Hle).
  assert (Hneg : hI < 0).
  { unfold isLiquidatable in Hliq. rewrite HI, HM in Hliq.
    cbn [bind] in Hliq. unfold I80F48.isNeg in Hliq.
    destruct (Z.ltb_spec hI 0); [assumption|].
    destruct (Z.ltb_spec hM 0); [lia|].
    destruct (beingLiquidated a); discriminate Hliq. }
  split.
  - intros marketIndex marketType. unfold getMarketMarginAvailable.
    rewrite HI. cbn [bind]. unfold I80F48.lte, I80F48.ZERO.
    destruct (Z.leb_spec hI 0); [reflexivity | lia].
  - unfold getAvailableBalance. rewrite HI. cbn [bind].
    rewrite Nat.eqb_refl, max_spec, min_spec. unfold I80F48.ZERO.
    f_equal. lia.
Qed.

(** ** Unweighted health *)

Lemma getHealthFromComponentsUnweighted_closed {rm : Rounding}
    (g : EntropyGroup) (c : EntropyCache) (spot perps : list I80F48.t)
    (quote : I80F48.t) :
  length spot = numOracles g -> length perps = numOracles g ->
  getHealthFromComponentsUnweighted g c spot perps quote
  = Ok (quote
        + sumTo (fun i =>
                   I80F48.mul (nthZ spot i) (price (priceCache c i))
                   + I80F48.mul (nthZ perps i) (price (priceCache c i)))
            (numOracles g)).
Proof.
  intros Hs Hp. unfold getHealthFromComponentsUnweighted.
  destruct (forRange_invariant
              (fun k h =>
                 h = quote
                     + sumTo (fun i =>
                                I80F48.mul (nthZ spot i)
                                  (price (priceCache c i))
                                + I80F48.mul (nthZ perps i)
                                    (price (priceCache c i))) k)
              (numOracles g) (unweightedBody c spot perps) quote)
    with (k := numOracles g) as (h & Hh & ->);
    [| | lia | exact Hh].
  - cbn [sumTo]. lia.
  - intros i h Hi ->. eexists. split; [|reflexivity].
    unfold unweightedBody.
    rewrite !getIdx_nthZ by lia. cbn [bind sumTo].
    unfold I80F48.add. f_equal. lia.
Qed.

Lemma marketHealth_withUnitWeights {rm : Rounding} (g : EntropyGroup)
    (c : EntropyCache) (ht : HealthType) (spot perps : list I80F48.t)
    (i : nat) :
  marketHealth (withUnitWeights g) c ht spot perps i
  = I80F48.mul (nthZ spot i) (price (priceCache c i))
    + I80F48.mul (nthZ perps i) (price (priceCache c i)).
Proof.
  unfold marketHealth, spotHealthOf, perpHealthOf.
  destruct ht;
    cbn [getWeights withUnitWeights spotMarkets perpMarkets spotAssetWeight
           spotLiabWeight perpAssetWeight perpLiabWeight
           spotInitAssetWeight spotInitLiabWeight spotMaintAssetWeight
           spotMaintLiabWeight perpInitAssetWeight perpInitLiabWeight
           perpMaintAssetWeight perpMaintLiabWeight];
    destruct (I80F48.isPos (nthZ spot i)), (I80F48.isPos (nthZ perps i));
    rewrite !mul_ONE_r; reflexivity.
Qed.

Lemma marketHealth_le_unweighted {rm : Rounding} (g : EntropyGroup)
    (c : EntropyCache) (ht : HealthType) (spot perps : list I80F48.t)
    (i : nat) :
  haircutWeights g c ht -> (i < numOracles g)%nat ->
  marketHealth g c ht spot perps i
  <= I80F48.mul (nthZ spot i) (price (priceCache c i))
     + I80F48.mul (nthZ perps i) (price (priceCache c i)).
Proof.
  intros Hc Hi. destruct (Hc i Hi) as (Hp & Hsa & Hsl & Hpa & Hpl).
  unfold marketHealth, spotHealthOf, perpHealthOf.
  apply Z.add_le_mono.
  - rewrite <- (mul_ONE_r (I80F48.mul (nthZ spot i) _)) at 2.
    destruct (isPos_spec (nthZ spot i)) as [[-> Hs]|[-> Hs]].
    + apply mul_le_mono_r_nonneg; [apply mul_nonneg; lia | exact Hsa].
    + apply mul_le_mono_r_nonpos; [apply mul_nonpos; lia | exact Hsl].
  - rewrite <- (mul_ONE_r (I80F48.mul (nthZ perps i) _)) at 2.
    destruct (isPos_spec (nthZ perps i)) as [[-> Hs]|[-> Hs]].
    + apply mul_le_mono_r_nonneg; [apply mul_nonneg; lia | exact Hpa].
    + apply mul_le_mono_r_nonpos; [apply mul_nonpos; lia | exact Hpl].
Qed.

Lemma getHealthComponents_withUnitWeights {rm : Rounding}
    (QUOTE_INDEX : nat) (g : EntropyGroup) (c : EntropyCache)
    (a : EntropyAccount) :
  getHealthComponents QUOTE_INDEX (withUnitWeights g) c a
  = getHealthComponents QUOTE_INDEX g c a.
Proof. reflexivity. Qed.

(** X14: [getHealthUnweighted] is the health, of either type, in the group with
    every risk weight set to one; it throws exactly when [getHealth]
    does. *)
Theorem unweighted_health_is_unit_weight_health (rm : Rounding)
    (QUOTE_INDEX : nat) (g : EntropyGroup) (c : EntropyCache)
    (a : EntropyAccount) (ht : HealthType) :
  getHealthUnweighted QUOTE_INDEX g c a
  = getHealth QUOTE_INDEX (withUnitWeights g) c a ht
  /\ forall e,
       getHealthUnweighted QUOTE_INDEX g c a = Throw e
       <-> getHealth QUOTE_INDEX g c a ht = Throw e.
Proof.
  unfold getHealthUnweighted, getHealth.
  rewrite getHealthComponents_withUnitWeights.
  destruct (getHealthComponents QUOTE_INDEX g c a) as [r|e0] eqn:Hr;
    cbn [bind]; [|split; [reflexivity | intros e; reflexivity]].
  pose proof Hr as Hr'.
  apply (getHealthComponents_iff QUOTE_INDEX) in Hr' as [_ Er].
  destruct (resolved_lengths QUOTE_INDEX g c a) as [Hs Hp].
  rewrite <- Er in Hs, Hp.
  rewrite (getHealthFromComponentsUnweighted_closed g c _ _ _ Hs Hp).
  rewrite (getHealthFromComponents_closed (withUnitWeights g) c _ _ _ ht
             Hs Hp).
  rewrite (getHealthFromComponents_closed g c _ _ _ ht Hs Hp).
  split.
  - f_equal. f_equal. cbn [withUnitWeights numOracles].
    apply sumTo_ext. intros i _.
    symmetry. apply marketHealth_withUnitWeights.
  - intros e. split; discriminate.
Qed.

(** X15: When no price is negative, the asset weights are at most one and the
    liab weights at least one, the weighted health is at most the unweighted
    health. *)
Theorem weighted_health_below_unweighted (rm : Rounding) (QUOTE_INDEX : nat)
    (g : EntropyGroup) (c : EntropyCache) (a : EntropyAccount)
    (ht : HealthType) (health : I80F48.t) :
  haircutWeights g c ht ->
  getHealth QUOTE_INDEX g c a ht = Ok health ->
  exists unweighted,
    getHealthUnweighted QUOTE_INDEX g c a = Ok unweighted
    /\ health <= unweighted.
Proof.
  intros Hc. unfold getHealth, getHealthUnweighted. intros H.
  apply bind_Ok_inv in H as (r & Hr & H). rewrite Hr. cbn [bind].
  pose proof Hr as Hr'.
  apply (getHealthComponents_iff QUOTE_INDEX) in Hr' as [_ Er].
  destruct (resolved_lengths QUOTE_INDEX g c a) as [Hs Hp].
  rewrite <- Er in Hs, Hp.
  rewrite (getHealthFromComponents_closed g c _ _ _ ht Hs Hp) in H.
  injection H as <-.
  rewrite (getHealthFromComponentsUnweighted_closed g c _ _ _ Hs Hp).
  eexists. split; [reflexivity|].
  apply Z.add_le_mono_l. apply sumTo_le. intros i Hi.
  apply marketHealth_le_unweighted; assumption.
Qed.

(** ** The aggregators update [quote] in place *)

Lemma valuesOf_nthZ (st : Objects.store) (refs : list Objects.ref)
    (i : nat) (r : Objects.ref) :
  refs !! i = Some r -> nthZ (valuesOf st refs) i = nthZ st r.
Proof.
  intros Hr. unfold valuesOf, nthZ at 1.
  rewrite list_lookup_fmap. rewrite Hr.
  reflexivity.
Qed.

Lemma length_valuesOf (st : Objects.store) (refs : list Objects.ref) :
  length (valuesOf st refs) = length refs.
Proof. apply length_fmap. Qed.

Lemma getIdx_insert_eq (st : Objects.store) (r : Objects.ref)
    (v : I80F48.t) :
  (r < length st)%nat -> getIdx (<[r := v]> st) r = Ok v.
Proof.
  intros Hr. unfold getIdx. rewrite list_lookup_insert_eq by exact Hr.
  reflexivity.
Qed.

Lemma readAt_apart (st : Objects.store) (quote : Objects.ref)
    (refs : list Objects.ref) (i : nat) (v : I80F48.t) :
  apartFrom st quote refs -> (i < length refs)%nat ->
  Objects.readAt refs i (<[quote := v]> st)
  = Ok (nthZ (valuesOf st refs) i).
Proof.
  intros Hap Hi.
  destruct (proj2 (lookup_lt_is_Some refs i) Hi) as [r Hr].
  destruct (proj1 (Forall_lookup _ refs) Hap i r Hr) as [Hlive Hne].
  destruct (proj2 (lookup_lt_is_Some st r) Hlive) as [x Hx].
  unfold Objects.readAt, getIdx.
  rewrite Hr. cbn [bind].
  rewrite list_lookup_insert_ne by (intros ->; contradiction).
  rewrite Hx, (valuesOf_nthZ st refs i r Hr), (nthZ_lookup st r x Hx).
  reflexivity.
Qed.

Section ObjectTheorems.

Context {rm : Rounding}.

(** The loop of the two aggregators, which add every market's spot and
    perp health to the object [quote]. *)
Lemma objects_health_loop (g : EntropyGroup) (c : EntropyCache)
    (spot perps : list Objects.ref) (quote : Objects.ref) (ht : HealthType)
    (st : Objects.store) :
  length spot = numOracles g -> length perps = numOracles g ->
  apartFrom st quote spot -> apartFrom st quote perps ->
  (quote < length st)%nat ->
  forRange (numOracles g) (Objects.healthBody g c spot perps ht quote) st
  = Ok (<[quote :=
            nthZ st quote
            + sumTo (marketHealth g c ht (valuesOf st spot)
                       (valuesOf st perps)) (numOracles g)]> st).
Proof.
  intros Hs Hp Has Hap Hq.
  destruct (proj2 (lookup_lt_is_Some st quote) Hq) as [q0 Hq0].
  destruct (forRange_invariant
              (fun k s =>
                 s = <[quote :=
                         nthZ st quote
                         + sumTo (marketHealth g c ht (valuesOf st spot)
                                    (valuesOf st perps)) k]> st)
              (numOracles g) (Objects.healthBody g c spot perps ht quote) st)
    with (k := numOracles g) as (s & Hrun & ->);
    [| | lia | exact Hrun].
  - cbn [sumTo]. symmetry. apply list_insert_id.
    rewrite (nthZ_lookup st quote q0 Hq0), Z.add_0_r. exact Hq0.
  - intros i s Hi ->. eexists. split; [|reflexivity].
    unfold Objects.healthBody.
    rewrite !readAt_apart
      by (assumption || lia).
    cbn [bind].
    unfold Objects.iadd.
    rewrite getIdx_insert_eq by exact Hq. cbn [bind].
    rewrite list_insert_insert_eq.
    rewrite getIdx_insert_eq by exact Hq. cbn [bind].
    rewrite list_insert_insert_eq.
    cbn [sumTo]. unfold marketHealth, I80F48.add. do 2 f_equal. lia.
Qed.

(** X16: [getHealthFromComponents] returns the object [quote] it was given, not
    a new one. When the entries of [spot] and [perps] are live objects other
    than [quote], the value of [quote] afterwards is the health of the
    component values, every other object is as before, and a second call
    with the same arguments counts the market terms twice: it leaves
    [2 * health - quote]. *)
Theorem health_overwrites_quote (g : EntropyGroup) (c : EntropyCache)
    (spot perps : list Objects.ref) (quote : Objects.ref) (ht : HealthType)
    (st : Objects.store) :
  length spot = numOracles g -> length perps = numOracles g ->
  apartFrom st quote spot -> apartFrom st quote perps ->
  (quote < length st)%nat ->
  exists health,
    getHealthFromComponents g c (valuesOf st spot) (valuesOf st perps)
      (nthZ st quote) ht = Ok health
    /\ Objects.getHealthFromComponents g c spot perps quote ht st
       = Ok (quote, <[quote := health]> st)
    /\ Objects.getHealthFromComponents g c spot perps quote ht
         (<[quote := health]> st)
       = Ok (quote, <[quote := 2 * health - nthZ st quote]> st).
Proof.
  intros Hs Hp Has Hap Hq.
  rewrite (getHealthFromComponents_closed g c _ _ _ ht)
    by (rewrite length_valuesOf; assumption).
  eexists. split; [reflexivity|].
  unfold Objects.getHealthFromComponents. split.
  - rewrite (objects_health_loop g c spot perps quote ht st Hs Hp Has Hap Hq).
    reflexivity.
  - assert (Hins : forall (v : I80F48.t) refs,
              apartFrom st quote refs ->
              apartFrom (<[quote := v]> st) quote refs).
    { intros v refs Hrefs. unfold apartFrom in *. rewrite length_insert.
      exact Hrefs. }
    assert (Hlive : forall v : I80F48.t,
              (quote < length (<[quote := v]> st))%nat)
      by (intros v; rewrite length_insert; exact Hq).
    assert (Hv : forall (v : I80F48.t) refs,
              apartFrom st quote refs ->
              valuesOf (<[quote := v]> st) refs = valuesOf st refs).
    { intros v refs Hrefs. unfold valuesOf. apply list_eq. intros i.
      rewrite !list_lookup_fmap.
      destruct (refs !! i) as [r|] eqn:Hr; [|reflexivity].
      cbn. f_equal.
      destruct (proj1 (Forall_lookup _ refs) Hrefs i r Hr) as [_ Hne].
      apply nthZ_insert_ne. intros ->. contradiction. }
    rewrite (objects_health_loop g c spot perps quote ht _ Hs Hp
               (Hins _ _ Has) (Hins _ _ Hap) (Hlive _)).
    cbn [bind]. rewrite list_insert_insert_eq.
    rewrite nthZ_insert by exact Hq.
    rewrite (Hv _ spot Has), (Hv _ perps Hap).
    do 3 f_equal. lia.
Qed.

(** X17: [getHealthsFromComponents] returns the object [quote] twice: its
    [spot] and [perp] results are one object, which holds the whole
    health, quote balance, spot and perp terms together. *)
Theorem healths_are_one_object (g : EntropyGroup) (c : EntropyCache)
    (spot perps : list Objects.ref) (quote : Objects.ref) (ht : HealthType)
    (st : Objects.store) :
  length spot = numOracles g -> length perps = numOracles g ->
  apartFrom st quote spot -> apartFrom st quote perps ->
  (quote < length st)%nat ->
  exists health,
    getHealthFromComponents g c (valuesOf st spot) (valuesOf st perps)
      (nthZ st quote) ht = Ok health
    /\ Objects.getHealthsFromComponents g c spot perps quote ht st
       = Ok (quote, quote, <[quote := health]> st).
Proof.
  intros Hs Hp Has Hap Hq.
  rewrite (getHealthFromComponents_closed g c _ _ _ ht)
    by (rewrite length_valuesOf; assumption).
  eexists. split; [reflexivity|].
  unfold Objects.getHealthsFromComponents.
  change (Objects.healthsBody g c spot perps ht quote quote)
    with (Objects.healthBody g c spot perps ht quote).
  rewrite (objects_health_loop g c spot perps quote ht st Hs Hp Has Hap Hq).
  reflexivity.
Qed.

End ObjectTheorems.

(** ** The account name *)

(** X18: The name holds no NUL and only 16-bit code units, and is not longer
    than the [info] field. *)
Theorem name_has_no_nul (info : option (list N)) :
  Forall (fun u => u <> 0%N /\ (u < 65536)%N) (name info)
  /\ (length (name info) <= length (default [] info))%nat.
Proof.
  destruct info as [codes|]; cbn [name default];
    [|split; [constructor | reflexivity]].
  unfold removeNul, fromCharCode, JSString in *. split.
  - apply Forall_forall. intros u Hu.
    apply list_elem_of_filter in Hu as [Hnz Hu].
    apply list_elem_of_fmap in Hu as (n & -> & _).
    split; [exact Hnz | apply N.mod_lt; discriminate].
  - etransitivity; [apply length_filter|]. rewrite length_fmap.
    reflexivity.
Qed.

(** X19: A name made of non-NUL 16-bit code units, padded with NULs to the width
    of the [info] field, is read back as it was written. *)
Theorem name_strips_padding (s : JSString) (padding : nat) :
  Forall (fun u => (0 < u < 65536)%N) s ->
  name (Some (s ++ replicate padding 0%N)) = s.
Proof.
  intros Hs. cbn [name]. unfold removeNul, fromCharCode, JSString in *.
  rewrite fmap_app, filter_app.
  assert (Hpad : filter (fun u : N => u <> 0%N)
                   ((fun n => (n mod 65536)%N) <$> replicate padding 0%N)
                 = []).
  { induction padding as [|k IH]; [reflexivity|].
    cbn [replicate fmap list_fmap]. rewrite filter_cons.
    destruct (decide ((0 mod 65536)%N <> 0%N)) as [Hne|_]; [|exact IH].
    exfalso. apply Hne. reflexivity. }
  rewrite Hpad, app_nil_r.
  induction Hs as [|u s [Hu0 Hu1] _ IH]; [reflexivity|].
  cbn [fmap list_fmap]. rewrite filter_cons.
  rewrite N.mod_small by exact Hu1.
  destruct (decide (u <> 0%N)) as [_|Hz]; [|exfalso; apply Hz; lia].
  f_equal. exact IH.
Qed.

(** ** Margin basket and open orders *)

Lemma basket_all_false (basket : list bool) (i : nat) :
  hasAnySpotOrders basket = false -> arrayView false basket i = false.
Proof.
  intros Hnone. unfold arrayView.
  destruct (basket !! i) as [b|] eqn:Hb; [|reflexivity]. cbn.
  destruct b; [|reflexivity].
  unfold hasAnySpotOrders in Hnone.
  assert (Hex : existsb (fun b => b) basket = true).
  { apply existsb_exists. exists true. split; [|reflexivity].
    apply list_elem_of_In. eapply list_elem_of_lookup_2. exact Hb. }
  rewrite Hex in Hnone. discriminate Hnone.
Qed.

(** X20: [getOpenOrdersKeysInBasket] keeps the number of slots, reveals a key
    other than the zero key only in a slot whose market is in the margin
    basket, where it is the key of the slot, and applying it again changes
    nothing. *)
Theorem keys_in_basket (a : EntropyAccount) (keys : list PublicKey) :
  length (getOpenOrdersKeysInBasket a keys) = length keys
  /\ (forall i pk,
        getOpenOrdersKeysInBasket a keys !! i = Some pk -> pk <> zeroKey ->
        inMarginBasket a i = true /\ keys !! i = Some pk)
  /\ getOpenOrdersKeysInBasket a (getOpenOrdersKeysInBasket a keys)
     = getOpenOrdersKeysInBasket a keys.
Proof.
  unfold getOpenOrdersKeysInBasket. split; [apply length_imap|]. split.
  - intros i pk Hi Hnz. rewrite list_lookup_imap in Hi.
    destruct (keys !! i) as [k|]; [|discriminate Hi].
    cbn in Hi. destruct (inMarginBasket a i).
    + injection Hi as ->. split; reflexivity.
    + injection Hi as <-. contradiction.
  - apply list_eq. intros i. rewrite !list_lookup_imap.
    destruct (keys !! i) as [k|]; [|reflexivity].
    cbn. destruct (inMarginBasket a i); reflexivity.
Qed.

(** X21: An account without any market in the margin basket
    ([hasAnySpotOrders] is false) has only zero keys in the basket. *)
Theorem no_spot_orders_no_keys (a : EntropyAccount) (basket : list bool)
    (keys : list PublicKey) :
  (forall i, inMarginBasket a i = arrayView false basket i) ->
  hasAnySpotOrders basket = false ->
  getOpenOrdersKeysInBasket a keys = replicate (length keys) zeroKey.
Proof.
  intros Hview Hnone. unfold getOpenOrdersKeysInBasket.
  apply list_eq. intros i. rewrite list_lookup_imap.
  rewrite Hview, (basket_all_false basket i Hnone).
  destruct (keys !! i) as [k|] eqn:Hk; cbn.
  - symmetry. apply lookup_replicate. split; [reflexivity|].
    apply lookup_lt_is_Some. eauto.
  - symmetry. apply lookup_replicate_None.
    apply lookup_ge_None in Hk. lia.
Qed.

Lemma mapResult_Ok_inv {A B : Type} (f : A -> result B) (l : list A)
    (res : list B) :
  mapResult f l = Ok res ->
  length res = length l
  /\ forall i x, l !! i = Some x ->
       exists y, res !! i = Some y /\ f x = Ok y.
Proof.
  revert res. induction l as [|x l IH]; intros res H.
  - injection H as <-. split; [reflexivity|]. intros i y Hy.
    discriminate Hy.
  - cbn [mapResult] in H.
    apply bind_Ok_inv in H as (y & Hy & H).
    apply bind_Ok_inv in H as (ys & Hys & H).
    injection H as <-. destruct (IH ys Hys) as [Hlen Hall].
    split; [cbn [length]; lia|].
    intros [|i] z Hz.
    + injection Hz as <-. exists y. split; [reflexivity | exact Hy].
    + exact (Hall i z Hz).
Qed.

(** X22: When [loadOpenOrders] returns, there is one entry per slot of
    [spotOpenOrders]; the entry of a slot with the zero key, or with a key
    that was not fetched, is [undefined]; and an entry that is an
    open-orders account was decoded from a fetched account with the key of
    the slot. *)
Theorem load_open_orders_slots {Info : Type}
    (fromAccountInfo : PublicKey -> Info -> result OpenOrders)
    (accounts : list (PublicKey * Info)) (spotOpenOrders : list PublicKey)
    (loaded : list (option OpenOrders)) :
  loadOpenOrders fromAccountInfo accounts spotOpenOrders = Ok loaded ->
  length loaded = length spotOpenOrders
  /\ forall i pk, spotOpenOrders !! i = Some pk ->
       (pk = zeroKey -> loaded !! i = Some None)
       /\ ((forall info, (pk, info) ∉ accounts) -> loaded !! i = Some None)
       /\ (forall oo, loaded !! i = Some (Some oo) ->
             pk <> zeroKey
             /\ exists info, (pk, info) ∈ accounts
                             /\ fromAccountInfo pk info = Ok oo).
Proof.
  unfold loadOpenOrders. intros H.
  apply mapResult_Ok_inv in H as [Hlen Hall].
  split; [exact Hlen|]. intros i pk Hpk.
  destruct (Hall i pk Hpk) as (y & Hy & Hf). rewrite Hy.
  unfold assignOpenOrders, equals, zeroKey in Hf.
  destruct (Z.eqb_spec pk 0) as [Hz|Hnz].
  { injection Hf as <-. split; [reflexivity|]. split; [reflexivity|].
    intros oo Hoo. discriminate Hoo. }
  destruct (List.find _ accounts) as [[k info]|] eqn:Hfind.
  - apply find_some in Hfind as [Hin Hk]. cbn [fst] in Hk.
    apply Z.eqb_eq in Hk. subst k. apply list_elem_of_In in Hin.
    cbn [snd] in Hf. apply bind_Ok_inv in Hf as (oo & Hoo & Hf).
    injection Hf as <-.
    split; [intros Hz; contradiction|].
    split; [intros Hnone; destruct (Hnone info Hin)|].
    intros oo' Hoo'. injection Hoo' as <-.
    split; [exact Hnz|]. exists info. split; [exact Hin | exact Hoo].
  - injection Hf as <-. split; [reflexivity|]. split; [reflexivity|].
    intros oo Hoo. discriminate Hoo.
Qed.

(** ** Perp open orders *)

Lemma length_omap_le {A B : Type} (f : A -> option B) (l : list A) :
  (length (omap f l) <= length l)%nat.
Proof.
  induction l as [|x l IH]; [reflexivity|].
  cbn [omap list_omap length]. destruct (f x); cbn [length]; lia.
Qed.

Lemma length_omap_total {A B : Type} (f : A -> option B) (l : list A) :
  (forall x, x ∈ l -> is_Some (f x)) -> length (omap f l) = length l.
Proof.
  induction l as [|x l IH]; intros Hall; [reflexivity|].
  cbn [omap list_omap length].
  destruct (Hall x ltac:(left)) as [y ->]. cbn [length]. f_equal.
  apply IH. intros z Hz. apply Hall. right. exact Hz.
Qed.

(** X23: [getPerpOpenOrders] never lists a free slot and lists at most one
    order per entry of [orders], exactly one when no slot is free. A slot
    past the end of [orderMarket] is not free: it is listed, with an
    undefined market index. *)
Theorem perp_open_orders_skip_free_slots {Side : Type} (FREE_ORDER_SLOT : N)
    (getPriceFromKey : Z -> Z) (orders : list Z) (orderMarket : list N)
    (orderSide : list Side) :
  let listed :=
    getPerpOpenOrders FREE_ORDER_SLOT getPriceFromKey orders orderMarket
      orderSide in
  (forall o, o ∈ listed -> orderMarketIndex o <> Some FREE_ORDER_SLOT)
  /\ (length listed <= length orders)%nat
  /\ ((forall i, (i < length orders)%nat ->
         orderMarket !! i <> Some FREE_ORDER_SLOT) ->
      length listed = length orders)
  /\ (forall i key, orders !! i = Some key ->
        (length orderMarket <= i)%nat ->
        {| orderMarketIndex := None;
           orderPrice := getPriceFromKey key;
           orderSideOf := orderSide !! i |} ∈ listed).
Proof.
  cbv zeta. unfold getPerpOpenOrders. split; [|split; [|split]].
  - intros o Ho. apply list_elem_of_omap in Ho as (i & _ & Hi).
    destruct (decide (orderMarket !! i = Some FREE_ORDER_SLOT)) as [|Hne];
      [discriminate Hi|].
    injection Hi as <-. exact Hne.
  - etransitivity; [apply length_omap_le|]. rewrite length_seq.
    reflexivity.
  - intros Hnone. rewrite length_omap_total; [apply length_seq|].
    intros i Hi. apply elem_of_seq in Hi.
    destruct (decide (orderMarket !! i = Some FREE_ORDER_SLOT)) as [He|];
      [|eauto].
    exfalso. apply (Hnone i); [lia | exact He].
  - intros i key Hkey Hout. apply list_elem_of_omap. exists i. split.
    + apply elem_of_seq. apply lookup_lt_Some in Hkey. lia.
    + apply lookup_ge_None in Hout. rewrite Hout, Hkey.
      destruct (decide (None = Some FREE_ORDER_SLOT)) as [He|];
        [discriminate He | reflexivity].
Qed.

(** ** Native balances and leverage *)

Section LeverageTheorems.

Context {rm : Rounding}.

(** X26: The net balance of [getNet] is the native deposit of
    [getNativeDeposit] minus the native borrow of [getNativeBorrow], which
    multiply the same numbers in the other order; with an index and a
    balance that are not negative neither native amount is negative, and
    the net balance is then at most the native deposit. *)
Theorem net_is_deposit_minus_borrow (a : EntropyAccount)
    (rootBank : RootBankCache) (tokenIndex : nat) :
  getNet a rootBank tokenIndex
  = I80F48.sub (getNativeDeposit a rootBank tokenIndex)
      (getNativeBorrow a rootBank tokenIndex)
  /\ (0 <= depositIndex rootBank -> 0 <= deposits a tokenIndex ->
      0 <= getNativeDeposit a rootBank tokenIndex)
  /\ (0 <= borrowIndex rootBank -> 0 <= borrows a tokenIndex ->
      0 <= getNativeBorrow a rootBank tokenIndex
      /\ getNet a rootBank tokenIndex
         <= getNativeDeposit a rootBank tokenIndex).
Proof.
  assert (Hnet : getNet a rootBank tokenIndex
                 = I80F48.sub (getNativeDeposit a rootBank tokenIndex)
                     (getNativeBorrow a rootBank tokenIndex)).
  { unfold getNet, getNativeDeposit, getNativeBorrow, I80F48.mul.
    rewrite (Z.mul_comm (deposits a tokenIndex)),
      (Z.mul_comm (borrows a tokenIndex)). reflexivity. }
  split; [exact Hnet|]. split.
  - intros Hi Hd. unfold getNativeDeposit. apply mul_nonneg; assumption.
  - intros Hi Hb.
    assert (0 <= getNativeBorrow a rootBank tokenIndex)
      by (unfold getNativeBorrow; apply mul_nonneg; assumption).
    split; [assumption|]. rewrite Hnet. unfold I80F48.sub. lia.
Qed.

(** X24: [getLeverage] is zero when the assets are not positive, throws exactly
    when the assets are positive and equal to the liabilities, is not
    negative when the liabilities are between zero and the assets, and is
    negative when the liabilities exceed positive assets. *)
Theorem leverage_cases (assetsVal liabsVal : I80F48.t) :
  (assetsVal <= 0 -> getLeverage assetsVal liabsVal = Ok I80F48.ZERO)
  /\ (getLeverage assetsVal liabsVal = Throw DivisionByZero
      <-> 0 < assetsVal /\ assetsVal = liabsVal)
  /\ (forall leverage,
        getLeverage assetsVal liabsVal = Ok leverage ->
        (0 <= liabsVal <= assetsVal -> 0 <= leverage)
        /\ (0 < assetsVal < liabsVal -> leverage < 0)).
Proof.
  pose proof MULTIPLIER_pos as HM.
  unfold getLeverage, I80F48.gt, I80F48.ZERO, I80F48.sub, I80F48.div.
  destruct (Z.ltb_spec 0 assetsVal) as [Hpos|Hnp].
  - destruct (Z.eqb_spec (assetsVal - liabsVal) 0) as [Heq|Hne].
    + split; [lia|]. split; [split; [lia | reflexivity]|].
      intros leverage H. discriminate H.
    + split; [lia|]. split; [split; [discriminate | lia]|].
      intros leverage H. injection H as <-. split.
      * intros Hl. apply rdiv_nonneg; nia.
      * intros Hl. unfold I80F48.rdiv. destruct rm.
        -- replace (assetsVal - liabsVal) with (- (liabsVal - assetsVal))
             by lia.
           rewrite Z.quot_opp_r by lia.
           assert (0 < liabsVal * I80F48.MULTIPLIER
                       ÷ (liabsVal - assetsVal))
             by (apply Z.quot_str_pos; nia).
           lia.
        -- pose proof (Z.div_mod (liabsVal * I80F48.MULTIPLIER)
                         (assetsVal - liabsVal) Hne).
           pose proof (Z.mod_neg_bound (liabsVal * I80F48.MULTIPLIER)
                         (assetsVal - liabsVal) ltac:(lia)).
           nia.
  - split; [reflexivity|]. split; [split; [discriminate | lia]|].
    intros leverage H. injection H as <-. split; intros; lia.
Qed.

(** X25: The [max] of [getMaxLeverageForMarket] throws exactly when the weight
    in its divisor is one: the Init asset weight for a buy, the Init liab
    weight for a sell. With an Init health, a deposit value and a borrow
    value that are not negative, an asset weight in [0, 1) and a liab
    weight above one, a buy can at least spend the health and close the
    borrow, and a sell can at least sell the deposit. *)
Theorem max_leverage_bounds (side : Side)
    (uiInitHealth uiDepositVal uiBorrowVal : I80F48.t)
    (initLiabWeight initAssetWeight : I80F48.t) :
  (maxLeverageMax side uiInitHealth uiDepositVal uiBorrowVal initLiabWeight
     initAssetWeight = Throw DivisionByZero
   <-> match side with
       | Buy => initAssetWeight = I80F48.ONE
       | Sell => initLiabWeight = I80F48.ONE
       end)
  /\ (forall max,
        maxLeverageMax side uiInitHealth uiDepositVal uiBorrowVal
          initLiabWeight initAssetWeight = Ok max ->
        0 <= uiInitHealth -> 0 <= uiDepositVal -> 0 <= uiBorrowVal ->
        0 <= initAssetWeight < I80F48.ONE -> I80F48.ONE < initLiabWeight ->
        match side with
        | Buy => uiInitHealth + uiBorrowVal <= max
        | Sell => uiDepositVal <= max
        end).
Proof.
  pose proof MULTIPLIER_pos as HM.
  unfold maxLeverageMax, I80F48.add, I80F48.sub, I80F48.ONE, I80F48.div.
  destruct side.
  - destruct (Z.eqb_spec (I80F48.MULTIPLIER - initAssetWeight) 0)
      as [Heq|Hne]; cbn [bind].
    + split; [split; [lia | reflexivity]|]. intros max H. discriminate H.
    + split; [split; [discriminate | lia]|].
      intros max H Hh Hd Hb Hwa Hwl. injection H as <-.
      pose proof (mul_nonneg uiBorrowVal
                    (initLiabWeight - I80F48.MULTIPLIER) Hb ltac:(lia))
        as Hm.
      set (haz := uiInitHealth
                  + I80F48.mul uiBorrowVal
                      (initLiabWeight - I80F48.MULTIPLIER)) in *.
      assert (Hhaz : uiInitHealth <= haz) by (subst haz; lia).
      clearbody haz.
      assert (haz <= I80F48.rdiv (haz * I80F48.MULTIPLIER)
                       (I80F48.MULTIPLIER - initAssetWeight)).
      { rewrite <- (rdiv_mul_exact haz
                     (I80F48.MULTIPLIER - initAssetWeight)) at 1 by lia.
        apply rdiv_le_mono; nia. }
      lia.
  - destruct (Z.eqb_spec (initLiabWeight - I80F48.MULTIPLIER) 0)
      as [Heq|Hne]; cbn [bind].
    + split; [split; [lia | reflexivity]|]. intros max H. discriminate H.
    + split; [split; [discriminate | lia]|].
      intros max H Hh Hd Hb Hwa Hwl. injection H as <-.
      pose proof (mul_nonneg uiDepositVal
                    (I80F48.MULTIPLIER - initAssetWeight) Hd ltac:(lia))
        as Hm.
      set (haz := uiInitHealth
                  + I80F48.mul uiDepositVal
                      (I80F48.MULTIPLIER - initAssetWeight)) in *.
      assert (Hhaz : 0 <= haz) by (subst haz; lia).
      clearbody haz.
      assert (0 <= I80F48.rdiv (haz * I80F48.MULTIPLIER)
                     (initLiabWeight - I80F48.MULTIPLIER))
        by (apply rdiv_nonneg; nia).
      lia.
Qed.

End LeverageTheorems.

(** ** The further properties at concrete snapshots *)

Lemma zero_price_blocks_health_queries_witness :
  price (priceCache zeroPriceCache 0) = 0
  /\ (forall r,
        getHealthComponents (rm := TowardZero) 15 (singleMarket w09)
          zeroPriceCache restingBidsAccount <> Ok r)
  /\ (forall answer,
        isLiquidatable (rm := TowardZero) 15 (singleMarket w09)
          zeroPriceCache restingBidsAccount <> Ok answer).
Proof.
  split; [reflexivity|].
  destruct (zero_price_blocks_health_queries (rm := TowardZero) 15
              (singleMarket w09) zeroPriceCache restingBidsAccount 0%nat
              {| quoteFree := I80F48.ZERO;
                 quoteLocked := I80F48.fromNumber 500;
                 baseFree := I80F48.ZERO; baseLocked := I80F48.ZERO |})
    as (Hres & _ & _ & _ & _ & Hliq & _).
  - cbn. lia.
  - reflexivity.
  - reflexivity.
  - reflexivity.
  - split; [exact Hres | exact Hliq].
Defined.

Lemma resolver_output_shape_witness :
  exists r,
    getHealthComponents (rm := TowardZero) 15 demo_group demo_cache
      demo_account = Ok r
    /\ length (spot r) = 2%nat /\ length (perps r) = 2%nat
    /\ perps r !! 0%nat = Some I80F48.ZERO.
Proof.
  assert (Hdef : resolverDefined demo_group demo_cache demo_account)
    by concrete_defined 2.
  pose proof (getHealthComponents_defined (rm := TowardZero) 15 demo_group
                demo_cache demo_account Hdef) as Hr.
  destruct (resolver_output_shape (rm := TowardZero) 15 _ _ _ _ Hr)
    as (Hs & Hp & Hzero).
  eexists. split; [exact Hr|]. split; [exact Hs|]. split; [exact Hp|].
  apply Hzero; [cbn; lia | reflexivity].
Defined.


Lemma liquidation_price_without_exposure_witness :
  getLiquidationPrice (rm := TowardZero) 15 demo_group demo_cache
    demo_account 5 = Ok None.
Proof.
  assert (Hdef : resolverDefined demo_group demo_cache demo_account)
    by concrete_defined 2.
  pose proof (getHealthComponents_defined (rm := TowardZero) 15 demo_group
                demo_cache demo_account Hdef) as Hr.
  apply (liquidation_price_without_exposure (rm := TowardZero) 15 _ _ _ 5%nat
           _ Hr).
  left. cbn. lia.
Defined.

Lemma liquidation_price_nonneg_witness :
  getLiquidationPrice (rm := TowardZero) 15 demo_group demo_cache
    demo_account 1 = Ok (Some 9101024246977877000)
  /\ 0 <= 9101024246977877000.
Proof.
  assert (H : getLiquidationPrice (rm := TowardZero) 15 demo_group demo_cache
                demo_account 1 = Ok (Some 9101024246977877000))
    by (vm_compute; reflexivity).
  split; [exact H|].
  exact (liquidation_price_nonneg (rm := TowardZero) 15 _ _ _ _ _ H).
Defined.

Lemma liquidation_price_round_trip_witness :
  getLiquidationPrice (rm := TowardZero) 15 demo_group demo_cache
    demo_account 1 = Ok (Some 9101024246977877000)
  /\ exists r lp health,
       getHealthComponents (rm := TowardZero) 15 demo_group demo_cache
         demo_account = Ok r
       /\ 0 <= lp
       /\ getHealthFromComponents (rm := TowardZero) demo_group
            (withPrice demo_cache 1 lp) (spot r) (perps r) (quote r) Maint
          = Ok health.
Proof.
  assert (H : getLiquidationPrice (rm := TowardZero) 15 demo_group demo_cache
                demo_account 1 = Ok (Some 9101024246977877000))
    by (vm_compute; reflexivity).
  split; [exact H|].
  destruct (liquidation_price_round_trip (rm := TowardZero) 15 _ _ _ _ _ H)
    as (r & lp & health & Hr & _ & _ & Hlp & Hh & _).
  exists r, lp, health. split; [exact Hr|]. split; [exact Hlp | exact Hh].
Defined.

Lemma margin_available_bounds_witness :
  getMarketMarginAvailable (rm := TowardZero) 15 (singleMarket w09)
    priceTwoCache depositAccount 0 SpotMarket = Ok 50665495807917280
  /\ exists health,
       getHealth (rm := TowardZero) 15 (singleMarket w09) priceTwoCache
         depositAccount Init = Ok health
       /\ health <= 50665495807917280.
Proof.
  assert (Hm : getMarketMarginAvailable (rm := TowardZero) 15
                 (singleMarket w09) priceTwoCache depositAccount 0 SpotMarket
               = Ok 50665495807917280)
    by (vm_compute; reflexivity).
  split; [exact Hm|].
  destruct (margin_available_bounds (rm := TowardZero) 15 _ _ _ 0%nat
              SpotMarket _ Hm) as (health & Hh & _ & _ & Hle).
  exists health. split; [exact Hh|]. apply Hle. vm_compute. discriminate.
Defined.

Lemma available_balance_bounds_witness :
  getAvailableBalance (rm := TowardZero) 15 (singleMarket w09) priceTwoCache
    depositAccount 0 = Ok 2814749767106560
  /\ 0 <= 2814749767106560
     <= Z.max 0 (getNet (rm := TowardZero) depositAccount
                   (rootBankCache priceTwoCache 0) 0).
Proof.
  assert (H : getAvailableBalance (rm := TowardZero) 15 (singleMarket w09)
                priceTwoCache depositAccount 0 = Ok 2814749767106560)
    by (vm_compute; reflexivity).
  split; [exact H|].
  destruct (available_balance_bounds (rm := TowardZero) 15 _ _ _ _ _ H)
    as (health & _ & Hlo & Hhi & _).
  split; [exact Hlo | exact Hhi].
Defined.

Lemma available_balance_zero_divisor_witness :
  price (priceCache zeroPriceCache 0) = 0
  /\ forall balance,
       getAvailableBalance (rm := TowardZero) 15 (singleMarket w09)
         zeroPriceCache depositAccount 0 <> Ok balance.
Proof.
  split; [reflexivity|].
  apply (available_balance_zero_divisor (rm := TowardZero) 15
           (singleMarket w09) zeroPriceCache depositAccount 0%nat).
  - discriminate.
  - right. reflexivity.
Defined.

Lemma health_against_assets_liabs_witness :
  getHealth (rm := TowardZero) 15 demo_group demo_cache demo_account Maint
  = Ok (1593 * 2 ^ 48 + 3 * 2 ^ 46)
  /\ exists r al,
       getHealthComponents (rm := TowardZero) 15 demo_group demo_cache
         demo_account = Ok r
       /\ getWeightedAssetsLiabsVals (rm := TowardZero) demo_group demo_cache
            (spot r) (perps r) (quote r) (Some Maint) = Ok al
       /\ 1593 * 2 ^ 48 + 3 * 2 ^ 46 = assets al - liabs al.
Proof.
  assert (Hh : getHealth (rm := TowardZero) 15 demo_group demo_cache
                 demo_account Maint = Ok (1593 * 2 ^ 48 + 3 * 2 ^ 46))
    by (vm_compute; reflexivity).
  split; [exact Hh|].
  destruct (health_against_assets_liabs TowardZero 15 _ _ _ _ _ Hh)
    as (r & al & Hr & Hal & Heq & _).
  exists r, al. split; [exact Hr|]. split; [exact Hal|].
  apply Heq. reflexivity.
Defined.

Lemma health_ratio_sign_witness :
  exists ratio health,
    getHealthRatio (rm := TowardZero) 15 riskyMarket quarterPriceCache
      underwaterAccount Maint = Ok ratio
    /\ getHealth (rm := TowardZero) 15 riskyMarket quarterPriceCache
         underwaterAccount Maint = Ok health
    /\ ratio < 0 /\ health < 0.
Proof.
  assert (H : exists ratio,
            getHealthRatio (rm := TowardZero) 15 riskyMarket
              quarterPriceCache underwaterAccount Maint = Ok ratio
            /\ ratio < 0)
    by (vm_compute; eexists; split; reflexivity).
  destruct H as (ratio & H & Hneg).
  destruct (health_ratio_sign TowardZero 15 _ _ _ _ _ H)
    as (health & Hh & _ & Hiff).
  exists ratio, health. split; [exact H|]. split; [exact Hh|].
  split; [exact Hneg|].
  apply (Hiff eq_refl); [concrete_nonneg 1 | exact Hneg].
Defined.

Lemma init_health_below_maint_witness :
  conservativeInit demo_group demo_cache
  /\ exists hMaint,
       getHealth (rm := TowardZero) 15 demo_group demo_cache demo_account
         Maint = Ok hMaint
       /\ 1497 * 2 ^ 48 + 2 ^ 47 <= hMaint
       /\ isLiquidatable (rm := TowardZero) 15 demo_group demo_cache
            demo_account = Ok false.
Proof.
  assert (Hc : conservativeInit demo_group demo_cache) by concrete_nonneg 2.
  assert (HI : getHealth (rm := TowardZero) 15 demo_group demo_cache
                 demo_account Init = Ok (1497 * 2 ^ 48 + 2 ^ 47))
    by (vm_compute; reflexivity).
  split; [exact Hc|].
  destruct (init_health_below_maint TowardZero 15 _ _ _ _ Hc HI)
    as (hMaint & HM & Hle & Hliq).
  exists hMaint. split; [exact HM|]. split; [exact Hle|].
  apply Hliq. vm_compute. discriminate.
Defined.

Lemma liquidatable_has_no_margin_witness :
  conservativeInit riskyMarket quarterPriceCache
  /\ isLiquidatable (rm := TowardZero) 15 riskyMarket quarterPriceCache
       underwaterAccount = Ok true
  /\ getMarketMarginAvailable (rm := TowardZero) 15 riskyMarket
       quarterPriceCache underwaterAccount 0 SpotMarket = Ok I80F48.ZERO
  /\ getAvailableBalance (rm := TowardZero) 15 riskyMarket quarterPriceCache
       underwaterAccount 15 = Ok I80F48.ZERO.
Proof.
  assert (Hc : conservativeInit riskyMarket quarterPriceCache)
    by concrete_nonneg 1.
  assert (Hliq : isLiquidatable (rm := TowardZero) 15 riskyMarket
                   quarterPriceCache underwaterAccount = Ok true)
    by (vm_compute; reflexivity).
  split; [exact Hc|]. split; [exact Hliq|].
  destruct (liquidatable_has_no_margin TowardZero 15 _ _ _ Hc Hliq)
    as [Hmargin Hbalance].
  split; [apply Hmargin | exact Hbalance].
Defined.

Lemma weighted_health_below_unweighted_witness :
  haircutWeights demo_group demo_cache Maint
  /\ exists unweighted,
       getHealthUnweighted (rm := TowardZero) 15 demo_group demo_cache
         demo_account = Ok unweighted
       /\ 1593 * 2 ^ 48 + 3 * 2 ^ 46 <= unweighted.
Proof.
  assert (Hc : haircutWeights demo_group demo_cache Maint)
    by concrete_nonneg 2.
  assert (Hh : getHealth (rm := TowardZero) 15 demo_group demo_cache
                 demo_account Maint = Ok (1593 * 2 ^ 48 + 3 * 2 ^ 46))
    by (vm_compute; reflexivity).
  split; [exact Hc|].
  exact (weighted_health_below_unweighted TowardZero 15 _ _ _ _ _ Hc Hh).
Defined.

Lemma health_overwrites_quote_witness :
  exists health,
    Objects.getHealthFromComponents (rm := TowardZero) (singleMarket w09)
      priceTwoCache [0%nat] [1%nat] 2%nat Init demo_store
    = Ok (2%nat, <[2%nat := health]> demo_store)
    /\ Objects.getHealthFromComponents (rm := TowardZero) (singleMarket w09)
         priceTwoCache [0%nat] [1%nat] 2%nat Init
         (<[2%nat := health]> demo_store)
       = Ok (2%nat,
             <[2%nat := 2 * health - I80F48.fromNumber 1000]> demo_store).
Proof.
  destruct (health_overwrites_quote (rm := TowardZero) (singleMarket w09)
              priceTwoCache [0%nat] [1%nat] 2%nat Init demo_store)
    as (health & _ & Hfirst & Hsecond).
  - reflexivity.
  - reflexivity.
  - repeat constructor; cbn; lia.
  - repeat constructor; cbn; lia.
  - cbn. lia.
  - exists health. split; [exact Hfirst | exact Hsecond].
Defined.

Lemma healths_are_one_object_witness :
  exists health,
    Objects.getHealthsFromComponents (rm := TowardZero) (singleMarket w09)
      priceTwoCache [0%nat] [1%nat] 2%nat Init demo_store
    = Ok (2%nat, 2%nat, <[2%nat := health]> demo_store).
Proof.
  destruct (healths_are_one_object (rm := TowardZero) (singleMarket w09)
              priceTwoCache [0%nat] [1%nat] 2%nat Init demo_store)
    as (health & _ & Hrun).
  - reflexivity.
  - reflexivity.
  - repeat constructor; cbn; lia.
  - repeat constructor; cbn; lia.
  - cbn. lia.
  - exists health. exact Hrun.
Defined.

Lemma name_strips_padding_witness :
  Forall (fun u => (0 < u < 65536)%N) mainName
  /\ name (Some (mainName ++ replicate 28 0%N)) = mainName.
Proof.
  assert (H : Forall (fun u => (0 < u < 65536)%N) mainName)
    by (repeat constructor; lia).
  split; [exact H | exact (name_strips_padding mainName 28 H)].
Defined.

Lemma keys_in_basket_witness :
  getOpenOrdersKeysInBasket restingBidsAccount [11; 22] !! 0%nat = Some 11
  /\ inMarginBasket restingBidsAccount 0 = true.
Proof.
  assert (H : getOpenOrdersKeysInBasket restingBidsAccount [11; 22] !! 0%nat
              = Some 11) by reflexivity.
  split; [exact H|].
  destruct (keys_in_basket restingBidsAccount [11; 22]) as (_ & Hkey & _).
  assert (Hnz : 11 <> zeroKey) by discriminate.
  exact (proj1 (Hkey 0%nat 11 H Hnz)).
Defined.

Lemma no_spot_orders_no_keys_witness :
  hasAnySpotOrders [false] = false
  /\ getOpenOrdersKeysInBasket depositAccount [11; 22] = [zeroKey; zeroKey].
Proof.
  split; [reflexivity|].
  apply (no_spot_orders_no_keys depositAccount [false] [11; 22]).
  - intros [|[|i]]; reflexivity.
  - reflexivity.
Defined.

Lemma load_open_orders_slots_witness :
  loadOpenOrders plainDecoder [(11, zeroOpenOrders)] [0; 11; 22]
  = Ok [None; Some zeroOpenOrders; None]
  /\ exists info,
       (11, info) ∈ [(11, zeroOpenOrders)]
       /\ plainDecoder 11 info = Ok zeroOpenOrders.
Proof.
  assert (H : loadOpenOrders plainDecoder [(11, zeroOpenOrders)] [0; 11; 22]
              = Ok [None; Some zeroOpenOrders; None]) by reflexivity.
  split; [exact H|].
  destruct (load_open_orders_slots plainDecoder _ _ _ H) as [_ Hslots].
  destruct (Hslots 1%nat 11 eq_refl) as (_ & _ & Hsome).
  exact (proj2 (Hsome zeroOpenOrders eq_refl)).
Defined.

Lemma perp_open_orders_skip_free_slots_witness :
  {| orderMarketIndex := None; orderPrice := 7; orderSideOf := Some true |}
  ∈ getPerpOpenOrders 255%N (fun key => key) [5; 6; 7] [1%N; 255%N]
      [true; false; true].
Proof.
  destruct (perp_open_orders_skip_free_slots 255%N (fun key => key) [5; 6; 7]
              [1%N; 255%N] [true; false; true]) as (_ & _ & _ & Hpast).
  assert (Hout : (length [1%N; 255%N] <= 2)%nat) by (cbn; lia).
  exact (Hpast 2%nat 7 eq_refl Hout).
Defined.

Lemma leverage_cases_witness :
  getLeverage (rm := TowardZero) (I80F48.fromNumber 10)
    (I80F48.fromNumber 10) = Throw DivisionByZero.
Proof.
  destruct (leverage_cases (rm := TowardZero) (I80F48.fromNumber 10)
              (I80F48.fromNumber 10)) as (_ & Hthrow & _).
  apply Hthrow. split; [reflexivity | reflexivity].
Defined.

Lemma max_leverage_bounds_witness :
  exists max,
    maxLeverageMax (rm := TowardZero) Buy (I80F48.fromNumber 10) 0
      (I80F48.fromNumber 5) (5 * 2 ^ 46) (3 * 2 ^ 46) = Ok max
    /\ I80F48.fromNumber 10 + I80F48.fromNumber 5 <= max.
Proof.
  assert (H : maxLeverageMax (rm := TowardZero) Buy (I80F48.fromNumber 10) 0
                (I80F48.fromNumber 5) (5 * 2 ^ 46) (3 * 2 ^ 46)
              = Ok 14073748835532800) by (vm_compute; reflexivity).
  exists 14073748835532800. split; [exact H|].
  destruct (max_leverage_bounds (rm := TowardZero) Buy (I80F48.fromNumber 10)
              0 (I80F48.fromNumber 5) (5 * 2 ^ 46) (3 * 2 ^ 46))
    as [_ Hbound].
  apply (Hbound _ H); vm_compute; repeat split; discriminate.
Defined.

Lemma net_is_deposit_minus_borrow_witness :
  0 <= getNativeBorrow (rm := TowardZero) leveragedAccount unitBank 15
  /\ getNet (rm := TowardZero) leveragedAccount unitBank 15
     <= getNativeDeposit (rm := TowardZero) leveragedAccount unitBank 15.
Proof.
  destruct (net_is_deposit_minus_borrow (rm := TowardZero) leveragedAccount
              unitBank 15) as (_ & _ & Hborrow).
  apply Hborrow; vm_compute; discriminate.
Defined.
